(** * Warehouse order API (server.js): shallow embedding and verified properties

    The handlers of [server.js] work on JSON data with JavaScript's dynamic
    semantics.  The embedding keeps that semantics: a type of JavaScript
    values, the conversions the handlers rely on ([ToBoolean], [ToString],
    [parseInt], [+], [Math.max]), property reads with the inherited members of
    [Object.prototype], object spread with JavaScript's property order, and
    the handlers themselves as functions from the loaded order collection and
    the request to a completion (a result, or an uncaught [TypeError]).

    Collections.  [loadOrders()] is taken to return an array and
    [productMapping] to be a plain object; the elements and members are
    arbitrary values.  A handler returns the array it hands to [saveOrders]
    and the value it hands to [res.json].  What the next request loads, and
    what the client receives, is that value after [JSON.stringify] and
    [JSON.parse]: [json] is this round trip (it omits members whose value is
    [undefined] and turns [NaN] and the infinities into [null]), [reloaded]
    applies it to a collection and [next_store] is the collection the next
    request loads.  Reading and writing the file are taken to succeed.
    [new Date().toISOString()] is an argument of the create handler.

    Numbers.  A JavaScript number is an IEEE-754 double: [NaN], an infinity,
    or a finite value, which is an integer ([Fin z]) or a proper dyadic
    fraction ([Frac n k], the odd [n] over [2^k]).  Addition is the exact sum
    rounded to the nearest double, ties to even, with overflow to infinity
    ([round]); [num_to_string] is [Number::toString], the shortest digits that
    read back as the same double.  The two zeros are one value [Fin 0]: the
    handlers add, compare with [Math.max], test truthiness and print, which
    cannot tell [-0] from [0] (and JSON text turns [-0] into [0]).

    Strings hold UTF-16 code units, each written as UTF-8 writes it (one to
    three bytes), so that text without astral characters is in UTF-8. *)

From Stdlib Require Import ZArith List String Ascii Bool Lia Znumtheory.
From Stdlib Require Import Decimal DecimalString DecimalZ DecimalPos DecimalN.
From Stdlib Require Import Permutation.
From Stdlib Require QArith.
Import ListNotations.

#[local] Set Warnings "-register-all".
#[local] Open Scope string_scope.
#[local] Open Scope Z_scope.

(** ** Completions *)

Inductive completion (A : Type) : Type :=
| Normal (a : A)
| TypeError.

Arguments Normal {A} a.
Arguments TypeError {A}.

Definition bind {A B : Type} (c : completion A) (k : A -> completion B) : completion B :=
  match c with
  | Normal a => k a
  | TypeError => TypeError
  end.

Notation "x <- c ;; k" := (bind c (fun x => k))
  (at level 61, c at next level, right associativity).

(** [Array.prototype.reduce] with an initial value and a callback that may throw. *)
Fixpoint reduce {A B : Type} (f : A -> B -> completion A) (l : list B) (init : A)
  : completion A :=
  match l with
  | [] => Normal init
  | x :: r => acc <- f init x ;; reduce f r acc
  end.

(** [Array.prototype.map] with a callback that may throw. *)
Fixpoint map_c {A B : Type} (f : A -> completion B) (l : list A) : completion (list B) :=
  match l with
  | [] => Normal []
  | x :: r => y <- f x ;; ys <- map_c f r ;; Normal (y :: ys)
  end.

(** ** Values *)

Inductive number : Type :=
| NaN
| Inf (negative : bool)
| Fin (z : Z)
| Frac (n : Z) (k : positive).

Inductive value : Type :=
| VUndef
| VNull
| VBool (b : bool)
| VNum (n : number)
| VStr (s : string)
| VArr (elems : list value)
| VObj (props : list (string * value))
| VBuiltin (name : string).

(** [VObj props] lists the members of an object in JSON text order; as in
    [JSON.parse], a later member with the same name overrides an earlier one.
    [VBuiltin name] is the member [name] that every plain object inherits from
    [Object.prototype]. *)

Definition object_prototype_names : list string :=
  [ "constructor"; "__defineGetter__"; "__defineSetter__"; "hasOwnProperty";
    "__lookupGetter__"; "__lookupSetter__"; "isPrototypeOf";
    "propertyIsEnumerable"; "toString"; "valueOf"; "__proto__";
    "toLocaleString" ].

Definition mem_string (k : string) (l : list string) : bool :=
  existsb (String.eqb k) l.

Arguments mem_string : simpl never.

(** ** Numbers and strings *)

(** [a / 2^s] rounded to the nearest integer, ties to even ([0 <= a], [0 < s]). *)
Definition nearest_even (a s : Z) : Z :=
  let q := a / 2 ^ s in
  let r := a mod 2 ^ s in
  let h := 2 ^ (s - 1) in
  if r <? h then q
  else if h <? r then q + 1
  else if Z.even q then q else q + 1.

(** The number whose value is [m * 2^u]. *)
Definition dyadic (m u : Z) : number :=
  if 0 <=? u then Fin (m * 2 ^ u)
  else
    let g := Z.gcd m (2 ^ (- u)) in
    if g =? 2 ^ (- u) then Fin (m / g)
    else Frac (m / g) (Z.to_pos (- u - Z.log2 g)).

(** The double nearest to [n * 2^e], ties to even: [u] is the exponent of the
    unit in the last of the 53 places (at least [-1074], the subnormal
    numbers), [q] the number of units; a result of [2^1024] or more is an
    infinity. *)
Definition round (n e : Z) : number :=
  if n =? 0 then Fin 0
  else
    let a := Z.abs n in
    let u := Z.max (Z.log2 a + e) (-1022) - 52 in
    let q := if u <=? e then a * 2 ^ (e - u) else nearest_even a (u - e) in
    if (971 <? u) || ((u =? 971) && (2 ^ 53 <=? q)) then Inf (n <? 0)
    else dyadic (Z.sgn n * q) u.

(** [a + b] on numbers. *)
Definition num_add (a b : number) : number :=
  match a, b with
  | Fin x, Fin y => round (x + y) 0
  | Fin x, Frac n k => round (x * 2 ^ Zpos k + n) (- Zpos k)
  | Frac n k, Fin y => round (n + y * 2 ^ Zpos k) (- Zpos k)
  | Frac n k, Frac m j =>
      let e := Z.max (Zpos k) (Zpos j) in
      round (n * 2 ^ (e - Zpos k) + m * 2 ^ (e - Zpos j)) (- e)
  | NaN, _ | _, NaN => NaN
  | Inf s, Inf t => if Bool.eqb s t then Inf s else NaN
  | Inf s, _ | _, Inf s => Inf s
  end.

(** [a < b] on numbers other than [NaN]. *)
Definition num_ltb (a b : number) : bool :=
  match a, b with
  | Fin x, Fin y => x <? y
  | Fin x, Frac n k => x * 2 ^ Zpos k <? n
  | Frac n k, Fin y => n <? y * 2 ^ Zpos k
  | Frac n k, Frac m j => n * 2 ^ Zpos j <? m * 2 ^ Zpos k
  | Inf s, Inf t => s && negb t
  | Inf s, _ => s
  | _, Inf t => negb t
  | _, _ => false
  end.

(** [Math.max] of two numbers: [NaN] as soon as one argument is [NaN]. *)
Definition math_max (a b : number) : number :=
  match a, b with
  | Fin x, Fin y => Fin (Z.max x y)
  | NaN, _ | _, NaN => NaN
  | _, _ => if num_ltb a b then b else a
  end.

(** The decimal numeral of an integer. *)
Definition decimal (z : Z) : string := NilZero.string_of_int (Z.to_int z).

(** The decimal order of [p / 2^k > 0]: the least [n] with [p / 2^k < 10^n],
    searched upwards from an estimate below it. *)
Fixpoint decimal_order_from (fuel : nat) (n p k : Z) : Z :=
  match fuel with
  | O => n
  | S f =>
      if (if 0 <=? n then p <? 10 ^ n * 2 ^ k else p * 10 ^ (- n) <? 2 ^ k)
      then n else decimal_order_from f (n + 1) p k
  end.

Definition decimal_order (p k : Z) : Z :=
  decimal_order_from 8 ((Z.log2 p - k) * 1233 / 4096 - 1) p k.

(** [Number::toString] chooses integers [s], [k] and [n] with [k] digits in
    [s], as few as possible, such that [s * 10^(n - k)] reads back as the
    number, and the closest such [s].  For the double [x = p / 2^k > 0] of
    decimal order [n0], with [digits] digits: a value reads back as [x] when
    it lies between the midpoints [lo] and [hi] to the neighbouring doubles
    (included when the last place [m] of [x] is even); the candidates are the
    multiples [c1] and [c2] of [10^(n0 - digits)] on both sides of [x]. *)
Fixpoint shortest (fuel : nat) (digits : Z) (p k n0 : Z) : Z * Z * Z :=
  let u := Z.max (Z.log2 p - k) (-1022) - 52 in
  let w := Z.max (- u) k + 2 in
  let x := p * 2 ^ (w - k) in
  let m := x / 2 ^ (u + w) in
  let hi := x + 2 ^ (u - 1 + w) in
  let lo := x - (if (m =? 2 ^ 52) && (-1074 <? u) then 2 ^ (u - 2 + w)
                 else 2 ^ (u - 1 + w)) in
  let t := n0 - digits in
  let a := if 0 <=? t then 10 ^ t else 1 in
  let b := if 0 <=? t then 1 else 10 ^ (- t) in
  let inside c :=
    if Z.even m then (lo * b <=? c * a * 2 ^ w) && (c * a * 2 ^ w <=? hi * b)
    else (lo * b <? c * a * 2 ^ w) && (c * a * 2 ^ w <? hi * b) in
  let c1 := (x * b) / (a * 2 ^ w) in
  let c2 := c1 + 1 in
  let d1 := x * b - c1 * a * 2 ^ w in
  let d2 := c2 * a * 2 ^ w - x * b in
  let found c := if c =? 10 ^ digits then (1, 1, n0 + 1) else (c, digits, n0) in
  match fuel with
  | O => found c1
  | S f =>
      match inside c1, inside c2 with
      | true, true =>
          if d1 <? d2 then found c1
          else if d2 <? d1 then found c2
          else if Z.even c1 then found c1 else found c2
      | true, false => found c1
      | false, true => found c2
      | false, false => shortest f (digits + 1) p k n0
      end
  end.

Fixpoint zeros (n : nat) : string :=
  match n with
  | O => EmptyString
  | S m => String "0" (zeros m)
  end.

(** The notation [Number::toString] gives to the digits [s] and the decimal
    order [n]: plain digits, a decimal point, or an exponent. *)
Definition format (s k n : Z) : string :=
  let ds := decimal s in
  if (k <=? n) && (n <=? 21) then ds ++ zeros (Z.to_nat (n - k))
  else if (0 <? n) && (n <=? 21)
  then substring 0 (Z.to_nat n) ds ++ "."
       ++ substring (Z.to_nat n) (Z.to_nat (k - n)) ds
  else if (-6 <? n) && (n <=? 0) then "0." ++ zeros (Z.to_nat (- n)) ++ ds
  else
    let e := n - 1 in
    let es := (if e <? 0 then "-" else "+") ++ decimal (Z.abs e) in
    if k =? 1 then ds ++ "e" ++ es
    else substring 0 1 ds ++ "." ++ substring 1 (Z.to_nat (k - 1)) ds
         ++ "e" ++ es.

Definition positive_to_string (p k : Z) : string :=
  let '(s, digits, n) := shortest 17 1 p k (decimal_order p k) in
  format s digits n.

(** [Number::toString].  The shortest digits of an integer up to [2^53] are
    its decimal digits. *)
Definition num_to_string (n : number) : string :=
  match n with
  | NaN => "NaN"
  | Inf false => "Infinity"
  | Inf true => "-Infinity"
  | Fin z =>
      if Z.abs z <=? 2 ^ 53 then decimal z
      else (if z <? 0 then "-" else EmptyString)
           ++ positive_to_string (Z.abs z) 0
  | Frac n k =>
      (if n <? 0 then "-" else EmptyString)
      ++ positive_to_string (Z.abs n) (Zpos k)
  end.

(** The white space that [parseInt] skips ([StrWhiteSpaceChar]): in one byte
    U+0009 to U+000D and U+0020; in two bytes U+00A0; in three bytes U+1680,
    U+2000 to U+200A, U+2028, U+2029, U+202F, U+205F, U+3000 and U+FEFF. *)
Definition is_space (c : ascii) : bool :=
  let n := nat_of_ascii c in
  ((9 <=? n)%nat && (n <=? 13)%nat) || (n =? 32)%nat.

Definition is_space2 (a b : ascii) : bool :=
  (N_of_ascii a =? 194)%N && (N_of_ascii b =? 160)%N.

Definition is_space3 (a b c : ascii) : bool :=
  let x := N_of_ascii a in
  let y := N_of_ascii b in
  let z := N_of_ascii c in
  ((x =? 225) && (y =? 154) && (z =? 128)
   || (x =? 226) && (y =? 128)
      && ((128 <=? z) && (z <=? 138) || (z =? 168) || (z =? 169) || (z =? 175))
   || (x =? 226) && (y =? 129) && (z =? 159)
   || (x =? 227) && (y =? 128) && (z =? 128)
   || (x =? 239) && (y =? 187) && (z =? 191))%N.

Fixpoint skip_spaces (s : string) : string :=
  match s with
  | String a r =>
      if is_space a then skip_spaces r
      else if (N_of_ascii a <? 194)%N then s
      else
        match r with
        | String b r1 =>
            if is_space2 a b then skip_spaces r1
            else
              match r1 with
              | String c r2 => if is_space3 a b c then skip_spaces r2 else s
              | EmptyString => s
              end
        | EmptyString => s
        end
  | EmptyString => s
  end.

Definition digit (c : ascii) : option (uint -> uint) :=
  match c with
  | "0" => Some D0
  | "1" => Some D1
  | "2" => Some D2
  | "3" => Some D3
  | "4" => Some D4
  | "5" => Some D5
  | "6" => Some D6
  | "7" => Some D7
  | "8" => Some D8
  | "9" => Some D9
  | _ => None
  end%char.

(** The longest prefix of decimal digits, most significant digit first. *)
Fixpoint digits_prefix (s : string) : uint :=
  match s with
  | String c r =>
      match digit c with
      | Some d => d (digits_prefix r)
      | None => Nil
      end
  | EmptyString => Nil
  end.

Definition parse_digits (s : string) : option Z :=
  match digits_prefix s with
  | Nil => None
  | d => Some (Z.of_uint d)
  end.

(** [parseInt(s, 10)] on a string: leading white space, an optional sign, then
    the longest run of digits, read as the nearest double; [NaN] when there
    is no digit. *)
Definition parse_int (s : string) : number :=
  match skip_spaces s with
  | String c r =>
      if Ascii.eqb c "-" then
        match parse_digits r with Some z => round (- z) 0 | None => NaN end
      else if Ascii.eqb c "+" then
        match parse_digits r with Some z => round z 0 | None => NaN end
      else
        match parse_digits (String c r) with Some z => round z 0 | None => NaN end
  | EmptyString => NaN
  end.

Fixpoint strip_prefix (pat s : string) : option string :=
  match pat, s with
  | EmptyString, _ => Some s
  | String a p, String b r => if Ascii.eqb a b then strip_prefix p r else None
  | String _ _, EmptyString => None
  end.

(** [s.replace(pat, '')] with a string pattern: the first occurrence of [pat]
    is removed. *)
Fixpoint remove_first (pat s : string) : string :=
  match strip_prefix pat s with
  | Some r => r
  | None =>
      match s with
      | String c r => String c (remove_first pat r)
      | EmptyString => EmptyString
      end
  end.

Fixpoint join (sep : string) (l : list string) : string :=
  match l with
  | [] => EmptyString
  | [x] => x
  | x :: r => x ++ sep ++ join sep r
  end.

(** ** Conversions *)

(** [ToBoolean]. *)
Definition truthy (v : value) : bool :=
  match v with
  | VUndef | VNull => false
  | VBool b => b
  | VNum NaN => false
  | VNum (Fin z) => negb (z =? 0)
  | VNum _ => true
  | VStr s => negb (String.eqb s EmptyString)
  | VArr _ | VObj _ | VBuiltin _ => true
  end.

(** [a || b]. *)
Definition js_or (a b : value) : value := if truthy a then a else b.

Fixpoint has_key (k : string) (ps : list (string * value)) : bool :=
  match ps with
  | [] => false
  | (k', _) :: r => String.eqb k k' || has_key k r
  end.

(** The own member [k]: the last one listed wins. *)
Fixpoint lookup (k : string) (ps : list (string * value)) : option value :=
  match ps with
  | [] => None
  | (k', v) :: r =>
      match lookup k r with
      | Some w => Some w
      | None => if String.eqb k k' then Some v else None
      end
  end.

(** [ToString].  A plain object answers with [Object.prototype.toString]
    unless an own (JSON, hence not callable) member [toString] hides it, in
    which case no conversion is left and a [TypeError] is thrown; an array
    answers with [join(',')]; an inherited member is a native function
    ([constructor] is the function [Object]), or [Object.prototype] itself
    for [__proto__]. *)
Fixpoint to_string (v : value) : completion string :=
  match v with
  | VUndef => Normal "undefined"
  | VNull => Normal "null"
  | VBool true => Normal "true"
  | VBool false => Normal "false"
  | VNum n => Normal (num_to_string n)
  | VStr s => Normal s
  | VArr l =>
      ss <- (fix elems (l : list value) : completion (list string) :=
               match l with
               | [] => Normal []
               | x :: r =>
                   s <- match x with
                        | VUndef | VNull => Normal EmptyString
                        | _ => to_string x
                        end ;;
                   ss <- elems r ;;
                   Normal (s :: ss)
               end) l ;;
      Normal (join "," ss)
  | VObj ps =>
      if has_key "toString" ps then TypeError else Normal "[object Object]"
  | VBuiltin name =>
      if String.eqb name "__proto__" then Normal "[object Object]"
      else if String.eqb name "constructor"
           then Normal "function Object() { [native code] }"
           else Normal ("function " ++ name ++ "() { [native code] }")
  end.

(** [ToPrimitive]: both hints give the same answer on these values. *)
Definition to_primitive (v : value) : completion value :=
  match v with
  | VArr _ | VObj _ | VBuiltin _ => s <- to_string v ;; Normal (VStr s)
  | _ => Normal v
  end.

(** [ToNumber] on the primitives that reach an addition of two non-strings. *)
Definition to_number (v : value) : number :=
  match v with
  | VNum n => n
  | VNull | VBool false => Fin 0
  | VBool true => Fin 1
  | _ => NaN
  end.

(** [a + b]. *)
Definition js_add (a b : value) : completion value :=
  pa <- to_primitive a ;;
  pb <- to_primitive b ;;
  match pa, pb with
  | VStr _, _ | _, VStr _ =>
      sa <- to_string pa ;; sb <- to_string pb ;; Normal (VStr (sa ++ sb))
  | _, _ => Normal (VNum (num_add (to_number pa) (to_number pb)))
  end.

(** [parseInt(v, 10)]. *)
Definition parseInt (v : value) : completion number :=
  s <- to_string v ;; Normal (parse_int s).

(** ** Objects *)

(** Reading member [k] of [v].  [undefined] and [null] have no members.  A
    plain object answers with its own member, else with the member inherited
    from [Object.prototype], else with [undefined].  On the other values the
    handlers only read the fixed names [order_id], [line_items],
    [line_item_id], [price], [product_id], [products], [product_name],
    [shipping_address], [customer_name] and [customer_email], which no array,
    string, number, boolean or function has or inherits. *)
Definition get (v : value) (k : string) : completion value :=
  match v with
  | VUndef | VNull => TypeError
  | VObj ps =>
      match lookup k ps with
      | Some w => Normal w
      | None =>
          if mem_string k object_prototype_names then Normal (VBuiltin k)
          else Normal VUndef
      end
  | _ => Normal VUndef
  end.

(** An array index is a canonical decimal numeral below [2^32 - 1]; own
    members with such names are enumerated first, in ascending order. *)
Definition array_index (k : string) : option Z :=
  match parse_digits k with
  | Some z =>
      if String.eqb (decimal z) k && (z <=? 4294967294)
      then Some z else None
  | None => None
  end.

Fixpoint replace_member (k : string) (v : value) (ps : list (string * value))
  : list (string * value) :=
  match ps with
  | [] => []
  | (k', w) :: r =>
      if String.eqb k k' then (k, v) :: r else (k', w) :: replace_member k v r
  end.

Fixpoint insert_index (i : Z) (k : string) (v : value) (ps : list (string * value))
  : list (string * value) :=
  match ps with
  | [] => [(k, v)]
  | (k', w) :: r =>
      match array_index k' with
      | Some j => if j <? i then (k', w) :: insert_index i k v r else (k, v) :: ps
      | None => (k, v) :: ps
      end
  end.

(** Defining the own member [k] of an object whose members are [ps], in
    enumeration order: an existing member keeps its place, a new array index
    goes among the indices, any other new name goes last. *)
Definition define (k : string) (v : value) (ps : list (string * value))
  : list (string * value) :=
  if has_key k ps then replace_member k v ps
  else match array_index k with
       | Some i => insert_index i k v ps
       | None => (ps ++ [(k, v)])%list
       end.

(** The assignment [o[k] = v] of a primitive [v] on an object created by
    [{}]: the inherited [__proto__] is an accessor whose setter ignores
    primitives; every other name becomes (or stays) an own member. *)
Definition assign (k : string) (v : value) (ps : list (string * value))
  : list (string * value) :=
  if String.eqb k "__proto__" then ps else define k v ps.

(** The code units of a string, one string each: a code unit takes one byte,
    two after a byte from 192 on, three after a byte from 224 on. *)
Fixpoint chars (s : string) : list value :=
  match s with
  | String a r =>
      if (N_of_ascii a <? 192)%N then VStr (String a EmptyString) :: chars r
      else
        match r with
        | String b r1 =>
            if (N_of_ascii a <? 224)%N
            then VStr (String a (String b EmptyString)) :: chars r1
            else
              match r1 with
              | String c r2 =>
                  VStr (String a (String b (String c EmptyString))) :: chars r2
              | EmptyString => [VStr s]
              end
        | EmptyString => [VStr s]
        end
  | EmptyString => []
  end.

Definition indexed (l : list value) : list (string * value) :=
  combine (map (fun i => decimal (Z.of_nat i)) (seq 0 (List.length l))) l.

(** The own enumerable members that a spread [...v] copies. *)
Definition own_entries (v : value) : list (string * value) :=
  match v with
  | VObj ps => ps
  | VArr l => indexed l
  | VStr s => indexed (chars s)
  | _ => []
  end.

(** [{ ...target, ...v }], [target] being the members copied so far. *)
Definition spread (v : value) (target : list (string * value))
  : list (string * value) :=
  fold_left (fun t kv => define (fst kv) (snd kv) t) (own_entries v) target.

(** ** Handlers *)

Record response : Type := { status : nat; body : value }.

Definition not_found : response :=
  {| status := 404; body := VObj [("message", VStr "Order not found")] |}.

(** [orders.findIndex(o => o.order_id === id)] with a string [id]. *)
Fixpoint find_index (id : string) (orders : list value) : completion (option nat) :=
  match orders with
  | [] => Normal None
  | o :: r =>
      oid <- get o "order_id" ;;
      match oid with
      | VStr s =>
          if String.eqb s id then Normal (Some O)
          else i <- find_index id r ;; Normal (option_map S i)
      | _ => i <- find_index id r ;; Normal (option_map S i)
      end
  end.

(** [orders.find(o => o.order_id === id)] with a string [id]: the first
    element the callback accepts, [undefined] when there is none. *)
Fixpoint find_order (id : string) (orders : list value) : completion value :=
  match orders with
  | [] => Normal VUndef
  | o :: r =>
      oid <- get o "order_id" ;;
      match oid with
      | VStr s => if String.eqb s id then Normal o else find_order id r
      | _ => find_order id r
      end
  end.

(** GET /orders/:orderId *)
Definition get_order (orders : list value) (id : string) : completion response :=
  order <- find_order id orders ;;
  if truthy order then Normal {| status := 200; body := order |}
  else Normal not_found.

(** [maxOrderId] of POST /orders. *)
Definition max_order_id (orders : list value) : completion number :=
  reduce (fun max order =>
            oid <- get order "order_id" ;;
            n <- parseInt oid ;;
            Normal (math_max max n))
         orders (Fin 0).

Definition new_order_id (orders : list value) : completion string :=
  m <- max_order_id orders ;; Normal (num_to_string (num_add m (Fin 1))).

(** [x.reduce(...)], [x.map(...)], [x.forEach(...)]: only arrays have them. *)
Definition as_array (v : value) : completion (list value) :=
  match v with
  | VArr l => Normal l
  | _ => TypeError
  end.

(** [orderTotal] of POST /orders. *)
Definition order_total (new_order_data : value) : completion value :=
  lis <- get new_order_data "line_items" ;;
  l <- as_array lis ;;
  reduce (fun total item =>
            p <- get item "price" ;;
            js_add total (js_or p (VNum (Fin 0))))
         l (VNum (Fin 0)).

(** The number contributed by one stored line item. *)
Definition line_item_number (li : value) : completion number :=
  id <- get li "line_item_id" ;;
  if truthy id then
    match id with
    | VStr s => parseInt (VStr (remove_first "LI-" s))
    | _ => TypeError
    end
  else Normal (Fin 0).

(** [maxLineItemId] of POST /orders, before the new items are numbered. *)
Definition max_line_item_id (orders : list value) : completion number :=
  reduce (fun max order =>
            lis <- get order "line_items" ;;
            l <- as_array (js_or lis (VArr [])) ;;
            order_max <- reduce (fun max_item li =>
                                   num <- line_item_number li ;;
                                   Normal (math_max max_item num))
                                l (Fin 0) ;;
            Normal (math_max max order_max))
         orders (Fin 0).

(** [newLineItems]: the [map] whose callback increments [maxLineItemId]. *)
Fixpoint new_line_items (counter : number) (items : list value)
  : completion (list value) :=
  match items with
  | [] => Normal []
  | item :: r =>
      id <- get item "line_item_id" ;;
      if truthy id then
        rest <- new_line_items counter r ;; Normal (item :: rest)
      else
        let counter' := num_add counter (Fin 1) in
        let item' :=
          VObj (define "line_item_id" (VStr ("LI-" ++ num_to_string counter'))
                       (spread item [])) in
        rest <- new_line_items counter' r ;; Normal (item' :: rest)
  end.

(** POST /orders: the new order, given the loaded orders, the request body
    and the current instant as an ISO-8601 string. *)
Definition new_order (orders : list value) (new_order_data : value) (now : string)
  : completion value :=
  id <- new_order_id orders ;;
  total <- order_total new_order_data ;;
  counter <- max_line_item_id orders ;;
  lis <- get new_order_data "line_items" ;;
  l <- as_array lis ;;
  items <- new_line_items counter l ;;
  shipping_address <- get new_order_data "shipping_address" ;;
  customer_name <- get new_order_data "customer_name" ;;
  customer_email <- get new_order_data "customer_email" ;;
  Normal (VObj [ ("order_id", VStr id);
                 ("order_total", total);
                 ("order_date", VStr now);
                 ("shipping_address", shipping_address);
                 ("customer_name", customer_name);
                 ("customer_email", customer_email);
                 ("line_items", VArr items) ]).

Definition create (orders : list value) (new_order_data : value) (now : string)
  : completion (list value * response) :=
  o <- new_order orders new_order_data now ;;
  Normal ((orders ++ [o])%list, {| status := 201; body := o |}).

Fixpoint set_nth {A : Type} (n : nat) (x : A) (l : list A) : list A :=
  match n, l with
  | O, _ :: r => x :: r
  | S m, y :: r => y :: set_nth m x r
  | _, [] => []
  end.

Fixpoint remove_nth {A : Type} (n : nat) (l : list A) : list A :=
  match n, l with
  | O, _ :: r => r
  | S m, y :: r => y :: remove_nth m r
  | _, [] => []
  end.

(** PUT /orders/:orderId *)
Definition update (orders : list value) (id : string) (payload : value)
  : completion (list value * response) :=
  i <- find_index id orders ;;
  match i with
  | None => Normal (orders, not_found)
  | Some n =>
      let merged := VObj (spread payload (spread (nth n orders VUndef) [])) in
      Normal (set_nth n merged orders, {| status := 200; body := merged |})
  end.

(** DELETE /orders/:orderId *)
Definition delete (orders : list value) (id : string)
  : completion (list value * response) :=
  i <- find_index id orders ;;
  match i with
  | None => Normal (orders, not_found)
  | Some n =>
      Normal (remove_nth n orders, {| status := 200; body := nth n orders VUndef |})
  end.

(** GET /orders *)
Definition list_orders (orders : list value) : response :=
  {| status := 200; body := VArr orders |}.

(** [aggregated[key] = (aggregated[key] || 0) + 1]. *)
Definition count_name (aggregated : list (string * value)) (key : string)
  : completion (list (string * value)) :=
  current <- get (VObj aggregated) key ;;
  quantity <- js_add (js_or current (VNum (Fin 0))) (VNum (Fin 1)) ;;
  Normal (assign key quantity aggregated).

(** The body of the innermost [forEach] of GET /picking:
    [aggregated[product.product_name] = (aggregated[product.product_name] || 0) + 1]. *)
Definition count_product (aggregated : list (string * value)) (product : value)
  : completion (list (string * value)) :=
  name <- get product "product_name" ;;
  key <- to_string name ;;
  count_name aggregated key.

Definition pick_line_item (product_mapping : list (string * value))
  (aggregated : list (string * value)) (line_item : value)
  : completion (list (string * value)) :=
  pid <- get line_item "product_id" ;;
  key <- to_string pid ;;
  mapping <- get (VObj product_mapping) key ;;
  if truthy mapping then
    products <- get mapping "products" ;;
    if truthy products then
      l <- as_array products ;;
      reduce count_product l aggregated
    else Normal aggregated
  else Normal aggregated.

Definition pick_order (product_mapping : list (string * value))
  (aggregated : list (string * value)) (order : value)
  : completion (list (string * value)) :=
  lis <- get order "line_items" ;;
  l <- as_array (js_or lis (VArr [])) ;;
  reduce (pick_line_item product_mapping) l aggregated.

Definition picking_entry (kv : string * value) : value :=
  VObj [("product_name", VStr (fst kv)); ("quantity", snd kv)].

(** GET /picking *)
Definition picking (product_mapping : list (string * value)) (orders : list value)
  : completion response :=
  aggregated <- reduce (pick_order product_mapping) orders [] ;;
  Normal {| status := 200; body := VArr (map picking_entry aggregated) |}.

Definition detail_line_item (product_mapping : list (string * value))
  (line_item : value) : completion value :=
  pid <- get line_item "product_id" ;;
  key <- to_string pid ;;
  mapping <- get (VObj product_mapping) key ;;
  products <- (if truthy mapping then get mapping "products"
               else Normal (VArr [])) ;;
  Normal (VObj (define "products" products (spread line_item []))).

Definition detail_order (product_mapping : list (string * value)) (order : value)
  : completion value :=
  lis <- get order "line_items" ;;
  l <- as_array (js_or lis (VArr [])) ;;
  items <- map_c (detail_line_item product_mapping) l ;;
  Normal (VObj (define "line_items" (VArr items) (spread order []))).

(** GET /packing *)
Definition packing (product_mapping : list (string * value)) (orders : list value)
  : completion response :=
  detailed <- map_c (detail_order product_mapping) orders ;;
  Normal {| status := 200; body := VArr detailed |}.

(** One mutating request against the stored collection, and the collection
    that is stored afterwards: the one handed to [saveOrders], or the old one
    when the handler throws before reaching it. *)
Inductive request : Type :=
| Create (new_order_data : value) (now : string)
| Update (id : string) (payload : value)
| Delete (id : string).

Definition handle (orders : list value) (r : request)
  : completion (list value * response) :=
  match r with
  | Create d now => create orders d now
  | Update id p => update orders id p
  | Delete id => delete orders id
  end.

(** [JSON.parse(JSON.stringify(v))]: the value that comes back from the JSON
    text of [v], and [None] where [JSON.stringify] gives no text ([undefined]
    and functions), in which case a member is left out of its object and an
    element is replaced by [null].  [NaN] and the infinities are written as
    [null].  [JSON.parse] defines the members in the order of the text. *)
Fixpoint json (v : value) : option value :=
  match v with
  | VUndef => None
  | VNull | VBool _ | VStr _ => Some v
  | VNum NaN | VNum (Inf _) => Some VNull
  | VNum _ => Some v
  | VArr l =>
      Some (VArr ((fix elems (l : list value) : list value :=
                     match l with
                     | [] => []
                     | x :: r =>
                         match json x with Some w => w | None => VNull end
                         :: elems r
                     end) l))
  | VObj ps =>
      Some (VObj ((fix members (ps acc : list (string * value))
                     : list (string * value) :=
                     match ps with
                     | [] => acc
                     | (k, x) :: r =>
                         members r match json x with
                                   | Some w => define k w acc
                                   | None => acc
                                   end
                     end) ps []))
  | VBuiltin name =>
      if String.eqb name "__proto__" then Some (VObj []) else None
  end.

(** The members that [JSON.parse] defines from the text of the members [ps],
    after the members [acc]. *)
Definition json_members (ps acc : list (string * value)) : list (string * value) :=
  fold_left (fun acc kx => match json (snd kx) with
                           | Some w => define (fst kx) w acc
                           | None => acc
                           end) ps acc.

(** An element of an array after the round trip. *)
Definition json_element (v : value) : value :=
  match json v with
  | Some w => w
  | None => VNull
  end.

(** What [loadOrders()] returns after [saveOrders(orders)]. *)
Definition reloaded (orders : list value) : list value :=
  map json_element orders.

(** The collection that the next request loads: the one handed to
    [saveOrders], reloaded; the old one when the handler answers 404 or
    throws, which it does before it reaches [saveOrders]. *)
Definition next_store (orders : list value) (r : request) : list value :=
  match handle orders r with
  | Normal (orders', resp) =>
      if (status resp =? 404)%nat then orders else reloaded orders'
  | TypeError => orders
  end.

(** ** Vocabulary of the properties *)

(** Largest integer up to which every integer is a double
    ([Number.MAX_SAFE_INTEGER]). *)
Definition max_safe_integer : Z := 9007199254740991.

Definition nullish (v : value) : bool :=
  match v with
  | VUndef | VNull => true
  | _ => false
  end.

(** The [order_id] stored in an order ([undefined] when there is none). *)
Definition stored_id (o : value) : value :=
  match get o "order_id" with
  | Normal v => v
  | TypeError => VUndef
  end.

(** The number that [parseInt] reads in the [order_id] of an order. *)
Definition id_number (o : value) : option Z :=
  match oid <- get o "order_id" ;; parseInt oid with
  | Normal (Fin n) => Some n
  | _ => None
  end.

(** The maximum of a list of integers, [0] for the empty list. *)
Definition maximum (ns : list Z) : Z :=
  match ns with
  | [] => 0
  | n :: r => fold_left Z.max r n
  end.

(** An order whose [order_id] is a string in which [parseInt] reads a number. *)
Definition numeric_id (o : value) : Prop :=
  exists s n, get o "order_id" = Normal (VStr s) /\ parse_int s = Fin n.

(** The numbers read in the stored ids are safe integers. *)
Definition safe_ids (orders : list value) : Prop :=
  Forall (fun o => forall n, id_number o = Some n -> n <= max_safe_integer) orders.

Definition unique_ids (orders : list value) : Prop :=
  NoDup (map stored_id orders).


(** The order [id] designates: an order whose [order_id] is the string [id]. *)
Definition has_id (id : string) (o : value) : Prop :=
  get o "order_id" = Normal (VStr id).

(** The line items stored in a collection, order by order. *)
Definition stored_items (o : value) : list value :=
  match get o "line_items" with
  | Normal (VArr l) => l
  | _ => []
  end.

Definition stored_line_items (orders : list value) : list value :=
  flat_map stored_items orders.

Fixpoint all_digits (s : string) : bool :=
  match s with
  | String c r => match digit c with Some _ => all_digits r | None => false end
  | EmptyString => true
  end.

(** The number in an id of the form [LI-<digits>] (at least one digit, and
    nothing else). *)
Definition pattern_number (s : string) : option Z :=
  match strip_prefix "LI-" s with
  | Some r => if all_digits r then parse_digits r else None
  | None => None
  end.

(** What the specification lets a stored line item contribute to the global
    maximum: the number of a conforming id, and 0 otherwise. *)
Definition spec_item_number (li : value) : Z :=
  match get li "line_item_id" with
  | Normal (VStr s) =>
      match pattern_number s with Some n => n | None => 0 end
  | _ => 0
  end.

Definition global_max_line_item_number (orders : list value) : Z :=
  maximum (map spec_item_number (stored_line_items orders)).

(** A stored line item whose [line_item_id] is absent (falsy) or of the form
    [LI-<digits>] with a safe integer. *)
Definition conforming_item (li : value) : bool :=
  match get li "line_item_id" with
  | Normal (VStr s) =>
      String.eqb s EmptyString
      || match pattern_number s with
         | Some n => n <=? max_safe_integer
         | None => false
         end
  | Normal v => negb (truthy v)
  | TypeError => false
  end.

(** A stored order whose [line_items] is absent (falsy) or an array of
    conforming line items. *)
Definition conforming_order (o : value) : bool :=
  match get o "line_items" with
  | Normal (VArr l) => forallb conforming_item l
  | Normal v => negb (truthy v)
  | TypeError => false
  end.

(** A payload line item that carries a [line_item_id], as the handler tests
    it: the member is present and truthy. *)
Definition carries_id (item : value) : bool :=
  match get item "line_item_id" with
  | Normal v => truthy v
  | TypeError => false
  end.

(** How many of the items carry no [line_item_id]. *)
Definition count_unlabelled (items : list value) : Z :=
  Z.of_nat (List.length (filter (fun item => negb (carries_id item)) items)).

(** The price of a payload line item: its numeric [price], and 0 when the
    member is missing or not a (finite) number. *)
Definition price_of (item : value) : Z :=
  match get item "price" with
  | Normal (VNum (Fin z)) => z
  | _ => 0
  end.

(** A payload line item whose [price] is a number, or missing (falsy). *)
Definition priced (item : value) : bool :=
  match get item "price" with
  | Normal (VNum _) => true
  | Normal v => negb (truthy v)
  | TypeError => false
  end.

Definition sum (l : list Z) : Z := fold_right Z.add 0 l.

(** What a payload line item adds to the total: its numeric [price], and 0
    when the member is missing or falsy. *)
Definition price_number (item : value) : number :=
  match get item "price" with
  | Normal (VNum n) => if truthy (VNum n) then n else Fin 0
  | _ => Fin 0
  end.

(** The text that a payload line item adds to a total that is text: its
    price ([0] when missing or falsy) as a string. *)
Definition price_text (item : value) : string :=
  match p <- get item "price" ;;
        q <- to_primitive (js_or p (VNum (Fin 0))) ;;
        to_string q
  with
  | Normal t => t
  | TypeError => EmptyString
  end.

Definition price_texts (items : list value) : string :=
  fold_right (fun item rest => price_text item ++ rest) EmptyString items.

(** Numbers added in sequence, from 0, each sum rounded to a double. *)
Definition added_in_sequence (ns : list number) : number :=
  fold_left num_add ns (Fin 0).

(** The exact value of a finite number. *)
Definition value_of (x : number) : option QArith_base.Q :=
  match x with
  | Fin z => Some (QArith_base.Qmake z 1)
  | Frac n k => Some (QArith_base.Qmake n (2 ^ k))
  | _ => None
  end.

(** A value that [+] and [parseInt] can convert to a primitive: anything but
    a plain object hiding [toString], or an array holding such a value. *)
Fixpoint convertible (v : value) : bool :=
  match v with
  | VArr l =>
      (fix all (l : list value) : bool :=
         match l with
         | [] => true
         | x :: r => convertible x && all r
         end) l
  | VObj ps => negb (has_key "toString" ps)
  | _ => true
  end.

(** A payload line item whose price can be added to a total. *)
Definition summable_item (item : value) : bool :=
  match get item "price" with
  | Normal p => convertible p
  | TypeError => false
  end.

(** A payload with a [line_items] member that supports iteration (an array)
    and summation (of items whose price can be added). *)
Definition has_summable_line_items (d : value) : bool :=
  match get d "line_items" with
  | Normal (VArr l) => forallb summable_item l
  | _ => false
  end.

(** A stored order whose [order_id] the create handler can read (convert to
    a string for [parseInt]). *)
Definition id_readable (o : value) : bool :=
  match get o "order_id" with
  | Normal v => convertible v
  | TypeError => false
  end.

(** A stored line item whose [line_item_id] the create handler can read: a
    string, or absent (falsy); and a stored order whose [line_items] is absent
    (falsy) or an array of such items. *)
Definition numbered_item (li : value) : bool :=
  match get li "line_item_id" with
  | Normal (VStr _) => true
  | Normal v => negb (truthy v)
  | TypeError => false
  end.

Definition numbered_order (o : value) : bool :=
  match get o "line_items" with
  | Normal (VArr l) => forallb numbered_item l
  | Normal v => negb (truthy v)
  | TypeError => false
  end.


Section ValueInduction.

Variable P : value -> Prop.
Hypothesis HUndef : P VUndef.
Hypothesis HNull : P VNull.
Hypothesis HBool : forall b, P (VBool b).
Hypothesis HNum : forall n, P (VNum n).
Hypothesis HStr : forall s, P (VStr s).
Hypothesis HArr : forall l, Forall P l -> P (VArr l).
Hypothesis HObj : forall ps, P (VObj ps).
Hypothesis HBuiltin : forall name, P (VBuiltin name).

(** Induction on values through the elements of arrays. *)
Fixpoint value_array_ind (v : value) : P v :=
  match v with
  | VUndef => HUndef
  | VNull => HNull
  | VBool b => HBool b
  | VNum n => HNum n
  | VStr s => HStr s
  | VArr l =>
      HArr l ((fix elems (l : list value) : Forall P l :=
                 match l with
                 | [] => Forall_nil P
                 | x :: r => Forall_cons x (value_array_ind x) (elems r)
                 end) l)
  | VObj ps => HObj ps
  | VBuiltin name => HBuiltin name
  end.

End ValueInduction.

Definition is_primitive (v : value) : bool :=
  match v with
  | VArr _ | VObj _ | VBuiltin _ => false
  | _ => true
  end.

(** The key under which the product mapping is asked for a line item. *)
Definition product_key (li : value) : option string :=
  match pid <- get li "product_id" ;; to_string pid with
  | Normal key => Some key
  | TypeError => None
  end.

(** The entry of the product mapping for a line item, if there is one. *)
Definition mapping_entry (product_mapping : list (string * value)) (li : value)
  : option value :=
  match product_key li with
  | Some key => lookup key product_mapping
  | None => None
  end.

(** The decomposition of a line item: the products of its mapping entry, in
    order, and nothing when its [product_id] has no entry. *)
Definition decomposition (product_mapping : list (string * value)) (li : value)
  : list value :=
  match mapping_entry product_mapping li with
  | Some m =>
      match get m "products" with
      | Normal (VArr l) => l
      | _ => []
      end
  | None => []
  end.







(** A physical product whose [product_name] can be used as a member name. *)
Definition product_ok (p : value) : bool :=
  match get p "product_name" with
  | Normal v => convertible v
  | TypeError => false
  end.

(** A product mapping whose entries are objects with an array [products] of
    such products. *)
Definition pickable_entry (m : value) : bool :=
  match m with
  | VObj ps =>
      match lookup "products" ps with
      | Some (VArr l) => forallb product_ok l
      | _ => false
      end
  | _ => false
  end.

Definition pickable_mapping (product_mapping : list (string * value)) : bool :=
  forallb (fun kv => pickable_entry (snd kv)) product_mapping.

(** A stored line item whose [product_id] can be used as a member name, and a
    stored order whose [line_items] is absent (falsy) or an array of these. *)
Definition pickable_item (li : value) : bool :=
  match product_key li with
  | Some _ => true
  | None => false
  end.

Definition pickable_order (o : value) : bool :=
  match get o "line_items" with
  | Normal (VArr l) => forallb pickable_item l
  | Normal v => negb (truthy v)
  | TypeError => false
  end.

(** The name of a physical product, as a member name. *)
Definition product_name_of (p : value) : string :=
  match name <- get p "product_name" ;; to_string name with
  | Normal s => s
  | TypeError => EmptyString
  end.

(** Every occurrence of a physical product in the decomposition of a line
    item, across every order and every line item, in sequence. *)
Definition picked_names (product_mapping : list (string * value))
  (orders : list value) : list string :=
  flat_map (fun li => map product_name_of (decomposition product_mapping li))
           (stored_line_items orders).

(** The distinct names of a list, by first occurrence. *)
Fixpoint first_occurrences (l : list string) : list string :=
  match l with
  | [] => []
  | x :: r => x :: filter (fun y => negb (String.eqb y x)) (first_occurrences r)
  end.

Definition occurrences (k : string) (l : list string) : Z :=
  Z.of_nat (count_occ string_dec l k).

(** The tally of a list of names: each distinct name, by first occurrence,
    with the number of its occurrences. *)
Definition tally (names : list string) : list (string * value) :=
  map (fun k => (k, VNum (Fin (occurrences k names)))) (first_occurrences names).


(** A product name that is neither an array index nor the name of a member
    inherited from [Object.prototype]. *)
Definition plain_name (k : string) : bool :=
  match array_index k with
  | Some _ => false
  | None => negb (mem_string k object_prototype_names)
  end.


(** ** Vocabulary of the further properties *)

(** An element that a lookup by identifier can inspect and that [id] does not
    designate. *)
Definition passed_over (id : string) (o : value) : Prop :=
  nullish o = false /\ ~ has_id id o.

(** The orders before position [n] are passed over by a lookup of [id], and
    the order at position [n] is the one it finds. *)
Definition first_match (id : string) (orders : list value) (n : nat) (o : value)
  : Prop :=
  nth_error orders n = Some o
  /\ has_id id o
  /\ Forall (passed_over id) (firstn n orders).

(** A lookup of [id] meets a [null] (or [undefined]) element before any order
    that [id] designates. *)
Definition null_before_match (id : string) (orders : list value) : Prop :=
  exists n o,
    nth_error orders n = Some o
    /\ nullish o = true
    /\ Forall (fun o' => ~ has_id id o') (firstn n orders).

(** Member names in JavaScript's enumeration order: the array indices first,
    ascending from above [lo], then the other names. *)
Fixpoint ordered_keys (lo : Z) (ks : list string) : Prop :=
  match ks with
  | [] => True
  | k :: r =>
      match array_index k with
      | Some i => lo < i /\ ordered_keys i r
      | None => Forall (fun k' => array_index k' = None) r
      end
  end.

(** The members of an object as an object holds them: distinct names, in
    enumeration order. *)
Definition canonical (ps : list (string * value)) : Prop :=
  NoDup (map fst ps) /\ ordered_keys (-1) (map fst ps).

(** A stored order in whose [order_id] [parseInt] finds no number. *)
Definition id_reads_NaN (o : value) : Prop :=
  (oid <- get o "order_id" ;; parseInt oid) = Normal NaN.

(** A stored line item in whose id, once the first "LI-" is removed,
    [parseInt] finds no number. *)
Definition reads_NaN (li : value) : Prop :=
  exists s,
    get li "line_item_id" = Normal (VStr s)
    /\ s <> EmptyString
    /\ parse_int (remove_first "LI-" s) = NaN.

(** The sum of the quantities listed in an aggregate. *)
Definition listed_total (aggregated : list (string * value)) : Z :=
  sum (map (fun kv => match snd kv with
                      | VNum (Fin z) => z
                      | _ => 0
                      end) aggregated).

(** A mapping entry that GET /picking can use: falsy, or with a [products]
    member that is falsy or an array of named products. *)
Definition entry_pickable (m : value) : bool :=
  negb (truthy m)
  || match get m "products" with
     | Normal ps =>
         negb (truthy ps)
         || match ps with
            | VArr l => forallb product_ok l
            | _ => false
            end
     | TypeError => false
     end.

(** A stored line item that GET /picking can process with a mapping, and a
    stored order whose [line_items] is absent (falsy) or an array of these. *)
Definition line_pickable (product_mapping : list (string * value)) (li : value)
  : bool :=
  match product_key li with
  | Some key =>
      match get (VObj product_mapping) key with
      | Normal m => entry_pickable m
      | TypeError => false
      end
  | None => false
  end.

Definition order_pickable (product_mapping : list (string * value)) (o : value)
  : bool :=
  match get o "line_items" with
  | Normal (VArr l) => forallb (line_pickable product_mapping) l
  | Normal v => negb (truthy v)
  | TypeError => false
  end.

(** An aggregate whose quantities are all primitive values. *)
Definition primitive_values (aggregated : list (string * value)) : Prop :=
  Forall (fun kv => is_primitive (snd kv) = true) aggregated.

(** ** Sample data *)

(** The order that POST /orders builds ([undefined] when it throws). *)
Definition created (orders : list value) (d : value) (now : string) : value :=
  match new_order orders d now with
  | Normal o => o
  | TypeError => VUndef
  end.

Definition sample_order (id : string) (items : list value) : value :=
  VObj [ ("order_id", VStr id); ("order_total", VNum (Fin 0));
         ("order_date", VStr "2024-01-01T00:00:00.000Z");
         ("shipping_address", VStr "1 Main St");
         ("customer_name", VStr "Ann"); ("customer_email", VStr "ann@example.com");
         ("line_items", VArr items) ].

Definition empty_payload : value := VObj [("line_items", VArr [])].

Definition two_orders : list value :=
  next_store (next_store [] (Create empty_payload "t1")) (Create empty_payload "t2").

Definition nonconforming_payload : value :=
  VObj [("line_items", VArr [VObj [("line_item_id", VStr "abc")]])].

Definition unlabelled_payload : value :=
  VObj [("line_items", VArr [VObj [("product_id", VStr "kit")]])].

Definition mixed_items : list value :=
  [ VObj [("product_id", VStr "a")];
    VObj [("line_item_id", VStr "mine"); ("product_id", VStr "b")];
    VObj [("product_id", VStr "c")] ].

Definition priced_payload : value :=
  VObj [ ("customer_name", VStr "Ann");
         ("line_items",
          VArr [ VObj [("product_id", VStr "a"); ("price", VNum (Fin 30))];
                 VObj [("product_id", VStr "b")];
                 VObj [("product_id", VStr "c"); ("price", VNum (Fin 12))] ]) ].

(** The prices 0.1 and 0.2, as [JSON.parse] reads them. *)
Definition fractional_payload : value :=
  VObj [("line_items",
         VArr [ VObj [("price", VNum (Frac 3602879701896397 55))];
                VObj [("price", VNum (Frac 3602879701896397 54))] ])].

Definition numeric_label_payload : value :=
  VObj [("line_items", VArr [VObj [("line_item_id", VNum (Fin 7))]])].

(** The order that POST /orders builds from [empty_payload] after
    [two_orders]. *)
Definition third_order : value :=
  VObj [ ("order_id", VStr "3"); ("order_total", VNum (Fin 0));
         ("order_date", VStr "t3"); ("shipping_address", VUndef);
         ("customer_name", VUndef); ("customer_email", VUndef);
         ("line_items", VArr []) ].


Definition sample_mapping : list (string * value) :=
  [ ("Box", VObj [("products", VArr [VObj [("product_name", VStr "Widget")]])]);
    ("Kit", VObj [("products", VArr [VObj [("product_name", VStr "Widget")];
                                     VObj [("product_name", VStr "Gadget")]])]) ].

Definition sample_store : list value :=
  [ sample_order "1" [VObj [("line_item_id", VStr "LI-1"); ("product_id", VStr "Box")]];
    sample_order "2" [VObj [("line_item_id", VStr "LI-2"); ("product_id", VStr "Kit")];
                      VObj [("line_item_id", VStr "LI-3"); ("product_id", VStr "Unknown")]] ].





Definition relabelled_payload : value :=
  VObj [("line_items",
         VArr [ VObj [("product_id", VStr "Box")];
                VObj [("line_item_id", VStr "LI-40"); ("product_id", VStr "Kit")] ])].

(** * Proofs *)

(** ** Completions *)

Lemma bind_normal {A B : Type} (c : completion A) (k : A -> completion B) (b : B) :
  bind c k = Normal b -> exists a, c = Normal a /\ k a = Normal b.
Proof.
  destruct c as [a|]; simpl; intros H; [exists a; auto | discriminate].
Qed.

Lemma reduce_app {A B : Type} (f : A -> B -> completion A) (l1 l2 : list B) (a : A) :
  reduce f (l1 ++ l2) a = bind (reduce f l1 a) (reduce f l2).
Proof.
  revert a; induction l1 as [|x l1 IH]; intros a; simpl; [reflexivity|].
  destruct (f a x); simpl; auto.
Qed.

Ltac inv_bind H :=
  let a := fresh "a" in
  let Ha := fresh "Ha" in
  apply bind_normal in H; destruct H as [a [Ha H]].

(** ** Doubles with an integer value *)

Arguments round : simpl never.
Arguments positive_to_string : simpl never.
Arguments num_to_string : simpl never.

Lemma dyadic_scaled (z j : Z) : 0 <= j -> dyadic (z * 2 ^ j) (- j) = Fin z.
Proof.
  intros Hj. unfold dyadic.
  destruct (0 <=? - j) eqn:E.
  - apply Z.leb_le in E. assert (j = 0) by lia. subst j.
    simpl. rewrite !Z.mul_1_r. reflexivity.
  - rewrite Z.opp_involutive.
    assert (Hp : 0 < 2 ^ j) by (apply Z.pow_pos_nonneg; lia).
    assert (Hg : Z.gcd (z * 2 ^ j) (2 ^ j) = 2 ^ j).
    { rewrite Z.gcd_comm, Z.mul_comm. apply Z.gcd_mul_diag_l. lia. }
    rewrite Hg, Z.eqb_refl, Z.div_mul by lia. reflexivity.
Qed.

(** An integer up to [2^53] is a double: rounding leaves it as it is. *)
Lemma round_safe (z : Z) : Z.abs z <= 2 ^ 53 -> round z 0 = Fin z.
Proof.
  intros Hz. unfold round.
  destruct (z =? 0) eqn:E0; [apply Z.eqb_eq in E0; subst; reflexivity|].
  apply Z.eqb_neq in E0.
  assert (Ha : 0 < Z.abs z) by lia.
  pose proof (Z.log2_nonneg (Z.abs z)) as Hl0.
  assert (Hl : Z.log2 (Z.abs z) <= 53).
  { change 53 with (Z.log2 (2 ^ 53)). apply Z.log2_le_mono. exact Hz. }
  destruct (Z.eq_dec (Z.log2 (Z.abs z)) 53) as [E|E].
  - assert (H : Z.abs z = 2 ^ 53).
    { pose proof (Z.log2_spec _ Ha) as [H1 _]. rewrite E in H1. lia. }
    destruct z as [|p|p]; simpl in H; try discriminate;
      injection H as ->; reflexivity.
  - rewrite Z.add_0_r, Z.max_l by lia.
    set (l := Z.log2 (Z.abs z)) in *.
    assert (El : (l - 52 <=? 0) = true) by (apply Z.leb_le; lia).
    rewrite El.
    assert (Eo : (971 <? l - 52)
                 || ((l - 52 =? 971)
                     && (2 ^ 53 <=? Z.abs z * 2 ^ (0 - (l - 52)))) = false).
    { apply orb_false_iff. split; [apply Z.ltb_ge; lia|].
      apply andb_false_iff. left. apply Z.eqb_neq. lia. }
    rewrite Eo.
    replace (l - 52) with (- (52 - l)) by lia.
    replace (0 - - (52 - l)) with (52 - l) by lia.
    rewrite Z.mul_assoc, (Z.mul_comm (Z.sgn z)), Z.abs_sgn.
    apply dyadic_scaled. lia.
Qed.

(** Addition is exact as long as the sum is an integer up to [2^53]. *)
Lemma num_add_safe (x y : Z) :
  Z.abs (x + y) <= 2 ^ 53 -> num_add (Fin x) (Fin y) = Fin (x + y).
Proof. intros H. simpl. apply round_safe, H. Qed.

Lemma num_to_string_safe (z : Z) :
  Z.abs z <= 2 ^ 53 -> num_to_string (Fin z) = decimal z.
Proof.
  intros H. unfold num_to_string. apply Z.leb_le in H. rewrite H. reflexivity.
Qed.

(** ** Decimal numerals *)

Lemma digit_not_space (c : ascii) (r : string) d :
  digit c = Some d -> skip_spaces (String c r) = String c r.
Proof.
  destruct c as [[|] [|] [|] [|] [|] [|] [|] [|]]; simpl; intros H;
    try discriminate; reflexivity.
Qed.

Lemma digit_not_sign c d :
  digit c = Some d -> Ascii.eqb c "-" = false /\ Ascii.eqb c "+" = false.
Proof.
  destruct c as [[|] [|] [|] [|] [|] [|] [|] [|]]; simpl; intros H;
    try discriminate; split; reflexivity.
Qed.

Lemma digits_prefix_print (d : uint) :
  digits_prefix (NilEmpty.string_of_uint d) = d.
Proof.
  induction d; simpl; rewrite ?IHd; reflexivity.
Qed.

Lemma print_head_digit (d : uint) :
  d <> Nil ->
  exists c r f, NilEmpty.string_of_uint d = String c r /\ digit c = Some f.
Proof.
  destruct d; intros H; try congruence; simpl;
    do 3 eexists; split; reflexivity.
Qed.

Lemma parse_int_digits (d : uint) :
  d <> Nil -> parse_int (NilEmpty.string_of_uint d) = round (Z.of_uint d) 0.
Proof.
  intros Hd.
  destruct (print_head_digit d Hd) as (c & r & f & E & Hc).
  unfold parse_int. rewrite E.
  rewrite (digit_not_space _ _ _ Hc).
  destruct (digit_not_sign _ _ Hc) as [-> ->].
  unfold parse_digits. rewrite <- E, digits_prefix_print.
  destruct d; congruence.
Qed.

Lemma decimal_pos (p : positive) :
  decimal (Zpos p) = NilEmpty.string_of_uint (Pos.to_uint p).
Proof.
  unfold decimal. simpl. unfold NilZero.string_of_uint.
  pose proof (DecimalPos.Unsigned.to_uint_nonnil p).
  destruct (Pos.to_uint p); congruence.
Qed.

Lemma of_uint_to_uint (p : positive) : Z.of_uint (Pos.to_uint p) = Zpos p.
Proof.
  unfold Z.of_uint. rewrite DecimalPos.Unsigned.of_to. reflexivity.
Qed.

(** [parseInt] reads back a decimal numeral as the nearest double. *)
Lemma parse_int_decimal (z : Z) : parse_int (decimal z) = round z 0.
Proof.
  destruct z as [|p|p].
  - reflexivity.
  - rewrite decimal_pos, parse_int_digits, of_uint_to_uint; auto.
    apply DecimalPos.Unsigned.to_uint_nonnil.
  - pose proof (DecimalPos.Unsigned.to_uint_nonnil p) as Hn.
    assert (E : decimal (Zneg p)
                = String "-" (NilEmpty.string_of_uint (Pos.to_uint p))).
    { unfold decimal. simpl. unfold NilZero.string_of_uint.
      destruct (Pos.to_uint p); congruence. }
    rewrite E. unfold parse_int. simpl.
    unfold parse_digits. rewrite digits_prefix_print.
    pose proof (of_uint_to_uint p) as Hz.
    destruct (Pos.to_uint p); try congruence; rewrite Hz; reflexivity.
Qed.

(** [parseInt] reads back the numeral that [toString] prints. *)
Lemma parse_int_num_to_string (z : Z) :
  Z.abs z <= 2 ^ 53 -> parse_int (num_to_string (Fin z)) = Fin z.
Proof.
  intros H. rewrite num_to_string_safe, parse_int_decimal by exact H.
  apply round_safe, H.
Qed.

(** ** Order identifiers *)

Lemma id_number_parse (o : value) (n : Z) :
  id_number o = Some n ->
  (oid <- get o "order_id" ;; parseInt oid) = Normal (Fin n).
Proof.
  unfold id_number.
  destruct (oid <- get o "order_id" ;; parseInt oid) as [[| |z|]|];
    intros H; inversion H; reflexivity.
Qed.

Lemma max_order_id_fold (orders : list value) (ns : list Z) (m : Z) :
  map id_number orders = map Some ns ->
  reduce (fun max order =>
            oid <- get order "order_id" ;;
            n <- parseInt oid ;;
            Normal (math_max max n))
         orders (Fin m)
  = Normal (Fin (fold_left Z.max ns m)).
Proof.
  revert ns m; induction orders as [|o orders IH]; intros [|n ns] m H;
    simpl in H; try discriminate; [reflexivity|].
  injection H as Ho Hr.
  apply id_number_parse in Ho.
  simpl. apply bind_normal in Ho. destruct Ho as (oid & -> & Hp).
  simpl. rewrite Hp. simpl. apply IH, Hr.
Qed.

Lemma fold_max_le (ns : list Z) (m : Z) :
  m <= fold_left Z.max ns m /\ Forall (fun n => n <= fold_left Z.max ns m) ns.
Proof.
  revert m; induction ns as [|n ns IH]; intros m; simpl.
  - split; [lia | constructor].
  - destruct (IH (Z.max m n)) as [H1 H2]. split; [lia|].
    constructor; [lia | exact H2].
Qed.

Lemma fold_max_maximum (ns : list Z) :
  Forall (fun n => 0 <= n) ns -> fold_left Z.max ns 0 = maximum ns.
Proof.
  destruct ns as [|n ns]; [reflexivity|].
  intros H. inversion H; subst. simpl. f_equal. lia.
Qed.

Lemma fold_max_bound (ns : list Z) (m b : Z) :
  m <= b -> Forall (fun n => n <= b) ns -> fold_left Z.max ns m <= b.
Proof.
  intros Hm H. revert m Hm; induction H as [|n ns Hn _ IH]; intros m Hm; simpl;
    [exact Hm | apply IH; lia].
Qed.


(** The successor of a maximum within the safe integers is computed and
    printed exactly. *)
Lemma successor_safe (ns : list Z) :
  Forall (fun n => n <= max_safe_integer) ns ->
  num_add (Fin (fold_left Z.max ns 0)) (Fin 1) = Fin (fold_left Z.max ns 0 + 1)
  /\ num_to_string (Fin (fold_left Z.max ns 0 + 1))
     = decimal (fold_left Z.max ns 0 + 1).
Proof.
  intros H.
  pose proof (fold_max_bound ns 0 max_safe_integer ltac:(unfold max_safe_integer; lia) H) as Hb.
  destruct (fold_max_le ns 0) as [H0 _].
  unfold max_safe_integer in Hb.
  split; [apply num_add_safe | apply num_to_string_safe]; lia.
Qed.

Lemma new_order_id_fold (orders : list value) (ns : list Z) :
  map id_number orders = map Some ns ->
  Forall (fun n => n <= max_safe_integer) ns ->
  new_order_id orders = Normal (num_to_string (Fin (fold_left Z.max ns 0 + 1))).
Proof.
  intros H Hs. unfold new_order_id, max_order_id.
  rewrite (max_order_id_fold orders ns 0 H). cbn [bind].
  destruct (successor_safe ns Hs) as [-> _]. reflexivity.
Qed.

Lemma create_normal (orders : list value) (d : value) (now : string)
  (orders' : list value) (resp : response) :
  create orders d now = Normal (orders', resp) ->
  exists id total items sa cn ce,
    new_order_id orders = Normal id /\
    order_total d = Normal total /\
    (exists counter l,
        max_line_item_id orders = Normal counter /\
        get d "line_items" = Normal (VArr l) /\
        new_line_items counter l = Normal items) /\
    get d "shipping_address" = Normal sa /\
    get d "customer_name" = Normal cn /\
    get d "customer_email" = Normal ce /\
    body resp = VObj [ ("order_id", VStr id); ("order_total", total);
                       ("order_date", VStr now); ("shipping_address", sa);
                       ("customer_name", cn); ("customer_email", ce);
                       ("line_items", VArr items) ] /\
    status resp = 201%nat /\
    orders' = (orders ++ [body resp])%list.
Proof.
  unfold create, new_order. intros H.
  inv_bind H. injection H as <- <-.
  inv_bind Ha. rename a0 into id.
  inv_bind Ha. rename a0 into total.
  inv_bind Ha. rename a0 into counter.
  inv_bind Ha. rename a0 into lis.
  inv_bind Ha. rename a0 into l.
  inv_bind Ha. rename a0 into items.
  inv_bind Ha. rename a0 into sa.
  inv_bind Ha. rename a0 into cn.
  inv_bind Ha. rename a0 into ce.
  injection Ha as <-.
  destruct lis; simpl in *; try discriminate.
  match goal with H : Normal _ = Normal l |- _ => injection H as -> end.
  exists id, total, items, sa, cn, ce. simpl.
  repeat split; auto.
  exists counter, l. auto.
Qed.

(** ** Objects: own members, definition and spread *)

Lemma has_key_in (k : string) (ps : list (string * value)) :
  has_key k ps = true <-> In k (map fst ps).
Proof.
  induction ps as [|[k' v] ps IH]; simpl.
  - split; [discriminate | tauto].
  - rewrite orb_true_iff, IH, String.eqb_eq. intuition congruence.
Qed.

Lemma has_key_false_in (k : string) (ps : list (string * value)) :
  has_key k ps = false <-> ~ In k (map fst ps).
Proof.
  rewrite <- has_key_in. destruct (has_key k ps); intuition congruence.
Qed.

Lemma lookup_none (k : string) (ps : list (string * value)) :
  lookup k ps = None <-> has_key k ps = false.
Proof.
  induction ps as [|[k' v] ps IH]; simpl; [tauto|].
  destruct (lookup k ps) as [w|].
  - split; [discriminate|]. intros H. apply orb_false_iff in H.
    destruct H as [_ H]. apply IH in H. discriminate.
  - destruct IH as [IH _]. rewrite (IH eq_refl), orb_false_r.
    destruct (String.eqb k k'); split; congruence.
Qed.

Lemma lookup_some_has_key (k : string) (ps : list (string * value)) (v : value) :
  lookup k ps = Some v -> has_key k ps = true.
Proof.
  intros H. destruct (has_key k ps) eqn:E; [reflexivity|].
  apply lookup_none in E. congruence.
Qed.

Lemma keys_replace_member k v ps :
  map fst (replace_member k v ps) = map fst ps.
Proof.
  induction ps as [|[k' w] ps IH]; simpl; [reflexivity|].
  destruct (String.eqb k k') eqn:E; simpl.
  - apply String.eqb_eq in E. congruence.
  - f_equal. exact IH.
Qed.

Lemma lookup_replace_member k v ps k' :
  NoDup (map fst ps) -> has_key k ps = true ->
  lookup k' (replace_member k v ps)
  = if String.eqb k' k then Some v else lookup k' ps.
Proof.
  induction ps as [|[k0 w] ps IH]; simpl; [discriminate|].
  intros Hnd Hk. inversion Hnd as [|? ? Hnin Hnd']; subst.
  destruct (String.eqb k k0) eqn:E; simpl.
  - apply String.eqb_eq in E; subst k0.
    apply has_key_false_in in Hnin.
    destruct (String.eqb k' k) eqn:E'.
    + apply String.eqb_eq in E'; subst k'.
      apply lookup_none in Hnin. rewrite Hnin. reflexivity.
    + reflexivity.
  - simpl in Hk. rewrite IH by assumption.
    destruct (String.eqb k' k) eqn:E'; reflexivity.
Qed.

Lemma keys_insert_index i k v ps :
  forall x, In x (map fst (insert_index i k v ps)) <-> x = k \/ In x (map fst ps).
Proof.
  induction ps as [|[k0 w] ps IH]; intros x; simpl.
  - intuition.
  - destruct (array_index k0) as [j|]; [destruct (j <? i)|]; simpl;
      rewrite ?IH; intuition.
Qed.

Lemma nodup_insert_index i k v ps :
  NoDup (map fst ps) -> ~ In k (map fst ps) ->
  NoDup (map fst (insert_index i k v ps)).
Proof.
  induction ps as [|[k0 w] ps IH]; simpl; intros Hnd Hnin.
  - constructor; [tauto | constructor].
  - inversion Hnd as [|? ? Hn0 Hnd']; subst.
    destruct (array_index k0) as [j|]; [destruct (j <? i)|]; simpl.
    + constructor.
      * rewrite keys_insert_index. intuition.
      * apply IH; tauto.
    + constructor; simpl; tauto.
    + constructor; simpl; tauto.
Qed.

Lemma lookup_insert_index i k v ps k' :
  has_key k ps = false ->
  lookup k' (insert_index i k v ps)
  = if String.eqb k' k then Some v else lookup k' ps.
Proof.
  induction ps as [|[k0 w] ps IH]; simpl; intros Hk.
  - reflexivity.
  - apply orb_false_iff in Hk. destruct Hk as [Hk0 Hk].
    assert (Hsplit : lookup k' ((k, v) :: (k0, w) :: ps)
                     = if String.eqb k' k then Some v
                       else lookup k' ((k0, w) :: ps)).
    { simpl. destruct (lookup k' ps) as [u|] eqn:El.
      - destruct (String.eqb k' k) eqn:E'; [|reflexivity].
        apply String.eqb_eq in E'; subst k'.
        apply lookup_none in Hk. congruence.
      - destruct (String.eqb k' k0) eqn:E0; [|reflexivity].
        destruct (String.eqb k' k) eqn:E'; [|reflexivity].
        apply String.eqb_eq in E0, E'; subst. rewrite String.eqb_refl in Hk0.
        discriminate. }
    destruct (array_index k0) as [j|]; [destruct (j <? i)|]; try exact Hsplit.
    simpl. rewrite IH by exact Hk.
    destruct (String.eqb k' k) eqn:E'; reflexivity.
Qed.

Lemma lookup_app_new k v ps k' :
  has_key k ps = false ->
  lookup k' (ps ++ [(k, v)])%list
  = if String.eqb k' k then Some v else lookup k' ps.
Proof.
  induction ps as [|[k0 w] ps IH]; simpl; intros Hk.
  - destruct (String.eqb k' k); reflexivity.
  - apply orb_false_iff in Hk. destruct Hk as [Hk0 Hk].
    rewrite IH by exact Hk.
    destruct (String.eqb k' k) eqn:E'; [reflexivity|].
    reflexivity.
Qed.

Lemma lookup_define k v ps k' :
  NoDup (map fst ps) ->
  lookup k' (define k v ps) = if String.eqb k' k then Some v else lookup k' ps.
Proof.
  intros Hnd. unfold define. destruct (has_key k ps) eqn:Hk.
  - apply lookup_replace_member; assumption.
  - destruct (array_index k).
    + apply lookup_insert_index; assumption.
    + apply lookup_app_new; assumption.
Qed.

Lemma nodup_define k v ps :
  NoDup (map fst ps) -> NoDup (map fst (define k v ps)).
Proof.
  intros Hnd. unfold define. destruct (has_key k ps) eqn:Hk.
  - rewrite keys_replace_member. exact Hnd.
  - apply has_key_false_in in Hk. destruct (array_index k).
    + apply nodup_insert_index; assumption.
    + rewrite map_app. simpl. apply NoDup_app; auto.
      * constructor; [tauto | constructor].
      * intros x Hx [<-|[]]. tauto.
Qed.

Lemma has_key_lookup k ps :
  has_key k ps = match lookup k ps with Some _ => true | None => false end.
Proof.
  destruct (lookup k ps) eqn:E.
  - eapply lookup_some_has_key; eauto.
  - apply lookup_none; assumption.
Qed.

Lemma has_key_define k v ps k' :
  NoDup (map fst ps) ->
  has_key k' (define k v ps) = String.eqb k' k || has_key k' ps.
Proof.
  intros Hnd. rewrite !has_key_lookup, lookup_define by assumption.
  destruct (String.eqb k' k); reflexivity.
Qed.

Lemma spread_fold (es t : list (string * value)) :
  NoDup (map fst t) ->
  let r := fold_left (fun t kv => define (fst kv) (snd kv) t) es t in
  NoDup (map fst r)
  /\ forall k, lookup k r = match lookup k es with
                            | Some v => Some v
                            | None => lookup k t
                            end.
Proof.
  revert t; induction es as [|[k0 v0] es IH]; intros t Hnd; simpl.
  - split; [exact Hnd | reflexivity].
  - destruct (IH (define k0 v0 t) (nodup_define k0 v0 t Hnd)) as [H1 H2].
    split; [exact H1|]. intros k. rewrite H2.
    destruct (lookup k es); [reflexivity|].
    rewrite lookup_define by assumption.
    destruct (String.eqb k k0); reflexivity.
Qed.

Lemma nodup_spread v t : NoDup (map fst t) -> NoDup (map fst (spread v t)).
Proof. intros H. apply (spread_fold (own_entries v) t H). Qed.

Lemma lookup_spread v t k :
  NoDup (map fst t) ->
  lookup k (spread v t) = match lookup k (own_entries v) with
                          | Some w => Some w
                          | None => lookup k t
                          end.
Proof. intros H. apply (spread_fold (own_entries v) t H). Qed.


(** ** Finding an order by identifier *)

Lemma get_not_nullish (o : value) (k : string) :
  nullish o = false -> exists v, get o k = Normal v.
Proof.
  destruct o; simpl; intros H; try discriminate; eauto.
  destruct (lookup k props); eauto.
  destruct (mem_string k object_prototype_names); eauto.
Qed.

Lemma has_id_dec (id : string) (o : value) : {has_id id o} + {~ has_id id o}.
Proof.
  unfold has_id. destruct (get o "order_id") as [v|].
  - destruct v; try (right; congruence).
    destruct (string_dec s id) as [->|Hne]; [left; reflexivity|].
    right; congruence.
  - right; congruence.
Qed.

(** [findIndex] returns the first order that [id] designates, if any. *)
Lemma find_index_spec (id : string) (orders : list value) :
  Forall (fun o => nullish o = false) orders ->
  (find_index id orders = Normal None
   /\ Forall (fun o => ~ has_id id o) orders)
  \/ (exists n o,
         find_index id orders = Normal (Some n)
         /\ nth_error orders n = Some o
         /\ has_id id o
         /\ Forall (fun o' => ~ has_id id o') (firstn n orders)).
Proof.
  induction 1 as [|o orders Ho _ IH].
  - left. split; [reflexivity | constructor].
  - destruct (get_not_nullish o "order_id" Ho) as [oid Hoid].
    destruct (has_id_dec id o) as [Hid|Hid].
    + right. exists O, o. simpl. unfold has_id in Hid. rewrite Hid. simpl.
      rewrite String.eqb_refl. repeat split; auto.
    + assert (Hstep : find_index id (o :: orders)
                      = i <- find_index id orders ;; Normal (option_map S i)).
      { simpl. rewrite Hoid. simpl. destruct oid; try reflexivity.
        destruct (String.eqb s id) eqn:E; [|reflexivity].
        apply String.eqb_eq in E. subst s. contradiction. }
      rewrite Hstep.
      destruct IH as [[E F]|(n & o' & E & Hn & Hid' & F)]; rewrite E.
      * left. split; [reflexivity | constructor; assumption].
      * right. exists (S n), o'. simpl. repeat split; auto.
Qed.


(** ** The JSON round trip *)

Lemma json_object (ps : list (string * value)) :
  json (VObj ps) = Some (VObj (json_members ps [])).
Proof.
  simpl. do 2 f_equal. unfold json_members. generalize (@nil (string * value)).
  induction ps as [|[k x] ps IH]; intros acc; simpl; [reflexivity | apply IH].
Qed.

Lemma json_members_nodup (ps acc : list (string * value)) :
  NoDup (map fst acc) -> NoDup (map fst (json_members ps acc)).
Proof.
  revert acc; induction ps as [|[k x] ps IH]; intros acc H; simpl; [exact H|].
  apply IH. destruct (json x); [apply nodup_define|]; exact H.
Qed.

Lemma json_members_frame (k : string) (ps acc : list (string * value)) :
  has_key k ps = false ->
  NoDup (map fst acc) ->
  lookup k (json_members ps acc) = lookup k acc.
Proof.
  revert acc; induction ps as [|[k' x] ps IH]; intros acc Hk H; simpl;
    [reflexivity|].
  simpl in Hk. apply orb_false_iff in Hk. destruct Hk as [Hne Hk].
  rewrite IH by (try destruct (json x); try apply nodup_define; assumption).
  destruct (json x); [|reflexivity].
  rewrite lookup_define, Hne by exact H. reflexivity.
Qed.

(** A member that the text keeps reads the same after the round trip. *)
Lemma json_members_lookup (k : string) (ps acc : list (string * value)) (v w : value) :
  lookup k ps = Some v ->
  json v = Some w ->
  NoDup (map fst acc) ->
  lookup k (json_members ps acc) = Some w.
Proof.
  revert acc; induction ps as [|[k' x] ps IH]; intros acc Hl Hj H; simpl in *;
    [discriminate|].
  assert (H' : NoDup (map fst match json x with
                              | Some w => define k' w acc
                              | None => acc
                              end))
    by (destruct (json x); [apply nodup_define|]; exact H).
  destruct (lookup k ps) as [u|] eqn:E.
  - injection Hl as ->. apply IH; auto.
  - destruct (String.eqb k k') eqn:Ek; [|discriminate].
    injection Hl as ->. apply String.eqb_eq in Ek. subst k'.
    rewrite json_members_frame by (try apply lookup_none; assumption).
    rewrite Hj, lookup_define, String.eqb_refl by exact H. reflexivity.
Qed.

Lemma get_json_string (o : value) (k s : string) :
  get o k = Normal (VStr s) -> get (json_element o) k = Normal (VStr s).
Proof.
  intros H. destruct o; try discriminate H.
  unfold json_element. rewrite json_object. simpl in *.
  destruct (lookup k props) as [v|] eqn:E.
  - injection H as ->.
    rewrite (json_members_lookup k props [] (VStr s) (VStr s) E eq_refl)
      by constructor.
    reflexivity.
  - destruct (mem_string k object_prototype_names); discriminate.
Qed.

Lemma numeric_id_json (o : value) :
  numeric_id o ->
  numeric_id (json_element o) /\ stored_id (json_element o) = stored_id o.
Proof.
  intros (s & n & Hg & Hp). pose proof (get_json_string o _ s Hg) as Hj.
  split; [exists s, n; auto|]. unfold stored_id. rewrite Hg, Hj. reflexivity.
Qed.

Lemma numeric_ids_reloaded (orders : list value) :
  Forall numeric_id orders ->
  Forall numeric_id (reloaded orders)
  /\ map stored_id (reloaded orders) = map stored_id orders.
Proof.
  induction 1 as [|o orders Ho _ [IH1 IH2]]; simpl; [split; constructor|].
  destruct (numeric_id_json o Ho) as [H1 H2].
  split; [constructor; assumption | congruence].
Qed.

(** ** Uniqueness of order identifiers *)







Lemma numeric_id_number (o : value) :
  numeric_id o -> exists n, id_number o = Some n.
Proof.
  intros (s & n & H & Hp). exists n. unfold id_number. rewrite H. simpl.
  rewrite Hp. reflexivity.
Qed.

Lemma numeric_ids_numbers (orders : list value) :
  Forall numeric_id orders -> exists ns, map id_number orders = map Some ns.
Proof.
  induction 1 as [|o orders Ho _ [ns IH]].
  - exists []. reflexivity.
  - destruct (numeric_id_number o Ho) as [n Hn].
    exists (n :: ns). simpl. congruence.
Qed.

Lemma safe_ids_numbers (orders : list value) (ns : list Z) :
  map id_number orders = map Some ns ->
  safe_ids orders ->
  Forall (fun n => n <= max_safe_integer) ns.
Proof.
  intros H Hs. revert ns H; induction Hs as [|o orders Ho _ IH];
    intros [|n ns] H; simpl in H; try discriminate; constructor.
  - injection H as H _. apply Ho, H.
  - injection H as _ H. apply IH, H.
Qed.

Lemma id_numbers_below (orders : list value) (ns : list Z) :
  map id_number orders = map Some ns ->
  forall o n, In o orders -> id_number o = Some n -> n <= fold_left Z.max ns 0.
Proof.
  intros H o n Ho Hn.
  assert (Hin : In n ns).
  { apply (in_map id_number) in Ho. rewrite H, Hn in Ho.
    apply in_map_iff in Ho. destruct Ho as (x & [= ->] & Hx). exact Hx. }
  destruct (fold_max_le ns 0) as [_ Hf]. rewrite Forall_forall in Hf. auto.
Qed.

(** The id of a new order is not the id of any stored order. *)
Lemma new_order_id_fresh (orders : list value) (id : string) :
  Forall numeric_id orders ->
  safe_ids orders ->
  new_order_id orders = Normal id ->
  ~ In (VStr id) (map stored_id orders)
  /\ exists n, parse_int id = Fin n /\ 1 <= n <= max_safe_integer + 1.
Proof.
  intros Hnum Hsafe Hid.
  destruct (numeric_ids_numbers orders Hnum) as [ns Hns].
  pose proof (safe_ids_numbers orders ns Hns Hsafe) as Hb.
  rewrite (new_order_id_fold orders ns Hns Hb) in Hid. injection Hid as <-.
  pose proof (fold_max_bound ns 0 max_safe_integer
                ltac:(unfold max_safe_integer; lia) Hb) as Hle.
  destruct (fold_max_le ns 0) as [H0 _].
  assert (Hr : parse_int (num_to_string (Fin (fold_left Z.max ns 0 + 1)))
               = Fin (fold_left Z.max ns 0 + 1)).
  { apply parse_int_num_to_string. unfold max_safe_integer in Hle. lia. }
  split; [|eexists; split; [exact Hr | lia]].
  intros Hin. apply in_map_iff in Hin. destruct Hin as (o & Hs & Ho).
  rewrite Forall_forall in Hnum. destruct (Hnum o Ho) as (s & n & Hg & Hp).
  unfold stored_id in Hs. rewrite Hg in Hs. injection Hs as ->.
  assert (Hn : id_number o = Some (fold_left Z.max ns 0 + 1)).
  { unfold id_number. rewrite Hg. simpl. rewrite Hr. reflexivity. }
  pose proof (id_numbers_below orders ns Hns o _ Ho Hn). lia.
Qed.

Lemma merged_keeps_order_id (ps : list (string * value)) (payload : value) :
  has_key "order_id" (own_entries payload) = false ->
  get (VObj (spread payload (spread (VObj ps) []))) "order_id"
  = get (VObj ps) "order_id".
Proof.
  intros Hk. apply lookup_none in Hk.
  simpl. rewrite lookup_spread by (apply nodup_spread; constructor).
  rewrite Hk. rewrite lookup_spread by constructor. simpl.
  destruct (lookup "order_id" ps); reflexivity.
Qed.





(** ** The global maximum line-item number *)

Lemma strip_prefix_truthy (pat s r : string) :
  pat <> EmptyString -> strip_prefix pat s = Some r -> truthy (VStr s) = true.
Proof.
  destruct pat as [|a p]; [congruence|]. intros _.
  destruct s as [|b s]; simpl; [discriminate | reflexivity].
Qed.

Lemma remove_first_prefix (pat s r : string) :
  strip_prefix pat s = Some r -> remove_first pat s = r.
Proof.
  intros H. destruct s; simpl; rewrite H; reflexivity.
Qed.

Lemma parse_int_all_digits (r : string) (n : Z) :
  all_digits r = true -> parse_digits r = Some n -> parse_int r = round n 0.
Proof.
  destruct r as [|c r]; [discriminate|].
  intros Hall Hp. simpl in Hall.
  destruct (digit c) as [f|] eqn:Hc; [|discriminate].
  unfold parse_int.
  rewrite (digit_not_space _ _ _ Hc).
  destruct (digit_not_sign _ _ Hc) as [-> ->].
  rewrite Hp. reflexivity.
Qed.

Lemma of_uint_nonneg (d : uint) : 0 <= Z.of_uint d.
Proof. unfold Z.of_uint. apply N2Z.is_nonneg. Qed.

Lemma parse_digits_nonneg (r : string) (n : Z) : parse_digits r = Some n -> 0 <= n.
Proof.
  unfold parse_digits. destruct (digits_prefix r); intros [= <-];
    apply of_uint_nonneg.
Qed.

Lemma line_item_number_conforming (li : value) :
  conforming_item li = true ->
  line_item_number li = Normal (Fin (spec_item_number li)).
Proof.
  unfold conforming_item, line_item_number, spec_item_number.
  destruct (get li "line_item_id") as [v|]; [|discriminate].
  simpl. destruct v; simpl; try discriminate;
    try (intros H; apply negb_true_iff in H; rewrite H; reflexivity);
    try reflexivity.
  intros H. apply orb_true_iff in H. destruct H as [H|H].
  - apply String.eqb_eq in H. subst s. reflexivity.
  - unfold pattern_number in *.
    destruct (strip_prefix "LI-" s) as [r|] eqn:Hs; [|discriminate].
    destruct (all_digits r) eqn:Hd; [|discriminate].
    destruct (parse_digits r) as [n|] eqn:Hp; [|discriminate].
    pose proof (strip_prefix_truthy "LI-" s r ltac:(discriminate) Hs) as Ht.
    simpl in Ht. rewrite Ht.
    rewrite (remove_first_prefix _ _ _ Hs).
    unfold parseInt. simpl. rewrite (parse_int_all_digits r n Hd Hp).
    rewrite round_safe; [reflexivity|].
    apply parse_digits_nonneg in Hp. apply Z.leb_le in H.
    unfold max_safe_integer in H. lia.
Qed.

Lemma spec_item_number_nonneg (li : value) : 0 <= spec_item_number li.
Proof.
  unfold spec_item_number.
  destruct (get li "line_item_id") as [[| | | |s| | |]|]; try lia.
  unfold pattern_number.
  destruct (strip_prefix "LI-" s); try lia.
  destruct (all_digits s0); try lia.
  unfold parse_digits.
  destruct (digits_prefix s0) eqn:E; try lia; apply of_uint_nonneg.
Qed.

Lemma order_items_fold (l : list value) (m : Z) :
  forallb conforming_item l = true ->
  reduce (fun max_item li =>
            num <- line_item_number li ;;
            Normal (math_max max_item num))
         l (Fin m)
  = Normal (Fin (fold_left Z.max (map spec_item_number l) m)).
Proof.
  revert m; induction l as [|li l IH]; intros m H; simpl in *; [reflexivity|].
  apply andb_true_iff in H. destruct H as [H1 H2].
  rewrite (line_item_number_conforming li H1). simpl. apply IH, H2.
Qed.

Lemma conforming_order_items (o : value) :
  conforming_order o = true ->
  exists lis,
    get o "line_items" = Normal lis
    /\ as_array (js_or lis (VArr [])) = Normal (stored_items o)
    /\ forallb conforming_item (stored_items o) = true.
Proof.
  unfold conforming_order, stored_items.
  destruct (get o "line_items") as [v|]; [|discriminate].
  intros H. exists v. split; [reflexivity|].
  destruct v; simpl in *; try discriminate;
    try (apply negb_true_iff in H; unfold js_or; simpl; rewrite ?H; auto);
    auto.
Qed.

Lemma fold_max_start (l : list Z) (a : Z) :
  0 <= a -> Z.max a (fold_left Z.max l 0) = fold_left Z.max l a.
Proof.
  revert a; induction l as [|x l IH]; intros a Ha; simpl; [lia|].
  destruct (Z_le_gt_dec 0 x) as [Hx|Hx].
  - rewrite <- (IH (Z.max 0 x)) by lia. rewrite <- (IH (Z.max a x)) by lia. lia.
  - replace (Z.max 0 x) with 0 by lia.
    destruct (Z_le_gt_dec a x); [lia|].
    replace (Z.max a x) with a by lia. apply IH, Ha.
Qed.

Lemma max_line_item_id_fold (orders : list value) (m : Z) :
  0 <= m ->
  forallb conforming_order orders = true ->
  reduce (fun max order =>
            lis <- get order "line_items" ;;
            l <- as_array (js_or lis (VArr [])) ;;
            order_max <- reduce (fun max_item li =>
                                   num <- line_item_number li ;;
                                   Normal (math_max max_item num))
                                l (Fin 0) ;;
            Normal (math_max max order_max))
         orders (Fin m)
  = Normal (Fin (fold_left Z.max (map spec_item_number (stored_line_items orders)) m)).
Proof.
  revert m; induction orders as [|o orders IH]; intros m Hm H; simpl in *;
    [reflexivity|].
  apply andb_true_iff in H. destruct H as [H1 H2].
  destruct (conforming_order_items o H1) as (lis & Hg & Ha & Hitems).
  rewrite Hg. cbn [bind]. rewrite Ha. cbn [bind].
  rewrite (order_items_fold _ 0 Hitems). cbn [bind math_max].
  rewrite map_app, fold_left_app.
  rewrite fold_max_start by exact Hm.
  apply IH; [|exact H2].
  destruct (fold_max_le (map spec_item_number (stored_items o)) m). lia.
Qed.

(** C3 (amended).  When every stored line item has an absent (falsy)
    [line_item_id] or one of the form [LI-<digits>], the maximum computed
    before numbering is the maximum, over every line item of every stored
    order, of the number in a conforming id and of 0 for an absent one (0
    when there is no line item at all). *)
Theorem max_line_item_id_of_conforming_store (orders : list value) :
  forallb conforming_order orders = true ->
  max_line_item_id orders = Normal (Fin (global_max_line_item_number orders)).
Proof.
  intros H. unfold max_line_item_id, global_max_line_item_number.
  rewrite (max_line_item_id_fold orders 0 (Z.le_refl 0) H).
  rewrite fold_max_maximum; [reflexivity|].
  apply Forall_forall. intros x Hx. apply in_map_iff in Hx.
  destruct Hx as (li & <- & _). apply spec_item_number_nonneg.
Qed.

Lemma max_line_item_id_of_conforming_store_witness :
  max_line_item_id
    [ sample_order "1" [VObj [("line_item_id", VStr "LI-5")]; VObj [("price", VNum (Fin 2))]];
      sample_order "2" [VObj [("line_item_id", VStr "LI-3")]] ]
  = Normal (Fin 5).
Proof.
  apply (max_line_item_id_of_conforming_store
           [ sample_order "1" [VObj [("line_item_id", VStr "LI-5")];
                               VObj [("price", VNum (Fin 2))]];
             sample_order "2" [VObj [("line_item_id", VStr "LI-3")]] ]).
  reflexivity.
Defined.

(** C3 (as stated) fails: after a create whose payload carries the
    non-conforming id "abc" (stored unchanged), the specification's maximum
    is 0 but the computed maximum is [NaN], and the next unlabelled line item
    is numbered [LI-NaN]. *)
Lemma nonconforming_id_poisons_maximum :
  let orders := next_store [] (Create nonconforming_payload "t1") in
  stored_line_items orders = [VObj [("line_item_id", VStr "abc")]]
  /\ global_max_line_item_number orders = 0
  /\ max_line_item_id orders = Normal NaN
  /\ max_line_item_id orders <> Normal (Fin (global_max_line_item_number orders))
  /\ map stored_items (next_store orders (Create unlabelled_payload "t2"))
     = [ [VObj [("line_item_id", VStr "abc")]];
         [VObj [("product_id", VStr "kit"); ("line_item_id", VStr "LI-NaN")]] ].
Proof.
  repeat split; try reflexivity. discriminate.
Qed.

(** ** Numbering the line items of a new order *)

Lemma carries_id_get (item : value) :
  nullish item = false ->
  exists v, get item "line_item_id" = Normal v /\ carries_id item = truthy v.
Proof.
  intros H. destruct (get_not_nullish item "line_item_id" H) as [v Hv].
  exists v. unfold carries_id. rewrite Hv. auto.
Qed.

Lemma get_labelled (item : value) (s : string) :
  get (VObj (define "line_item_id" (VStr s) (spread item []))) "line_item_id"
  = Normal (VStr s).
Proof.
  simpl. rewrite lookup_define by (apply nodup_spread; constructor).
  reflexivity.
Qed.

Lemma count_unlabelled_cons (item : value) (items : list value) :
  count_unlabelled (item :: items)
  = (if carries_id item then 0 else 1) + count_unlabelled items.
Proof.
  unfold count_unlabelled. simpl.
  destruct (carries_id item); simpl negb; cbn [List.length]; lia.
Qed.

Lemma new_line_items_spec (items : list value) :
  Forall (fun item => nullish item = false) items ->
  forall m : Z,
  0 <= m ->
  m + Z.of_nat (List.length items) <= max_safe_integer ->
  exists out,
    new_line_items (Fin m) items = Normal out
    /\ List.length out = List.length items
    /\ forall i item,
        nth_error items i = Some item ->
        exists r,
          nth_error out i = Some r
          /\ (carries_id item = true -> r = item)
          /\ (carries_id item = false ->
              get r "line_item_id"
              = Normal (VStr ("LI-" ++ num_to_string
                                (Fin (m + count_unlabelled (firstn (S i) items)))))).
Proof.
  induction 1 as [|item items Hitem _ IH]; intros m Hm Hb.
  - exists []. repeat split; auto. intros [|i] item H; discriminate.
  - cbn [List.length] in Hb. rewrite Nat2Z.inj_succ in Hb.
    unfold max_safe_integer in *.
    destruct (carries_id_get item Hitem) as (v & Hv & Hc).
    cbn [new_line_items]. rewrite Hv. cbn [bind].
    rewrite <- Hc. destruct (carries_id item) eqn:Ec.
    + destruct (IH m) as (out & -> & Hlen & Hpos); try lia. cbn [bind].
      exists (item :: out). split; [reflexivity|]. split; [simpl; lia|].
      intros [|i] it Hi.
      * injection Hi as <-. exists item. repeat split; auto. congruence.
      * destruct (Hpos i it Hi) as (r & Hr & H1 & H2).
        exists r. split; [exact Hr|]. split; [exact H1|].
        intros Hn. rewrite (H2 Hn).
        change (firstn (S (S i)) (item :: items))
          with (item :: firstn (S i) items).
        rewrite count_unlabelled_cons, Ec, Z.add_0_l. reflexivity.
    + destruct (IH (m + 1)) as (out & Hout & Hlen & Hpos); try lia.
      rewrite num_add_safe by lia. rewrite Hout. cbn [bind].
      eexists. split; [reflexivity|]. split; [simpl; lia|].
      intros [|i] it Hi.
      * injection Hi as <-. eexists. split; [reflexivity|].
        split; [congruence|]. intros _. rewrite get_labelled.
        change (firstn 1 (item :: items)) with [item].
        rewrite count_unlabelled_cons, Ec. reflexivity.
      * destruct (Hpos i it Hi) as (r & Hr & H1 & H2).
        exists r. split; [exact Hr|]. split; [exact H1|].
        intros Hn. rewrite (H2 Hn).
        change (firstn (S (S i)) (item :: items))
          with (item :: firstn (S i) items).
        rewrite count_unlabelled_cons, Ec, Z.add_assoc. reflexivity.
Qed.

(** C4.  The payload's line items are numbered in order: with the global
    maximum [m] and no null item, the handler's [map] returns a list of the
    same length in which position [i] holds the payload's item [i] itself
    when it carries a [line_item_id] (whatever that id is), and otherwise an
    item whose [line_item_id] is [LI-<m + k>], [k] counting the items without
    id up to and including position [i]; this list is the [line_items] of the
    order that POST /orders creates. *)
Theorem line_items_numbered_in_order (items : list value) (m : Z) :
  Forall (fun item => nullish item = false) items ->
  0 <= m ->
  m + Z.of_nat (List.length items) <= max_safe_integer ->
  exists out,
    new_line_items (Fin m) items = Normal out
    /\ List.length out = List.length items
    /\ (forall i item,
           nth_error items i = Some item ->
           exists r,
             nth_error out i = Some r
             /\ (carries_id item = true -> r = item)
             /\ (carries_id item = false ->
                 get r "line_item_id"
                 = Normal (VStr ("LI-" ++ num_to_string
                                   (Fin (m + count_unlabelled (firstn (S i) items)))))))
    /\ (forall orders d now orders' resp,
           max_line_item_id orders = Normal (Fin m) ->
           get d "line_items" = Normal (VArr items) ->
           create orders d now = Normal (orders', resp) ->
           get (body resp) "line_items" = Normal (VArr out)).
Proof.
  intros Hitems Hm Hbound.
  destruct (new_line_items_spec items Hitems m Hm Hbound)
    as (out & Hout & Hlen & Hpos).
  exists out. repeat split; auto.
  intros orders d now orders' resp Hmax Hd Hc.
  apply create_normal in Hc.
  destruct Hc as (id & total & its & sa & cn & ce & _ & _
                  & (counter & l & Hcounter & Hl & Hnew) & _ & _ & _ & Hb & _).
  rewrite Hmax in Hcounter. injection Hcounter as <-.
  rewrite Hd in Hl. injection Hl as <-.
  rewrite Hout in Hnew. injection Hnew as <-.
  rewrite Hb. reflexivity.
Qed.

Lemma line_items_numbered_in_order_witness :
  exists out,
    new_line_items (Fin 5) mixed_items = Normal out
    /\ List.length out = 3%nat
    /\ exists r,
        nth_error out 2 = Some r
        /\ get r "line_item_id" = Normal (VStr "LI-7").
Proof.
  destruct (line_items_numbered_in_order mixed_items 5)
    as (out & Hout & Hlen & Hpos & _).
  - repeat constructor.
  - lia.
  - vm_compute. discriminate.
  - exists out. split; [exact Hout|]. split; [exact Hlen|].
    destruct (Hpos 2%nat (VObj [("product_id", VStr "c")]) eq_refl)
      as (r & Hr & _ & Hid).
    exists r. split; [exact Hr|]. exact (Hid eq_refl).
Defined.

(** ** Update as a shallow merge *)

Lemma In_firstn_lt {A : Type} (l : list A) (i n : nat) (x : A) :
  (i < n)%nat -> nth_error l i = Some x -> In x (firstn n l).
Proof.
  revert i n; induction l as [|y l IH]; intros [|i] [|n] Hlt H; simpl in *;
    try discriminate; try lia.
  - left. congruence.
  - right. apply (IH i n); [lia | exact H].
Qed.

Lemma nth_error_set_nth {A : Type} (l : list A) (n : nat) (x y : A) :
  nth_error l n = Some y -> nth_error (set_nth n x l) n = Some x.
Proof.
  revert n; induction l as [|z l IH]; intros [|n] H; simpl in *;
    try discriminate; auto.
Qed.

Lemma has_id_object (id : string) (o : value) :
  has_id id o -> exists ps, o = VObj ps.
Proof.
  unfold has_id. destruct o; simpl; try discriminate. eauto.
Qed.

Lemma get_merged (ps : list (string * value)) (payload : value) (k : string) :
  get (VObj (spread payload (spread (VObj ps) []))) k
  = match lookup k (own_entries payload) with
    | Some v => Normal v
    | None => get (VObj ps) k
    end.
Proof.
  simpl. rewrite lookup_spread by (apply nodup_spread; constructor).
  destruct (lookup k (own_entries payload)); [reflexivity|].
  rewrite lookup_spread by constructor. simpl.
  destruct (lookup k ps); reflexivity.
Qed.

Lemma update_spec (orders : list value) (id : string) (payload : value) :
  Forall (fun o => nullish o = false) orders ->
  (Forall (fun o => ~ has_id id o) orders
   /\ update orders id payload = Normal (orders, not_found))
  \/ (exists n ps,
         nth_error orders n = Some (VObj ps)
         /\ has_id id (VObj ps)
         /\ Forall (fun o => ~ has_id id o) (firstn n orders)
         /\ update orders id payload
            = Normal (set_nth n (VObj (spread payload (spread (VObj ps) []))) orders,
                      {| status := 200;
                         body := VObj (spread payload (spread (VObj ps) [])) |})).
Proof.
  intros Hn. unfold update.
  destruct (find_index_spec id orders Hn)
    as [[E F]|(n & o & E & Hnth & Hid & F)]; rewrite E; cbn [bind].
  - left. split; [exact F | reflexivity].
  - right. destruct (has_id_object id o Hid) as [ps ->].
    exists n, ps. rewrite (nth_error_nth _ _ VUndef Hnth). auto.
Qed.

(** The update of the order that [id] designates. *)
Lemma update_at (orders : list value) (id : string) (payload : value)
  (n : nat) (o : value) :
  Forall (fun o => nullish o = false) orders ->
  nth_error orders n = Some o ->
  has_id id o ->
  Forall (fun o' => ~ has_id id o') (firstn n orders) ->
  exists merged,
    update orders id payload
    = Normal (set_nth n merged orders, {| status := 200; body := merged |})
    /\ forall k, get merged k = match lookup k (own_entries payload) with
                                | Some v => Normal v
                                | None => get o k
                                end.
Proof.
  intros Hnn Hnth Hid Hfirst.
  destruct (update_spec orders id payload Hnn)
    as [[F _]|(n' & ps & Hnth' & Hid' & Hfirst' & Hu')].
  - exfalso. rewrite Forall_forall in F.
    exact (F o (nth_error_In _ _ Hnth) Hid).
  - assert (n' = n).
    { destruct (Nat.lt_trichotomy n' n) as [Hlt|[Heq|Hgt]]; [|exact Heq|].
      - exfalso. rewrite Forall_forall in Hfirst.
        apply (Hfirst (VObj ps)); [|exact Hid'].
        eapply In_firstn_lt; eassumption.
      - exfalso. rewrite Forall_forall in Hfirst'.
        apply (Hfirst' o); [|exact Hid].
        eapply In_firstn_lt; eassumption. }
    subst n'. rewrite Hnth in Hnth'. injection Hnth' as ->.
    eexists. split; [exact Hu'|]. intros k. apply get_merged.
Qed.

(** ** The order total *)

Lemma js_or_falsy (v d : value) : truthy v = false -> js_or v d = d.
Proof. unfold js_or. intros ->. reflexivity. Qed.

Lemma js_add_numbers (a b : number) :
  js_add (VNum a) (VNum b) = Normal (VNum (num_add a b)).
Proof. reflexivity. Qed.

Lemma js_add_fin (a b : Z) :
  Z.abs (a + b) <= 2 ^ 53 ->
  js_add (VNum (Fin a)) (VNum (Fin b)) = Normal (VNum (Fin (a + b))).
Proof. intros H. rewrite js_add_numbers, num_add_safe by exact H. reflexivity. Qed.

Lemma price_added (item : value) (a : number) :
  priced item = true ->
  (p <- get item "price" ;; js_add (VNum a) (js_or p (VNum (Fin 0))))
  = Normal (VNum (num_add a (price_number item))).
Proof.
  unfold priced, price_number. intros Hp.
  destruct (get item "price") as [v|]; [|discriminate]. cbn [bind].
  destruct v; try (apply negb_true_iff in Hp; rewrite (js_or_falsy _ _ Hp));
    try apply js_add_numbers.
  unfold js_or. destruct (truthy (VNum n)); apply js_add_numbers.
Qed.

Lemma order_total_fold (items : list value) (a : number) :
  forallb priced items = true ->
  reduce (fun total item =>
            p <- get item "price" ;;
            js_add total (js_or p (VNum (Fin 0))))
         items (VNum a)
  = Normal (VNum (fold_left num_add (map price_number items) a)).
Proof.
  revert a; induction items as [|item items IH]; intros a H; simpl in H;
    [reflexivity|].
  apply andb_true_iff in H. destruct H as [Hp H].
  cbn [reduce]. rewrite (price_added item a Hp). cbn [bind].
  rewrite IH by exact H. reflexivity.
Qed.

(** Integer prices are added exactly as long as their absolute values add
    up to a safe integer. *)
Lemma integers_added_exactly (items : list value) (a : Z) :
  Forall (fun item => exists z, price_number item = Fin z) items ->
  Z.abs a + sum (map (fun item => Z.abs (price_of item)) items)
  <= max_safe_integer ->
  fold_left num_add (map price_number items) (Fin a)
  = Fin (a + sum (map price_of items)).
Proof.
  intros H. revert a; induction H as [|item items [z Hz] _ IH]; intros a Hb.
  - simpl. rewrite Z.add_0_r. reflexivity.
  - change (Z.abs a + (Z.abs (price_of item)
                       + sum (map (fun item => Z.abs (price_of item)) items))
            <= max_safe_integer) in Hb.
    change (fold_left num_add (map price_number items)
                      (num_add (Fin a) (price_number item))
            = Fin (a + (price_of item + sum (map price_of items)))).
    assert (Ep : price_of item = z).
    { unfold price_number, price_of in *.
      destruct (get item "price") as [[| | |n| | | |]|]; try congruence.
      destruct n as [| |x|]; simpl in Hz; try congruence.
      destruct (x =? 0) eqn:E; simpl in Hz; [|congruence].
      apply Z.eqb_eq in E. congruence. }
    rewrite Ep in *. rewrite Hz.
    assert (Hs : 0 <= sum (map (fun item => Z.abs (price_of item)) items)).
    { clear. induction items as [|x l IHl]; simpl; lia. }
    unfold max_safe_integer in *.
    rewrite num_add_safe by lia. rewrite IH by lia.
    f_equal. lia.
Qed.



(** C5 (as stated) fails on fractional prices: for the prices 0.1 and 0.2 the
    total is the double 0.30000000000000004, which is not their exact sum. *)
Lemma rounded_total_is_not_the_exact_sum :
  map (fun item => num_to_string (price_number item))
      [ VObj [("price", VNum (Frac 3602879701896397 55))];
        VObj [("price", VNum (Frac 3602879701896397 54))] ]
  = ["0.1"; "0.2"]
  /\ order_total fractional_payload = Normal (VNum (Frac 1351079888211149 52))
  /\ num_to_string (Frac 1351079888211149 52) = "0.30000000000000004"
  /\ forall p q t,
      value_of (Frac 3602879701896397 55) = Some p ->
      value_of (Frac 3602879701896397 54) = Some q ->
      value_of (Frac 1351079888211149 52) = Some t ->
      ~ QArith_base.Qeq (QArith_base.Qplus p q) t.
Proof.
  split; [vm_compute; reflexivity|].
  split; [vm_compute; reflexivity|].
  split; [vm_compute; reflexivity|].
  intros p q t [= <-] [= <-] [= <-]. vm_compute. discriminate.
Qed.

(** C6.  PUT /orders/:orderId is a shallow merge.  When no stored order has
    the identifier the answer is "Order not found" and the collection is
    unchanged.  Otherwise the first order with that identifier is replaced,
    in place, by the merged order, in which every member of the payload has
    the payload's value as a whole (so a [line_items] member replaces the
    stored sequence) and every other member reads as in the stored order. *)
Theorem update_is_shallow_merge (orders : list value) (id : string) (payload : value) :
  Forall (fun o => nullish o = false) orders ->
  (Forall (fun o => ~ has_id id o) orders ->
   update orders id payload = Normal (orders, not_found))
  /\ (forall n o,
         nth_error orders n = Some o ->
         has_id id o ->
         Forall (fun o' => ~ has_id id o') (firstn n orders) ->
         exists merged,
           update orders id payload
           = Normal (set_nth n merged orders, {| status := 200; body := merged |})
           /\ forall k, get merged k = match lookup k (own_entries payload) with
                                       | Some v => Normal v
                                       | None => get o k
                                       end).
Proof.
  intros Hnn. split.
  - intros Hnone.
    destruct (update_spec orders id payload Hnn)
      as [[_ E]|(n & ps & Hnth & Hid & _)]; [exact E|].
    exfalso. rewrite Forall_forall in Hnone.
    exact (Hnone _ (nth_error_In _ _ Hnth) Hid).
  - intros n o. apply update_at. exact Hnn.
Qed.

Lemma update_is_shallow_merge_witness :
  let stored := sample_order "1" [VObj [("line_item_id", VStr "LI-1")]] in
  update [stored] "2" (VObj [("customer_email", VStr "new@example.com")])
  = Normal ([stored], not_found)
  /\ exists merged,
      update [stored] "1" (VObj [("customer_email", VStr "new@example.com")])
      = Normal ([merged], {| status := 200; body := merged |})
      /\ get merged "customer_email" = Normal (VStr "new@example.com")
      /\ get merged "line_items" = get stored "line_items".
Proof.
  intros stored. split.
  - apply (update_is_shallow_merge [stored] "2").
    + repeat constructor.
    + repeat constructor. unfold has_id. simpl. discriminate.
  - destruct (update_is_shallow_merge
                [stored] "1" (VObj [("customer_email", VStr "new@example.com")]))
      as [_ H].
    + repeat constructor.
    + destruct (H O stored eq_refl eq_refl (Forall_nil _)) as (merged & Hu & Hk).
      exists merged. split; [exact Hu|].
      split; [apply (Hk "customer_email") | apply (Hk "line_items")].
Defined.

(** ** When POST /orders throws *)

Lemma to_string_convertible (v : value) :
  (convertible v = true -> exists s, to_string v = Normal s)
  /\ (convertible v = false -> to_string v = TypeError).
Proof.
  induction v as [| |b|n|s|l H|ps|name] using value_array_ind;
    try (split; [intros _; simpl; solve [eauto] | discriminate]).
  - split; [intros _; destruct b; simpl; eauto | discriminate].
  - (* arrays *)
    cbn [to_string convertible].
    induction H as [|x l [Hx1 Hx2] _ [IH1 IH2]].
    + split; [intros _; simpl; eauto | discriminate].
    + set (elem := match x with
                   | VUndef | VNull => Normal EmptyString
                   | _ => to_string x
                   end).
      assert (Hel1 : convertible x = true -> exists s, elem = Normal s)
        by (intros Hc; destruct (Hx1 Hc); destruct x; subst elem; eauto).
      assert (Hel2 : convertible x = false -> elem = TypeError)
        by (intros Hc; specialize (Hx2 Hc); destruct x; subst elem;
            try discriminate; exact Hx2).
      fold elem. clearbody elem. split.
      * intros Hc. apply andb_true_iff in Hc. destruct Hc as [Hcx Hcl].
        destruct (Hel1 Hcx) as [sx ->]. destruct (IH1 Hcl) as [sl Hsl].
        cbn [bind] in *.
        match type of Hsl with
        | bind ?c _ = _ => destruct c; [|discriminate]
        end.
        cbn [bind]. eauto.
      * intros Hc. apply andb_false_iff in Hc. destruct Hc as [Hcx|Hcl].
        -- rewrite (Hel2 Hcx). reflexivity.
        -- specialize (IH2 Hcl). destruct elem; [|reflexivity].
           cbn [bind] in *.
           match type of IH2 with
           | bind ?c _ = _ => destruct c; [discriminate|]
           end.
           reflexivity.
  - (* plain objects *)
    simpl. destruct (has_key "toString" ps); split;
      intros; try discriminate; eauto.
  - (* inherited members *)
    split; [intros _ | discriminate]. simpl.
    destruct (String.eqb name "__proto__"); eauto.
    destruct (String.eqb name "constructor"); eauto.
Qed.

Lemma to_string_primitive (v : value) :
  is_primitive v = true -> exists s, to_string v = Normal s.
Proof.
  intros H. apply to_string_convertible. destruct v; try discriminate; reflexivity.
Qed.

Lemma to_primitive_convertible (v : value) :
  convertible v = true ->
  exists p, to_primitive v = Normal p /\ is_primitive p = true.
Proof.
  intros H. destruct (proj1 (to_string_convertible v) H) as [s Hs].
  destruct v; try (eexists; split; reflexivity);
    unfold to_primitive; rewrite Hs; cbn [bind]; eexists; split; reflexivity.
Qed.




Lemma convertible_js_or (p : value) :
  convertible (js_or p (VNum (Fin 0))) = convertible p.
Proof.
  unfold js_or. destruct (truthy p) eqn:E; [reflexivity|].
  destruct p; try discriminate; reflexivity.
Qed.





Lemma math_max_NaN_l (n : number) : math_max NaN n = NaN.
Proof. reflexivity. Qed.

Lemma math_max_NaN_r (n : number) : math_max n NaN = NaN.
Proof. destruct n; reflexivity. Qed.

Lemma id_readable_parse (o : value) :
  id_readable o = true ->
  exists oid n,
    get o "order_id" = Normal oid /\ parseInt oid = Normal n
    /\ (id_reads_NaN o -> n = NaN).
Proof.
  unfold id_readable, id_reads_NaN.
  destruct (get o "order_id") as [oid|]; [|discriminate]. intros Hc.
  destruct (proj1 (to_string_convertible oid) Hc) as [s Hs].
  exists oid, (parse_int s). unfold parseInt. rewrite Hs. cbn [bind].
  split; [reflexivity|]. split; [reflexivity|].
  rewrite Hs. cbn [bind]. congruence.
Qed.

Lemma max_order_id_from_NaN (orders : list value) :
  forallb id_readable orders = true ->
  reduce (fun max order =>
            oid <- get order "order_id" ;;
            n <- parseInt oid ;;
            Normal (math_max max n))
         orders NaN = Normal NaN.
Proof.
  induction orders as [|o orders IH]; simpl; intros H; [reflexivity|].
  apply andb_true_iff in H. destruct H as [Ho H].
  destruct (id_readable_parse o Ho) as (oid & n & -> & Hp & _). cbn [bind].
  rewrite Hp. cbn [bind]. apply IH, H.
Qed.

Lemma max_order_id_NaN (orders : list value) (m : number) :
  forallb id_readable orders = true ->
  Exists id_reads_NaN orders ->
  reduce (fun max order =>
            oid <- get order "order_id" ;;
            n <- parseInt oid ;;
            Normal (math_max max n))
         orders m = Normal NaN.
Proof.
  intros Hr He. revert m Hr.
  induction He as [o orders Ho|o orders _ IH]; intros m Hr; simpl in *;
    apply andb_true_iff in Hr; destruct Hr as [Hro Hr];
    destruct (id_readable_parse o Hro) as (oid & n & -> & Hp & Hn);
    cbn [bind]; rewrite Hp; cbn [bind].
  - rewrite (Hn Ho), math_max_NaN_r. apply max_order_id_from_NaN, Hr.
  - apply IH, Hr.
Qed.

Lemma line_item_number_numbered (li : value) :
  numbered_item li = true ->
  exists n, line_item_number li = Normal n /\ (reads_NaN li -> n = NaN).
Proof.
  unfold numbered_item, line_item_number, reads_NaN.
  destruct (get li "line_item_id") as [v|]; [|discriminate]. cbn [bind].
  intros H.
  assert (Hv : truthy v = false \/ exists s, v = VStr s /\ truthy v = true).
  { destruct (truthy v) eqn:Ht; [right | left; reflexivity].
    destruct v; simpl in H, Ht; try discriminate; try congruence;
      try (rewrite Ht in H; discriminate).
    eauto. }
  destruct Hv as [Ht|(s & -> & Ht)]; rewrite Ht.
  - exists (Fin 0). split; [reflexivity|].
    intros (s0 & [= ->] & Hne & _). simpl in Ht.
    apply negb_false_iff, String.eqb_eq in Ht. contradiction.
  - eexists. split; [reflexivity|].
    intros (s0 & [= <-] & _ & Hp). exact Hp.
Qed.

Lemma order_items_from_NaN (l : list value) :
  forallb numbered_item l = true ->
  reduce (fun max_item li =>
            num <- line_item_number li ;;
            Normal (math_max max_item num))
         l NaN = Normal NaN.
Proof.
  induction l as [|li l IH]; simpl; intros H; [reflexivity|].
  apply andb_true_iff in H. destruct H as [Hli H].
  destruct (line_item_number_numbered li Hli) as (n & -> & _). cbn [bind].
  apply IH, H.
Qed.

Lemma order_items_total (l : list value) (m : number) :
  forallb numbered_item l = true ->
  exists m',
    reduce (fun max_item li =>
              num <- line_item_number li ;;
              Normal (math_max max_item num))
           l m = Normal m'
    /\ (Exists reads_NaN l -> m' = NaN).
Proof.
  revert m; induction l as [|li l IH]; simpl; intros m H.
  - eexists. split; [reflexivity|]. intros He. inversion He.
  - apply andb_true_iff in H. destruct H as [Hli H].
    destruct (line_item_number_numbered li Hli) as (n & -> & Hn). cbn [bind].
    destruct (IH (math_max m n) H) as (m' & Hm' & HNaN).
    exists m'. split; [exact Hm'|].
    intros He. inversion He as [? ? Hh|? ? Ht]; subst; [|exact (HNaN Ht)].
    rewrite (Hn Hh), math_max_NaN_r, order_items_from_NaN in Hm' by exact H.
    congruence.
Qed.

Lemma numbered_order_items (o : value) :
  numbered_order o = true ->
  exists lis,
    get o "line_items" = Normal lis
    /\ as_array (js_or lis (VArr [])) = Normal (stored_items o)
    /\ forallb numbered_item (stored_items o) = true.
Proof.
  unfold numbered_order, stored_items.
  destruct (get o "line_items") as [v|]; [|discriminate].
  intros H. exists v. split; [reflexivity|].
  destruct v; simpl in *; try discriminate;
    try (apply negb_true_iff in H; unfold js_or; simpl; rewrite ?H; auto);
    auto.
Qed.

Lemma max_line_item_id_total (orders : list value) (m : number) :
  forallb numbered_order orders = true ->
  exists m',
    reduce (fun max order =>
              lis <- get order "line_items" ;;
              l <- as_array (js_or lis (VArr [])) ;;
              order_max <- reduce (fun max_item li =>
                                     num <- line_item_number li ;;
                                     Normal (math_max max_item num))
                                  l (Fin 0) ;;
              Normal (math_max max order_max))
           orders m = Normal m'
    /\ (m = NaN -> m' = NaN)
    /\ (Exists reads_NaN (stored_line_items orders) -> m' = NaN).
Proof.
  revert m; induction orders as [|o orders IH]; intros m H; simpl in H.
  - exists m. repeat split; auto. intros He. inversion He.
  - apply andb_true_iff in H. destruct H as [Ho H].
    destruct (numbered_order_items o Ho) as (lis & Hg & Ha & Hitems).
    destruct (order_items_total (stored_items o) (Fin 0) Hitems)
      as (om & Hom & HomNaN).
    cbn [reduce]. rewrite Hg. cbn [bind]. rewrite Ha. cbn [bind].
    rewrite Hom. cbn [bind].
    destruct (IH (math_max m om) H) as (m' & Hm' & Hstart & HNaN).
    exists m'. split; [exact Hm'|]. split.
    + intros ->. apply Hstart. reflexivity.
    + intros He. unfold stored_line_items in He. simpl in He.
      apply Exists_app in He. destruct He as [He|He].
      * apply Hstart. rewrite (HomNaN He). apply math_max_NaN_r.
      * apply HNaN, He.
Qed.









(** C7 (as stated) fails on a collection reached by one create: the payload
    item's [line_item_id] 7, a number, is stored unchanged, and from then on
    POST /orders throws on a payload whose [line_items] is usable. *)
Lemma usable_line_items_rejected_after_numeric_id :
  let orders := next_store [] (Create numeric_label_payload "t1") in
  stored_line_items orders = [VObj [("line_item_id", VNum (Fin 7))]]
  /\ has_summable_line_items empty_payload = true
  /\ create orders empty_payload "t2" = TypeError
  /\ has_summable_line_items unlabelled_payload = true
  /\ create orders unlabelled_payload "t2" = TypeError.
Proof.
  repeat split; reflexivity.
Qed.

(** ** The identifier of a new order *)




(** C2 (as stated) fails on a collection reached by two creates and two
    updates that write negative ids: the maximum of the ids is -4, so that
    the claimed id is "-3", but the create handler starts its maximum from 0
    and assigns "1". *)
Lemma negative_ids_are_succeeded_by_one :
  let orders :=
    next_store (next_store two_orders
                           (Update "1" (VObj [("order_id", VStr "-4")])))
               (Update "2" (VObj [("order_id", VStr "-9")])) in
  map id_number orders = [Some (-4); Some (-9)]
  /\ decimal (maximum [-4; -9] + 1) = "-3"
  /\ new_order_id orders = Normal "1"
  /\ map stored_id (next_store orders (Create empty_payload "t3"))
     = [VStr "-4"; VStr "-9"; VStr "1"].
Proof.
  repeat split; reflexivity.
Qed.

(** ** The shape of a created order *)




(** ** The packing view *)



Lemma lookup_In (k : string) (ps : list (string * value)) (v : value) :
  lookup k ps = Some v -> In (k, v) ps.
Proof.
  induction ps as [|[k' w] ps IH]; simpl; [discriminate|].
  destruct (lookup k ps) as [u|].
  - intros [= ->]. right. apply IH. reflexivity.
  - destruct (String.eqb k k') eqn:E; [|discriminate].
    apply String.eqb_eq in E. intros [= ->]. left. congruence.
Qed.

Lemma In_lookup_nodup (t : list (string * value)) (k : string) (w : value) :
  NoDup (map fst t) -> In (k, w) t -> lookup k t = Some w.
Proof.
  induction t as [|[k' w'] t IH]; simpl; intros Hnd Hin; [contradiction|].
  inversion Hnd as [|? ? Hnin Hnd']; subst. destruct Hin as [[= -> ->]|Hin].
  - apply has_key_false_in, lookup_none in Hnin. rewrite Hnin, String.eqb_refl.
    reflexivity.
  - rewrite (IH Hnd' Hin). reflexivity.
Qed.








(** ** The picking list *)

Lemma first_occurrences_In (l : list string) (k : string) :
  In k (first_occurrences l) <-> In k l.
Proof.
  induction l as [|x l IH]; simpl; [tauto|].
  rewrite filter_In, IH, negb_true_iff, String.eqb_neq.
  destruct (string_dec x k); intuition congruence.
Qed.

Lemma first_occurrences_NoDup (l : list string) : NoDup (first_occurrences l).
Proof.
  induction l as [|x l IH]; simpl; constructor.
  - rewrite filter_In, negb_true_iff, String.eqb_neq. tauto.
  - apply NoDup_filter, IH.
Qed.

Lemma first_occurrences_snoc (l : list string) (k : string) :
  first_occurrences (l ++ [k])
  = if in_dec string_dec k l then first_occurrences l
    else (first_occurrences l ++ [k])%list.
Proof.
  induction l as [|x l IH]; simpl; [reflexivity|].
  rewrite IH.
  destruct (in_dec string_dec k l) as [Hin|Hnin].
  - destruct (string_dec x k); reflexivity.
  - rewrite filter_app. simpl.
    destruct (string_dec x k) as [->|Hne].
    + rewrite String.eqb_refl. simpl. rewrite app_nil_r. reflexivity.
    + assert (E : String.eqb k x = false) by (apply String.eqb_neq; congruence).
      rewrite E. reflexivity.
Qed.

Lemma occurrences_snoc (l : list string) (key k : string) :
  occurrences k (l ++ [key])
  = occurrences k l + (if String.eqb k key then 1 else 0).
Proof.
  unfold occurrences. rewrite count_occ_app. simpl.
  destruct (string_dec key k) as [->|Hne].
  - rewrite String.eqb_refl. lia.
  - assert (E : String.eqb k key = false) by (apply String.eqb_neq; congruence).
    rewrite E. lia.
Qed.

Lemma lookup_keyed_In (g : string -> value) (ks : list string) (k : string) :
  In k ks -> lookup k (map (fun k => (k, g k)) ks) = Some (g k).
Proof.
  induction ks as [|x ks IH]; simpl; [tauto|].
  destruct (in_dec string_dec k ks) as [Hin|Hnin].
  - intros _. rewrite (IH Hin). reflexivity.
  - intros [->|Hin]; [|contradiction].
    assert (Hn : lookup k (map (fun k => (k, g k)) ks) = None).
    { apply lookup_none, has_key_false_in. rewrite map_map. simpl.
      rewrite map_id. exact Hnin. }
    rewrite Hn, String.eqb_refl. reflexivity.
Qed.

Lemma lookup_keyed_not_In (g : string -> value) (ks : list string) (k : string) :
  ~ In k ks -> lookup k (map (fun k => (k, g k)) ks) = None.
Proof.
  intros Hnin. apply lookup_none, has_key_false_in. rewrite map_map. simpl.
  rewrite map_id. exact Hnin.
Qed.

Lemma replace_member_keyed (g : string -> value) (ks : list string)
  (key : string) (v : value) :
  NoDup ks ->
  replace_member key v (map (fun k => (k, g k)) ks)
  = map (fun k => (k, if String.eqb k key then v else g k)) ks.
Proof.
  induction 1 as [|x ks Hx Hnd IH]; simpl; [reflexivity|].
  destruct (String.eqb key x) eqn:E.
  - apply String.eqb_eq in E. subst x. rewrite String.eqb_refl. f_equal.
    apply map_ext_in. intros k Hk.
    assert (E : String.eqb k key = false)
      by (apply String.eqb_neq; intros ->; contradiction).
    rewrite E. reflexivity.
  - rewrite String.eqb_sym, E. f_equal. exact IH.
Qed.

Lemma occurrences_le_length (k : string) (l : list string) :
  0 <= occurrences k l <= Z.of_nat (List.length l).
Proof.
  unfold occurrences. pose proof (count_occ_bound string_dec k l). lia.
Qed.

(** One more occurrence of a plain name turns the tally of the names seen so
    far into the tally with that name added. *)
Lemma count_name_step (done : list string) (key : string) :
  plain_name key = true ->
  Z.of_nat (List.length done) + 1 <= max_safe_integer ->
  count_name (tally done) key = Normal (tally (done ++ [key])).
Proof.
  intros Hplain Hb. unfold plain_name in Hplain.
  pose proof (occurrences_le_length key done) as Hocc.
  unfold max_safe_integer in Hb.
  destruct (array_index key) eqn:Hidx; [discriminate|].
  apply negb_true_iff in Hplain.
  assert (Hproto : String.eqb key "__proto__" = false).
  { destruct (String.eqb key "__proto__") eqn:E; [|reflexivity].
    apply String.eqb_eq in E. subst key. discriminate. }
  unfold count_name, assign. rewrite Hproto. unfold get, tally.
  destruct (in_dec string_dec key done) as [Hin|Hnin].
  - rewrite (lookup_keyed_In _ _ key) by (apply first_occurrences_In; exact Hin).
    cbn [bind].
    assert (Hpos : 0 < occurrences key done).
    { unfold occurrences. apply (count_occ_In string_dec) in Hin. lia. }
    assert (Ht : truthy (VNum (Fin (occurrences key done))) = true).
    { simpl. apply negb_true_iff, Z.eqb_neq. lia. }
    unfold js_or. rewrite Ht, js_add_fin by lia. cbn [bind]. f_equal.
    unfold define.
    assert (Hk : has_key key
                   (map (fun k => (k, VNum (Fin (occurrences k done))))
                        (first_occurrences done)) = true).
    { apply has_key_in. rewrite map_map. simpl. rewrite map_id.
      apply first_occurrences_In. exact Hin. }
    rewrite Hk, replace_member_keyed by apply first_occurrences_NoDup.
    rewrite first_occurrences_snoc.
    destruct (in_dec string_dec key done); [|contradiction].
    apply map_ext. intros k. rewrite occurrences_snoc.
    destruct (String.eqb k key) eqn:E; [|rewrite Z.add_0_r; reflexivity].
    apply String.eqb_eq in E. subst k. reflexivity.
  - rewrite lookup_keyed_not_In by (rewrite first_occurrences_In; exact Hnin).
    rewrite Hplain. cbn [bind].
    rewrite js_or_falsy, js_add_fin by (try reflexivity; simpl; lia).
    cbn [bind]. f_equal.
    unfold define.
    assert (Hk : has_key key
                   (map (fun k => (k, VNum (Fin (occurrences k done))))
                        (first_occurrences done)) = false).
    { apply has_key_false_in. rewrite map_map. simpl. rewrite map_id.
      rewrite first_occurrences_In. exact Hnin. }
    rewrite Hk, Hidx, first_occurrences_snoc.
    destruct (in_dec string_dec key done); [contradiction|].
    rewrite map_app. simpl. f_equal.
    + apply map_ext_in. intros k Hin. rewrite occurrences_snoc.
      assert (E : String.eqb k key = false).
      { apply String.eqb_neq. intros ->.
        apply (proj1 (first_occurrences_In _ _)) in Hin. contradiction. }
      rewrite E, Z.add_0_r. reflexivity.
    + rewrite occurrences_snoc, String.eqb_refl.
      unfold occurrences. rewrite (proj1 (count_occ_not_In string_dec done key) Hnin).
      reflexivity.
Qed.



Section PickingWithMapping.

Variable pm : list (string * value).
Hypothesis Hpm : pickable_mapping pm = true.

(** An invariant [inv] of the count, kept by the step on the names that [ok]
    accepts. *)
Variable inv : list (string * value) -> list string -> Prop.
Variable ok : string -> bool.
Hypothesis Hstep :
  forall aggregated done key,
    inv aggregated done ->
    ok key = true ->
    Z.of_nat (List.length done) + 1 <= max_safe_integer ->
    exists aggregated',
      count_name aggregated key = Normal aggregated'
      /\ inv aggregated' (done ++ [key]).

Lemma count_product_spec (aggregated : list (string * value))
  (done : list string) (p : value) :
  inv aggregated done ->
  product_ok p = true ->
  ok (product_name_of p) = true ->
  Z.of_nat (List.length done) + 1 <= max_safe_integer ->
  exists aggregated',
    count_product aggregated p = Normal aggregated'
    /\ inv aggregated' (done ++ [product_name_of p]).
Proof.
  unfold product_ok, product_name_of, count_product.
  destruct (get p "product_name") as [v|]; [|discriminate].
  intros Hinv Hv. destruct (proj1 (to_string_convertible v) Hv) as [key Hkey].
  cbn [bind]. rewrite Hkey. cbn [bind]. apply Hstep, Hinv.
Qed.

Lemma count_products_spec (l : list value) (aggregated : list (string * value))
  (done : list string) :
  inv aggregated done ->
  forallb product_ok l = true ->
  forallb ok (map product_name_of l) = true ->
  Z.of_nat (List.length (done ++ map product_name_of l)) <= max_safe_integer ->
  exists aggregated',
    reduce count_product l aggregated = Normal aggregated'
    /\ inv aggregated' (done ++ map product_name_of l).
Proof.
  revert aggregated done; induction l as [|p l IH];
    intros aggregated done Hinv Hok Hnames Hb; simpl in *.
  - rewrite app_nil_r. eauto.
  - apply andb_true_iff in Hok. destruct Hok as [Hp Hl].
    apply andb_true_iff in Hnames. destruct Hnames as [Hn Hns].
    rewrite length_app in Hb. cbn [List.length] in Hb.
    destruct (count_product_spec aggregated done p Hinv Hp Hn)
      as (agg1 & -> & Hinv1); [lia|].
    cbn [bind].
    destruct (IH agg1 (done ++ [product_name_of p])%list Hinv1 Hl Hns)
      as (agg2 & -> & Hinv2).
    + rewrite !length_app. cbn [List.length]. lia.
    + rewrite <- app_assoc in Hinv2. eauto.
Qed.

Lemma pickable_lookup_ok (key : string) (m : value) :
  lookup key pm = Some m -> pickable_entry m = true.
Proof.
  intros Hl. apply lookup_In in Hl.
  unfold pickable_mapping in Hpm. rewrite forallb_forall in Hpm.
  apply (Hpm (key, m) Hl).
Qed.

Lemma pick_line_item_spec (aggregated : list (string * value))
  (done : list string) (li : value) :
  inv aggregated done ->
  pickable_item li = true ->
  forallb ok (map product_name_of (decomposition pm li)) = true ->
  Z.of_nat (List.length (done ++ map product_name_of (decomposition pm li)))
  <= max_safe_integer ->
  exists aggregated',
    pick_line_item pm aggregated li = Normal aggregated'
    /\ inv aggregated' (done ++ map product_name_of (decomposition pm li)).
Proof.
  intros Hinv Hli. unfold pickable_item in Hli.
  unfold pick_line_item, decomposition, mapping_entry.
  unfold product_key in *.
  destruct (get li "product_id") as [pid|]; [|discriminate].
  cbn [bind] in *.
  destruct (to_string pid) as [key|]; [|discriminate]. cbn [bind].
  unfold get.
  destruct (lookup key pm) as [m|] eqn:Hm.
  - pose proof (pickable_lookup_ok key m Hm) as Hok.
    unfold pickable_entry in Hok.
    destruct m as [| | | | | |mps|]; try discriminate.
    cbn [bind truthy].
    destruct (lookup "products" mps) as [[| | | | |l| |]|]; try discriminate.
    cbn [bind truthy as_array]. intros Hnames Hb.
    apply count_products_spec; assumption.
  - intros _ _. simpl map. rewrite app_nil_r.
    destruct (mem_string key object_prototype_names); simpl; eauto.
Qed.

Lemma pick_line_items_spec (l : list value) (aggregated : list (string * value))
  (done : list string) :
  inv aggregated done ->
  forallb pickable_item l = true ->
  forallb ok (flat_map (fun li => map product_name_of (decomposition pm li)) l)
  = true ->
  Z.of_nat (List.length
              (done ++ flat_map (fun li => map product_name_of
                                               (decomposition pm li)) l))
  <= max_safe_integer ->
  exists aggregated',
    reduce (pick_line_item pm) l aggregated = Normal aggregated'
    /\ inv aggregated'
           (done ++ flat_map (fun li => map product_name_of
                                            (decomposition pm li)) l).
Proof.
  revert aggregated done; induction l as [|li l IH];
    intros aggregated done Hinv Hok Hnames Hb; simpl in *.
  - rewrite app_nil_r. eauto.
  - apply andb_true_iff in Hok. destruct Hok as [Hli Hl].
    rewrite forallb_app in Hnames. apply andb_true_iff in Hnames.
    destruct Hnames as [Hn Hns].
    rewrite !length_app in Hb.
    destruct (pick_line_item_spec aggregated done li Hinv Hli Hn)
      as (agg1 & -> & Hinv1); [rewrite length_app; lia|].
    cbn [bind].
    destruct (IH agg1 _ Hinv1 Hl Hns) as (agg2 & -> & Hinv2).
    + rewrite !length_app. lia.
    + rewrite <- app_assoc in Hinv2. eauto.
Qed.

Lemma pickable_order_items (o : value) :
  pickable_order o = true ->
  exists lis,
    get o "line_items" = Normal lis
    /\ as_array (js_or lis (VArr [])) = Normal (stored_items o)
    /\ forallb pickable_item (stored_items o) = true.
Proof.
  unfold pickable_order, stored_items.
  destruct (get o "line_items") as [v|]; [|discriminate].
  intros H. exists v. split; [reflexivity|].
  destruct v; simpl in *; try discriminate;
    try (apply negb_true_iff in H; unfold js_or; simpl; rewrite ?H; auto);
    auto.
Qed.

Lemma pick_orders_spec (orders : list value) (aggregated : list (string * value))
  (done : list string) :
  inv aggregated done ->
  forallb pickable_order orders = true ->
  forallb ok (picked_names pm orders) = true ->
  Z.of_nat (List.length (done ++ picked_names pm orders)) <= max_safe_integer ->
  exists aggregated',
    reduce (pick_order pm) orders aggregated = Normal aggregated'
    /\ inv aggregated' (done ++ picked_names pm orders).
Proof.
  unfold picked_names, stored_line_items.
  revert aggregated done; induction orders as [|o orders IH];
    intros aggregated done Hinv Hok Hnames Hb; simpl in *.
  - rewrite app_nil_r. eauto.
  - apply andb_true_iff in Hok. destruct Hok as [Ho Hos].
    rewrite flat_map_app, forallb_app in Hnames.
    apply andb_true_iff in Hnames. destruct Hnames as [Hn Hns].
    rewrite flat_map_app, !length_app in Hb.
    destruct (pickable_order_items o Ho) as (lis & Hg & Ha & Hitems).
    unfold pick_order at 1. rewrite Hg. cbn [bind]. rewrite Ha. cbn [bind].
    destruct (pick_line_items_spec _ aggregated done Hinv Hitems Hn)
      as (agg1 & -> & Hinv1); [rewrite length_app; lia|].
    cbn [bind].
    destruct (IH agg1 _ Hinv1 Hos Hns) as (agg2 & -> & Hinv2).
    + rewrite !length_app. lia.
    + rewrite flat_map_app, <- app_assoc in *. eauto.
Qed.

End PickingWithMapping.

(** The list of GET /picking is the tally when the names are plain. *)
Lemma picking_tally (pm : list (string * value)) (orders : list value) :
  pickable_mapping pm = true ->
  forallb pickable_order orders = true ->
  forallb plain_name (picked_names pm orders) = true ->
  Z.of_nat (List.length (picked_names pm orders)) <= max_safe_integer ->
  picking pm orders
  = Normal {| status := 200;
              body := VArr (map picking_entry (tally (picked_names pm orders))) |}.
Proof.
  intros Hpm Ho Hplain Hb. unfold picking.
  destruct (pick_orders_spec pm Hpm (fun agg done => agg = tally done) plain_name)
    with (orders := orders) (aggregated := @nil (string * value))
         (done := @nil string) as (agg & -> & ->); auto.
  intros agg done key -> Hk Hbd. eexists. split; [|reflexivity].
  apply count_name_step; assumption.
Qed.




(** * Further properties of the handlers *)

(** ** Looking an order up by identifier *)

Lemma passed_over_step (id : string) (o : value) (r : list value) :
  passed_over id o ->
  find_index id (o :: r) = (i <- find_index id r ;; Normal (option_map S i))
  /\ find_order id (o :: r) = find_order id r.
Proof.
  intros [Hnn Hid].
  destruct (get_not_nullish o "order_id" Hnn) as [oid Hoid].
  simpl. rewrite Hoid. cbn [bind].
  destruct oid; try (split; reflexivity).
  destruct (String.eqb s id) eqn:E; [|split; reflexivity].
  apply String.eqb_eq in E. subst s. contradiction.
Qed.

Lemma found_step (id : string) (o : value) (r : list value) :
  has_id id o ->
  find_index id (o :: r) = Normal (Some O) /\ find_order id (o :: r) = Normal o.
Proof.
  unfold has_id. intros H. simpl. rewrite H. cbn [bind].
  rewrite String.eqb_refl. split; reflexivity.
Qed.

Lemma first_match_found (id : string) (orders : list value) (n : nat) (o : value) :
  first_match id orders n o ->
  find_index id orders = Normal (Some n) /\ find_order id orders = Normal o.
Proof.
  revert orders; induction n as [|n IH]; intros [|x orders] (Hnth & Hid & Hpre);
    simpl in Hnth; try discriminate.
  - injection Hnth as ->. apply found_step, Hid.
  - simpl in Hpre. inversion Hpre as [|? ? Hx Hrest]; subst.
    destruct (passed_over_step id x orders Hx) as [-> ->].
    destruct (IH orders (conj Hnth (conj Hid Hrest))) as [-> ->].
    split; reflexivity.
Qed.

Lemma no_match_found (id : string) (orders : list value) :
  Forall (passed_over id) orders ->
  find_index id orders = Normal None /\ find_order id orders = Normal VUndef.
Proof.
  induction 1 as [|x orders Hx _ [IH1 IH2]]; [split; reflexivity|].
  destruct (passed_over_step id x orders Hx) as [-> ->].
  rewrite IH1, IH2. split; reflexivity.
Qed.

Lemma remove_nth_firstn_skipn {A : Type} (n : nat) (l : list A) :
  remove_nth n l = (firstn n l ++ skipn (S n) l)%list.
Proof.
  revert n; induction l as [|x l IH]; intros [|n]; simpl; try reflexivity.
  f_equal. apply IH.
Qed.

(** X1.  DELETE /orders/:orderId removes exactly the first order that the
    identifier designates and answers with it: the orders before and after it
    stay, in sequence.  When the lookup passes over every order, the answer is
    "Order not found" (404) and the collection is unchanged. *)
Theorem delete_removes_first_match (orders : list value) (id : string) :
  (Forall (passed_over id) orders ->
   delete orders id = Normal (orders, not_found))
  /\ (forall n o,
         first_match id orders n o ->
         delete orders id
         = Normal ((firstn n orders ++ skipn (S n) orders)%list,
                   {| status := 200; body := o |})).
Proof.
  split.
  - intros H. unfold delete.
    destruct (no_match_found id orders H) as [-> _]. reflexivity.
  - intros n o H. unfold delete.
    destruct (first_match_found id orders n o H) as [-> _]. cbn [bind].
    destruct H as (Hnth & _). rewrite (nth_error_nth _ _ VUndef Hnth).
    rewrite remove_nth_firstn_skipn. reflexivity.
Qed.

Lemma delete_removes_first_match_witness :
  delete two_orders "9" = Normal (two_orders, not_found)
  /\ delete two_orders "2"
     = Normal ((firstn 1%nat two_orders ++ skipn 2%nat two_orders)%list,
               {| status := 200; body := nth 1%nat two_orders VUndef |}).
Proof.
  split.
  - apply (proj1 (delete_removes_first_match two_orders "9")).
    constructor; [|constructor; [|constructor]];
      (split; [reflexivity | unfold has_id; vm_compute; discriminate]).
  - apply (proj2 (delete_removes_first_match two_orders "2") 1%nat
             (nth 1%nat two_orders VUndef)).
    split; [reflexivity|]. split; [reflexivity|].
    constructor; [|constructor].
    split; [reflexivity | unfold has_id; vm_compute; discriminate].
Defined.

Lemma get_order_found (orders : list value) (id : string) (n : nat) (o : value) :
  first_match id orders n o ->
  get_order orders id = Normal {| status := 200; body := o |}.
Proof.
  intros H. unfold get_order.
  destruct (first_match_found id orders n o H) as [_ ->]. cbn [bind].
  destruct H as (_ & Hid & _).
  destruct (has_id_object id o Hid) as [ps ->]. reflexivity.
Qed.

Lemma get_order_missing (orders : list value) (id : string) :
  Forall (passed_over id) orders -> get_order orders id = Normal not_found.
Proof.
  intros H. unfold get_order.
  destruct (no_match_found id orders H) as [_ ->]. reflexivity.
Qed.

(** X2.  GET /orders/:orderId answers 200 with the first order that the
    identifier designates, and "Order not found" (404) when the lookup passes
    over every order. *)
Theorem get_order_returns_first_match (orders : list value) (id : string) :
  (Forall (passed_over id) orders -> get_order orders id = Normal not_found)
  /\ (forall n o,
         first_match id orders n o ->
         get_order orders id = Normal {| status := 200; body := o |}).
Proof.
  split.
  - intros H. unfold get_order.
    destruct (no_match_found id orders H) as [_ ->]. reflexivity.
  - intros n o H. unfold get_order.
    destruct (first_match_found id orders n o H) as [_ ->]. cbn [bind].
    destruct H as (_ & Hid & _).
    destruct (has_id_object id o Hid) as [ps ->]. reflexivity.
Qed.

Lemma get_order_returns_first_match_witness :
  get_order two_orders "9" = Normal not_found
  /\ get_order two_orders "2"
     = Normal {| status := 200; body := nth 1%nat two_orders VUndef |}.
Proof.
  split.
  - apply (proj1 (get_order_returns_first_match two_orders "9")).
    constructor; [|constructor; [|constructor]];
      (split; [reflexivity | unfold has_id; vm_compute; discriminate]).
  - apply (proj2 (get_order_returns_first_match two_orders "2") 1%nat
             (nth 1%nat two_orders VUndef)).
    split; [reflexivity|]. split; [reflexivity|].
    constructor; [|constructor].
    split; [reflexivity | unfold has_id; vm_compute; discriminate].
Defined.

Lemma lookup_throws (id : string) (orders : list value) :
  (find_index id orders = TypeError <-> null_before_match id orders)
  /\ (find_order id orders = TypeError <-> null_before_match id orders).
Proof.
  induction orders as [|x orders [IH1 IH2]].
  - split; (split; [discriminate|]); intros (n & o & Hn & _);
      destruct n; discriminate.
  - destruct (nullish x) eqn:Hx.
    + assert (Hnull : null_before_match id (x :: orders)).
      { exists O, x. repeat split; auto. }
      assert (Hg : get x "order_id" = TypeError)
        by (destruct x; try discriminate; reflexivity).
      simpl. rewrite Hg. cbn [bind]. split; split; auto.
    + destruct (has_id_dec id x) as [Hid|Hid].
      * destruct (found_step id x orders Hid) as [-> ->].
        split; (split; [discriminate|]); intros (n & o & Hn & Ho & Hpre);
          destruct n; simpl in *.
        -- injection Hn as <-. congruence.
        -- inversion Hpre; subst. contradiction.
        -- injection Hn as <-. congruence.
        -- inversion Hpre; subst. contradiction.
      * destruct (passed_over_step id x orders (conj Hx Hid)) as [-> ->].
        assert (Hshift : null_before_match id (x :: orders)
                         <-> null_before_match id orders).
        { split.
          - intros (n & o & Hn & Ho & Hpre). destruct n; simpl in *.
            + injection Hn as <-. congruence.
            + inversion Hpre; subst. exists n, o. auto.
          - intros (n & o & Hn & Ho & Hpre). exists (S n), o.
            simpl. repeat split; auto. }
        rewrite Hshift. split; [|exact IH2].
        rewrite <- IH1.
        destruct (find_index id orders); simpl; split; congruence.
Qed.

(** X3.  The three handlers that look an order up by identifier throw
    exactly when the stored collection has a [null] element before any order
    with that identifier; a [null] element after the order found is never
    inspected. *)
Theorem lookup_throws_iff_null_before_match
  (orders : list value) (id : string) (payload : value) :
  (get_order orders id = TypeError <-> null_before_match id orders)
  /\ (update orders id payload = TypeError <-> null_before_match id orders)
  /\ (delete orders id = TypeError <-> null_before_match id orders).
Proof.
  destruct (lookup_throws id orders) as [Hi Ho].
  repeat split; intros H.
  - apply Ho. unfold get_order in H.
    destruct (find_order id orders) as [v|]; [|reflexivity].
    simpl in H. destruct (truthy v); discriminate.
  - apply Ho in H. unfold get_order. rewrite H. reflexivity.
  - apply Hi. unfold update in H.
    destruct (find_index id orders) as [[n|]|]; try reflexivity; discriminate.
  - apply Hi in H. unfold update. rewrite H. reflexivity.
  - apply Hi. unfold delete in H.
    destruct (find_index id orders) as [[n|]|]; try reflexivity; discriminate.
  - apply Hi in H. unfold delete. rewrite H. reflexivity.
Qed.

(** ** Lookups after a mutation *)

Lemma nth_error_split {A : Type} (l : list A) (n : nat) (x : A) :
  nth_error l n = Some x -> l = (firstn n l ++ x :: skipn (S n) l)%list.
Proof.
  revert n; induction l as [|y l IH]; intros [|n] H; simpl in *;
    try discriminate.
  - congruence.
  - f_equal. apply IH, H.
Qed.

Lemma firstn_set_nth {A : Type} (n : nat) (x : A) (l : list A) :
  firstn n (set_nth n x l) = firstn n l.
Proof.
  revert n; induction l as [|y l IH]; intros [|n]; simpl; try reflexivity.
  f_equal. apply IH.
Qed.

Lemma length_set_nth {A : Type} (n : nat) (x : A) (l : list A) :
  List.length (set_nth n x l) = List.length l.
Proof.
  revert n; induction l as [|y l IH]; intros [|n]; simpl; auto.
Qed.

Lemma nth_error_set_nth_other {A : Type} (n j : nat) (x : A) (l : list A) :
  j <> n -> nth_error (set_nth n x l) j = nth_error l j.
Proof.
  revert n j; induction l as [|y l IH]; intros [|n] [|j] H; simpl;
    try reflexivity; try congruence.
  apply IH. congruence.
Qed.

Lemma has_id_stored_id (id : string) (o : value) :
  has_id id o -> stored_id o = VStr id.
Proof. unfold has_id, stored_id. intros ->. reflexivity. Qed.

Lemma update_first_match (orders : list value) (id : string) (payload : value)
  (n : nat) (o : value) :
  first_match id orders n o ->
  exists ps,
    o = VObj ps
    /\ update orders id payload
       = Normal (set_nth n (VObj (spread payload (spread (VObj ps) []))) orders,
                 {| status := 200;
                    body := VObj (spread payload (spread (VObj ps) [])) |}).
Proof.
  intros H. destruct (first_match_found id orders n o H) as [Hi _].
  destruct H as (Hnth & Hid & _).
  destruct (has_id_object id o Hid) as [ps ->]. exists ps.
  split; [reflexivity|]. unfold update. rewrite Hi. cbn [bind].
  rewrite (nth_error_nth _ _ VUndef Hnth). reflexivity.
Qed.

Lemma reloaded_passed_over (orders : list value) (id : string) :
  Forall numeric_id orders ->
  ~ In (VStr id) (map stored_id orders) ->
  Forall (passed_over id) (reloaded orders).
Proof.
  intros Hnum Hfresh.
  destruct (numeric_ids_reloaded orders Hnum) as [Hn Hs].
  rewrite <- Hs in Hfresh.
  apply Forall_forall. intros o Ho. split.
  - rewrite Forall_forall in Hn. destruct (Hn o Ho) as (s & z & Hg & _).
    destruct o; try reflexivity; discriminate.
  - intros Hh. apply Hfresh. apply in_map_iff. exists o.
    split; [apply has_id_stored_id, Hh | exact Ho].
Qed.

(** X4.  An order that POST /orders has just created is the one GET
    /orders/:orderId returns for its new identifier, when the identifiers
    stored before were numeric strings (within the safe integers): the next
    request loads the saved collection and answers with the created order as
    its JSON text gives it back, which is what POST sent. *)
Theorem created_order_can_be_fetched
  (orders : list value) (d : value) (now : string)
  (orders' : list value) (resp : response) :
  Forall numeric_id orders ->
  safe_ids orders ->
  create orders d now = Normal (orders', resp) ->
  exists id,
    get (body resp) "order_id" = Normal (VStr id)
    /\ get_order (reloaded orders') id
       = Normal {| status := 200; body := json_element (body resp) |}.
Proof.
  intros Hnum Hsafe Hc. apply create_normal in Hc.
  destruct Hc as (id & total & items & sa & cn & ce & Hid & _ & _ & _ & _ & _
                  & Hb & _ & ->).
  destruct (new_order_id_fresh orders id Hnum Hsafe Hid) as [Hfresh _].
  assert (Hg : get (body resp) "order_id" = Normal (VStr id))
    by (rewrite Hb; reflexivity).
  exists id. split; [exact Hg|].
  unfold reloaded. rewrite map_app. cbn [map].
  apply (get_order_found _ id (List.length (map json_element orders))).
  repeat split.
  - rewrite nth_error_app2, Nat.sub_diag by lia. reflexivity.
  - apply get_json_string, Hg.
  - rewrite firstn_app, Nat.sub_diag, firstn_all. simpl. rewrite app_nil_r.
    apply reloaded_passed_over; assumption.
Qed.

Lemma created_order_can_be_fetched_witness :
  exists id,
    get third_order "order_id" = Normal (VStr id)
    /\ get_order (reloaded (two_orders ++ [third_order])) id
       = Normal {| status := 200; body := json_element third_order |}.
Proof.
  apply (created_order_can_be_fetched
           two_orders empty_payload "t3" (two_orders ++ [third_order])
           {| status := 201; body := third_order |}).
  - repeat constructor.
    + exists "1", 1. split; reflexivity.
    + exists "2", 2. split; reflexivity.
  - repeat constructor; intros n H; vm_compute in H; injection H as <-;
      vm_compute; discriminate.
  - reflexivity.
Defined.

(** X5.  After PUT /orders/:orderId with a payload that has no [order_id]
    member, GET /orders/:orderId with the same identifier answers with the
    merged order that the update returned. *)
Theorem updated_order_can_be_fetched
  (orders : list value) (id : string) (payload : value) (n : nat) (o : value) :
  first_match id orders n o ->
  has_key "order_id" (own_entries payload) = false ->
  exists orders' merged,
    update orders id payload
    = Normal (orders', {| status := 200; body := merged |})
    /\ get_order orders' id = Normal {| status := 200; body := merged |}.
Proof.
  intros H Hk.
  destruct (update_first_match orders id payload n o H) as (ps & -> & Hu).
  do 2 eexists. split; [exact Hu|].
  destruct H as (Hnth & Hid & Hpre).
  apply (get_order_found _ id n). repeat split.
  - eapply nth_error_set_nth; exact Hnth.
  - unfold has_id. rewrite merged_keeps_order_id by exact Hk. exact Hid.
  - rewrite firstn_set_nth. exact Hpre.
Qed.

Lemma updated_order_can_be_fetched_witness :
  exists orders' merged,
    update two_orders "2" (VObj [("customer_name", VStr "Bob")])
    = Normal (orders', {| status := 200; body := merged |})
    /\ get_order orders' "2" = Normal {| status := 200; body := merged |}.
Proof.
  apply (updated_order_can_be_fetched
           two_orders "2" (VObj [("customer_name", VStr "Bob")]) 1
           (nth 1 two_orders VUndef)).
  - split; [reflexivity|]. split; [reflexivity|].
    constructor; [|constructor].
    split; [reflexivity | unfold has_id; vm_compute; discriminate].
  - reflexivity.
Defined.

(** X7.  PUT /orders/:orderId changes one position of the collection only:
    the collection keeps its length and every order other than the first one
    with the identifier is stored unchanged, whatever the payload. *)
Theorem update_leaves_other_orders
  (orders : list value) (id : string) (payload : value) (n : nat) (o : value) :
  first_match id orders n o ->
  exists orders' resp,
    update orders id payload = Normal (orders', resp)
    /\ List.length orders' = List.length orders
    /\ nth_error orders' n = Some (body resp)
    /\ forall j, j <> n -> nth_error orders' j = nth_error orders j.
Proof.
  intros H.
  destruct (update_first_match orders id payload n o H) as (ps & -> & Hu).
  do 2 eexists. split; [exact Hu|]. destruct H as (Hnth & _).
  split; [apply length_set_nth|].
  split; [eapply nth_error_set_nth; exact Hnth|].
  intros j Hj. apply nth_error_set_nth_other, Hj.
Qed.

Lemma update_leaves_other_orders_witness :
  exists orders' resp,
    update two_orders "2" (VObj [("order_id", VStr "9")]) = Normal (orders', resp)
    /\ List.length orders' = List.length two_orders
    /\ nth_error orders' 1 = Some (body resp)
    /\ forall j, j <> 1%nat -> nth_error orders' j = nth_error two_orders j.
Proof.
  apply (update_leaves_other_orders
           two_orders "2" (VObj [("order_id", VStr "9")]) 1
           (nth 1 two_orders VUndef)).
  split; [reflexivity|]. split; [reflexivity|].
  constructor; [|constructor].
  split; [reflexivity | unfold has_id; vm_compute; discriminate].
Defined.

Lemma find_order_skip (id : string) (l1 l2 : list value) (o : value) :
  passed_over id o ->
  find_order id (l1 ++ o :: l2) = find_order id (l1 ++ l2).
Proof.
  intros Ho. induction l1 as [|x l1 IH]; simpl.
  - destruct (passed_over_step id o l2 Ho) as [_ H]. exact H.
  - destruct (get x "order_id") as [oid|]; [|reflexivity]. cbn [bind].
    destruct oid; try exact IH.
    destruct (String.eqb s id); [reflexivity | exact IH].
Qed.

Lemma unique_ids_after (orders : list value) (id : string) (n : nat) (o : value) :
  unique_ids orders ->
  nth_error orders n = Some o ->
  has_id id o ->
  Forall (fun o' => ~ has_id id o') (skipn (S n) orders).
Proof.
  intros Hu Hnth Hid. unfold unique_ids in Hu.
  rewrite (nth_error_split orders n o Hnth), map_app in Hu. simpl in Hu.
  apply NoDup_remove_2 in Hu.
  apply Forall_forall. intros o' Ho' Hid'. apply Hu.
  apply in_or_app. right. apply in_map_iff. exists o'.
  split; [|exact Ho'].
  rewrite (has_id_stored_id id o Hid), (has_id_stored_id id o' Hid').
  reflexivity.
Qed.

(** X6.  After DELETE /orders/:orderId on a collection without [null]
    elements whose identifiers are distinct, GET /orders/:orderId with the
    deleted identifier answers "Order not found", and with any other
    identifier it answers as before the deletion. *)
Theorem deleted_order_cannot_be_fetched
  (orders : list value) (id : string) (n : nat) (o : value) :
  Forall (fun o' => nullish o' = false) orders ->
  unique_ids orders ->
  first_match id orders n o ->
  exists orders',
    delete orders id = Normal (orders', {| status := 200; body := o |})
    /\ get_order orders' id = Normal not_found
    /\ forall id', id' <> id -> get_order orders' id' = get_order orders id'.
Proof.
  intros Hnn Hu H.
  destruct (first_match_found id orders n o H) as [Hi _].
  destruct H as (Hnth & Hid & Hpre).
  exists (firstn n orders ++ skipn (S n) orders)%list.
  split; [|split].
  - unfold delete. rewrite Hi. cbn [bind].
    rewrite (nth_error_nth _ _ VUndef Hnth), remove_nth_firstn_skipn.
    reflexivity.
  - apply get_order_missing. apply Forall_app. split; [exact Hpre|].
    pose proof (unique_ids_after orders id n o Hu Hnth Hid) as Hafter.
    rewrite Forall_forall in *. intros o' Ho'. split.
    + apply Hnn. rewrite (nth_error_split orders n o Hnth).
      apply in_or_app. right. right. exact Ho'.
    + apply Hafter, Ho'.
  - intros id' Hne. unfold get_order.
    rewrite (nth_error_split orders n o Hnth) at 3.
    rewrite find_order_skip; [reflexivity|].
    split.
    + destruct (has_id_object id o Hid) as [ps ->]. reflexivity.
    + unfold has_id in *. rewrite Hid. congruence.
Qed.

Lemma deleted_order_cannot_be_fetched_witness :
  exists orders',
    delete two_orders "1"
    = Normal (orders', {| status := 200; body := nth 0 two_orders VUndef |})
    /\ get_order orders' "1" = Normal not_found
    /\ forall id', id' <> "1" -> get_order orders' id' = get_order two_orders id'.
Proof.
  apply (deleted_order_cannot_be_fetched two_orders "1" 0 (nth 0 two_orders VUndef)).
  - repeat constructor.
  - unfold unique_ids. vm_compute. repeat constructor; simpl; intuition discriminate.
  - split; [reflexivity|]. split; [reflexivity | constructor].
Defined.

(** ** Objects in enumeration order *)

Lemma array_index_numeral (k : string) (i : Z) :
  array_index k = Some i -> k = decimal i /\ 0 <= i.
Proof.
  unfold array_index, parse_digits.
  destruct (digits_prefix k) eqn:Ed; try discriminate;
    match goal with
    | |- context [String.eqb ?a k] => destruct (String.eqb a k) eqn:E
    end; simpl; try discriminate;
    match goal with
    | |- context [?z <=? 4294967294] => destruct (z <=? 4294967294)
    end; try discriminate;
    intros [= <-]; apply String.eqb_eq in E;
    (split; [symmetry; exact E | apply of_uint_nonneg]).
Qed.

Lemma array_index_inj (k k' : string) (i : Z) :
  array_index k = Some i -> array_index k' = Some i -> k = k'.
Proof.
  intros H H'. apply array_index_numeral in H, H'.
  destruct H as [-> _], H' as [-> _]. reflexivity.
Qed.

Lemma ordered_keys_lower (lo : Z) (ks : list string) (k : string) (i : Z) :
  ordered_keys lo ks -> In k ks -> array_index k = Some i -> lo < i.
Proof.
  revert lo; induction ks as [|a ks IH]; intros lo Ho Hin Hk; [contradiction|].
  simpl in Ho. destruct Hin as [->|Hin].
  - rewrite Hk in Ho. tauto.
  - destruct (array_index a) as [j|].
    + destruct Ho as [Hj Ho]. specialize (IH j Ho Hin Hk). lia.
    + rewrite Forall_forall in Ho. specialize (Ho k Hin). congruence.
Qed.

Lemma ordered_keys_insert (i : Z) (k : string) (v : value)
  (t : list (string * value)) :
  array_index k = Some i ->
  ~ In k (map fst t) ->
  forall lo, lo < i ->
    ordered_keys lo (map fst t) ->
    ordered_keys lo (map fst (insert_index i k v t)).
Proof.
  intros Hk. induction t as [|[k' w] t IH]; intros Hnin lo Hlo Ho; simpl in *.
  - rewrite Hk. auto.
  - destruct (array_index k') as [j|] eqn:Hk'.
    + destruct Ho as [Hj Ho]. destruct (j <? i) eqn:Hlt.
      * simpl. rewrite Hk'. split; [exact Hj|].
        apply IH; [tauto | apply Z.ltb_lt; exact Hlt | exact Ho].
      * simpl. rewrite Hk, Hk'. apply Z.ltb_ge in Hlt.
        assert (j <> i).
        { intros ->. apply Hnin. left. eapply array_index_inj; eassumption. }
        repeat split; auto; lia.
    + simpl. rewrite Hk, Hk'. auto.
Qed.

Lemma ordered_keys_append (k : string) (ks : list string) :
  array_index k = None ->
  forall lo, ordered_keys lo ks -> ordered_keys lo (ks ++ [k]).
Proof.
  intros Hk. induction ks as [|a ks IH]; intros lo Ho; simpl in *.
  - rewrite Hk. constructor.
  - destruct (array_index a) as [j|].
    + destruct Ho as [Hj Ho]. split; [exact Hj | apply IH, Ho].
    + apply Forall_app. split; [exact Ho | constructor; [exact Hk | constructor]].
Qed.

Lemma canonical_define (k : string) (v : value) (t : list (string * value)) :
  canonical t -> canonical (define k v t).
Proof.
  intros [Hnd Ho]. split; [apply nodup_define, Hnd|].
  unfold define. destruct (has_key k t) eqn:Hk.
  - rewrite keys_replace_member. exact Ho.
  - apply has_key_false_in in Hk. destruct (array_index k) as [i|] eqn:Hi.
    + apply ordered_keys_insert; auto.
      destruct (array_index_numeral k i Hi). lia.
    + rewrite map_app. apply ordered_keys_append; assumption.
Qed.

Lemma canonical_spread (v : value) (t : list (string * value)) :
  canonical t -> canonical (spread v t).
Proof.
  unfold spread. revert t.
  induction (own_entries v) as [|[k w] es IH]; intros t Ht; simpl; [exact Ht|].
  apply IH, canonical_define, Ht.
Qed.

Lemma canonical_nil : canonical [].
Proof. split; simpl; [constructor | exact I]. Qed.

Lemma ordered_keys_before_index (acc r : list string) (k : string) (i : Z) :
  array_index k = Some i ->
  forall lo,
    ordered_keys lo (acc ++ k :: r) ->
    Forall (fun k' => exists j, array_index k' = Some j /\ j < i) acc.
Proof.
  intros Hk. induction acc as [|a acc IH]; intros lo Ho; [constructor|].
  simpl in Ho. destruct (array_index a) as [j|] eqn:Ha.
  - destruct Ho as [Hj Ho]. constructor; [|eapply IH; exact Ho].
    exists j. split; [exact Ha|].
    eapply (ordered_keys_lower j (acc ++ k :: r) k i); auto.
    apply in_or_app. right. left. reflexivity.
  - rewrite Forall_forall in Ho.
    assert (Hin : In k (acc ++ k :: r)) by (apply in_or_app; right; left; reflexivity).
    specialize (Ho k Hin). congruence.
Qed.

Lemma insert_index_end (i : Z) (k : string) (v : value)
  (acc : list (string * value)) :
  Forall (fun k' => exists j, array_index k' = Some j /\ j < i) (map fst acc) ->
  insert_index i k v acc = (acc ++ [(k, v)])%list.
Proof.
  induction acc as [|[k' w] acc IH]; simpl; intros H; [reflexivity|].
  inversion H as [|? ? (j & Hj & Hlt) Hrest]; subst. rewrite Hj.
  apply Z.ltb_lt in Hlt. rewrite Hlt. f_equal. apply IH, Hrest.
Qed.

(** Copying the members of an object into a fresh object gives the same
    members in the same sequence. *)
Lemma fold_define_canonical (t acc : list (string * value)) :
  canonical (acc ++ t) ->
  fold_left (fun t kv => define (fst kv) (snd kv) t) t acc = (acc ++ t)%list.
Proof.
  revert acc; induction t as [|[k v] t IH]; intros acc [Hnd Ho]; simpl.
  - rewrite app_nil_r. reflexivity.
  - assert (Hstep : define k v acc = (acc ++ [(k, v)])%list).
    { unfold define.
      assert (Hk : has_key k acc = false).
      { apply has_key_false_in. rewrite map_app in Hnd. simpl in Hnd.
        apply NoDup_remove_2 in Hnd. intros Hin. apply Hnd.
        apply in_or_app. left. exact Hin. }
      rewrite Hk. destruct (array_index k) as [i|] eqn:Hi; [|reflexivity].
      apply insert_index_end. rewrite map_app in Ho. simpl in Ho.
      eapply ordered_keys_before_index; eassumption. }
    rewrite Hstep, IH.
    + rewrite <- app_assoc. reflexivity.
    + rewrite <- app_assoc. split; assumption.
Qed.

Lemma spread_copy_canonical (ps : list (string * value)) :
  canonical ps -> spread (VObj ps) [] = ps.
Proof.
  intros H. unfold spread. simpl own_entries.
  apply (fold_define_canonical ps []). exact H.
Qed.

Lemma replace_member_map (k : string) (v : value) (t : list (string * value)) :
  NoDup (map fst t) ->
  replace_member k v t
  = map (fun kw => (fst kw, if String.eqb (fst kw) k then v else snd kw)) t.
Proof.
  induction t as [|[k' w] t IH]; simpl; intros Hnd; [reflexivity|].
  inversion Hnd as [|? ? Hnin Hnd']; subst.
  destruct (String.eqb k k') eqn:E.
  - apply String.eqb_eq in E. subst k'. rewrite String.eqb_refl. f_equal.
    rewrite <- (map_id t) at 1. apply map_ext_in. intros [k0 w0] Hin. simpl.
    assert (E : String.eqb k0 k = false).
    { apply String.eqb_neq. intros ->. apply Hnin.
      apply in_map_iff. exists (k, w0). auto. }
    rewrite E. reflexivity.
  - rewrite String.eqb_sym, E. f_equal. apply IH, Hnd'.
Qed.

Lemma fold_define_present (P t : list (string * value)) :
  NoDup (map fst t) ->
  (forall k, has_key k P = true -> has_key k t = true) ->
  fold_left (fun t kv => define (fst kv) (snd kv) t) P t
  = map (fun kw => (fst kw, match lookup (fst kw) P with
                            | Some v => v
                            | None => snd kw
                            end)) t.
Proof.
  revert t; induction P as [|[k v] P IH]; intros t Hnd Hin; simpl.
  - rewrite <- (map_id t) at 1. apply map_ext. intros [k0 w0]. reflexivity.
  - assert (Hk : has_key k t = true)
      by (apply Hin; simpl; rewrite String.eqb_refl; reflexivity).
    unfold define at 2. rewrite Hk, replace_member_map by exact Hnd.
    rewrite IH.
    + rewrite map_map. apply map_ext. intros [k0 w0]. simpl.
      destruct (lookup k0 P); [reflexivity|].
      destruct (String.eqb k0 k); reflexivity.
    + rewrite map_map. simpl. exact Hnd.
    + intros k0 Hk0. apply has_key_in. rewrite map_map. simpl.
      apply has_key_in. apply Hin. simpl. rewrite Hk0. apply orb_true_r.
Qed.

(** Spreading the same members a second time changes nothing. *)
Lemma spread_twice (v : value) (t : list (string * value)) :
  NoDup (map fst t) -> spread v (spread v t) = spread v t.
Proof.
  intros Hnd. unfold spread at 1.
  pose proof (nodup_spread v t Hnd) as Hnd1.
  rewrite fold_define_present.
  - rewrite <- (map_id (spread v t)) at 2. apply map_ext_in.
    intros [k w] Hin. simpl.
    pose proof (In_lookup_nodup _ k w Hnd1 Hin) as Hl.
    rewrite lookup_spread in Hl by exact Hnd.
    destruct (lookup k (own_entries v)); congruence.
  - exact Hnd1.
  - intros k Hk. rewrite has_key_lookup in *.
    rewrite lookup_spread by exact Hnd.
    destruct (lookup k (own_entries v)); [reflexivity | discriminate].
Qed.

Lemma set_nth_twice {A : Type} (n : nat) (x : A) (l : list A) :
  set_nth n x (set_nth n x l) = set_nth n x l.
Proof.
  revert n; induction l as [|y l IH]; intros [|n]; simpl; try reflexivity.
  f_equal. apply IH.
Qed.

(** X8.  PUT /orders/:orderId is idempotent: repeating an update whose
    payload has no [order_id] member, on the collection the first update
    stored, stores the same collection and answers with the same order. *)
Theorem update_is_idempotent
  (orders : list value) (id : string) (payload : value) (n : nat) (o : value) :
  first_match id orders n o ->
  has_key "order_id" (own_entries payload) = false ->
  exists orders' resp,
    update orders id payload = Normal (orders', resp)
    /\ update orders' id payload = Normal (orders', resp).
Proof.
  intros H Hk.
  destruct (update_first_match orders id payload n o H) as (ps & -> & Hu).
  do 2 eexists. split; [exact Hu|].
  destruct H as (Hnth & Hid & Hpre).
  set (merged := spread payload (spread (VObj ps) [])).
  assert (H' : first_match id (set_nth n (VObj merged) orders) n (VObj merged)).
  { repeat split.
    - eapply nth_error_set_nth; exact Hnth.
    - unfold has_id, merged. rewrite merged_keeps_order_id by exact Hk. exact Hid.
    - rewrite firstn_set_nth. exact Hpre. }
  destruct (update_first_match _ id payload n _ H') as (ps' & Eps & Hu').
  injection Eps as <-. rewrite Hu'.
  assert (E : spread payload (spread (VObj merged) []) = merged).
  { rewrite spread_copy_canonical
      by (unfold merged; do 2 apply canonical_spread; apply canonical_nil).
    unfold merged. apply spread_twice. apply nodup_spread. constructor. }
  rewrite E, set_nth_twice. reflexivity.
Qed.

Lemma update_is_idempotent_witness :
  exists orders' resp,
    update two_orders "2" (VObj [("customer_name", VStr "Bob"); ("7", VNull)])
    = Normal (orders', resp)
    /\ update orders' "2" (VObj [("customer_name", VStr "Bob"); ("7", VNull)])
       = Normal (orders', resp).
Proof.
  apply (update_is_idempotent
           two_orders "2" (VObj [("customer_name", VStr "Bob"); ("7", VNull)]) 1
           (nth 1 two_orders VUndef)).
  - split; [reflexivity|]. split; [reflexivity|].
    constructor; [|constructor].
    split; [reflexivity | unfold has_id; vm_compute; discriminate].
  - reflexivity.
Defined.

(** ** Fresh line-item identifiers *)

Lemma count_unlabelled_nonneg (l : list value) : 0 <= count_unlabelled l.
Proof. unfold count_unlabelled. lia. Qed.

Lemma count_prefix_pos (l : list value) (j : nat) (x : value) :
  nth_error l j = Some x -> carries_id x = false ->
  1 <= count_unlabelled (firstn (S j) l).
Proof.
  revert j; induction l as [|y l IH]; intros [|j] Hn Hx; simpl in Hn;
    try discriminate.
  - injection Hn as ->. change (firstn 1 (x :: l)) with [x].
    rewrite count_unlabelled_cons, Hx. change (count_unlabelled []) with 0. lia.
  - change (firstn (S (S j)) (y :: l)) with (y :: firstn (S j) l).
    rewrite count_unlabelled_cons. specialize (IH j Hn Hx).
    destruct (carries_id y); lia.
Qed.

Lemma count_prefix_lt (l : list value) (i j : nat) (x : value) :
  (i < j)%nat -> nth_error l j = Some x -> carries_id x = false ->
  count_unlabelled (firstn (S i) l) < count_unlabelled (firstn (S j) l).
Proof.
  revert i j; induction l as [|y l IH]; intros i [|j] Hlt Hn Hx; simpl in Hn;
    try discriminate; try lia.
  change (firstn (S (S j)) (y :: l)) with (y :: firstn (S j) l).
  rewrite count_unlabelled_cons.
  destruct i as [|i].
  - change (firstn 1 (y :: l)) with [y]. rewrite count_unlabelled_cons.
    pose proof (count_prefix_pos l j x Hn Hx).
    change (count_unlabelled []) with 0. lia.
  - change (firstn (S (S i)) (y :: l)) with (y :: firstn (S i) l).
    rewrite count_unlabelled_cons.
    assert (Hij : (i < j)%nat) by lia.
    specialize (IH i j Hij Hn Hx). lia.
Qed.

Lemma count_unlabelled_prefix_le (l : list value) (n : nat) :
  count_unlabelled (firstn n l) <= Z.of_nat (List.length l).
Proof.
  unfold count_unlabelled.
  pose proof (filter_length_le (fun item => negb (carries_id item)) (firstn n l))
    as H.
  rewrite length_firstn in H. lia.
Qed.

Lemma global_max_nonneg (orders : list value) :
  0 <= global_max_line_item_number orders.
Proof.
  unfold global_max_line_item_number.
  rewrite <- fold_max_maximum.
  - apply fold_max_le.
  - apply Forall_forall. intros x Hx. apply in_map_iff in Hx.
    destruct Hx as (y & <- & _). apply spec_item_number_nonneg.
Qed.

Lemma label_inj (a b : string) :
  @Normal value (VStr ("LI-" ++ a)) = Normal (VStr ("LI-" ++ b)) -> a = b.
Proof. intros H. injection H as H. exact H. Qed.

Lemma num_to_string_inj (a b : Z) :
  Z.abs a <= 2 ^ 53 -> Z.abs b <= 2 ^ 53 ->
  num_to_string (Fin a) = num_to_string (Fin b) -> a = b.
Proof.
  intros Ha Hb H. apply (f_equal parse_int) in H.
  rewrite !parse_int_num_to_string in H by assumption. congruence.
Qed.

Lemma stored_items_conforming (orders : list value) (li : value) :
  forallb conforming_order orders = true ->
  In li (stored_line_items orders) ->
  conforming_item li = true.
Proof.
  intros Hc Hin. unfold stored_line_items in Hin.
  apply in_flat_map in Hin. destruct Hin as (o & Ho & Hli).
  rewrite forallb_forall in Hc. specialize (Hc o Ho).
  destruct (conforming_order_items o Hc) as (_ & _ & _ & Hitems).
  rewrite forallb_forall in Hitems. apply Hitems, Hli.
Qed.

(** A stored conforming line item does not carry the label of a number above
    the global maximum. *)
Lemma label_above_maximum_unused (orders : list value) (li : value) (z : Z) :
  forallb conforming_order orders = true ->
  In li (stored_line_items orders) ->
  global_max_line_item_number orders < z <= max_safe_integer ->
  get li "line_item_id" <> Normal (VStr ("LI-" ++ num_to_string (Fin z))).
Proof.
  intros Hc Hin [Hz Hzb] Hg.
  pose proof (global_max_nonneg orders) as HM.
  unfold max_safe_integer in Hzb.
  rewrite num_to_string_safe in Hg by lia.
  pose proof (stored_items_conforming orders li Hc Hin) as Hli.
  assert (Hle : spec_item_number li <= global_max_line_item_number orders).
  { unfold global_max_line_item_number.
    rewrite <- fold_max_maximum.
    - destruct (fold_max_le (map spec_item_number (stored_line_items orders)) 0)
        as [_ HF].
      rewrite Forall_forall in HF. apply HF, in_map, Hin.
    - apply Forall_forall. intros x Hx. apply in_map_iff in Hx.
      destruct Hx as (y & <- & _). apply spec_item_number_nonneg. }
  unfold conforming_item in Hli. unfold spec_item_number in Hle.
  rewrite Hg in Hli, Hle. simpl in Hli.
  unfold pattern_number in *. simpl strip_prefix in *.
  cbv beta iota in Hli, Hle.
  destruct (all_digits (decimal z)) eqn:Hd; [|discriminate].
  destruct (parse_digits (decimal z)) as [n|] eqn:Hp; [|discriminate].
  pose proof (parse_int_all_digits _ n Hd Hp) as Hpi.
  pose proof (parse_digits_nonneg _ _ Hp) as Hn0.
  apply Z.leb_le in Hli. unfold max_safe_integer in Hli.
  rewrite parse_int_decimal, !round_safe in Hpi by lia.
  injection Hpi as <-. lia.
Qed.

(** X9.  On a store whose line-item ids are absent or of the form
    [LI-<digits>], the ids that POST /orders assigns are fresh: the id given
    to a payload item without one is carried by no stored line item of any
    order, and differs from the id given to every other payload item without
    one. *)
Theorem assigned_line_item_ids_are_fresh (orders : list value) (items : list value) :
  forallb conforming_order orders = true ->
  Forall (fun item => nullish item = false) items ->
  global_max_line_item_number orders + Z.of_nat (List.length items)
  <= max_safe_integer ->
  exists out,
    max_line_item_id orders = Normal (Fin (global_max_line_item_number orders))
    /\ new_line_items (Fin (global_max_line_item_number orders)) items = Normal out
    /\ (forall d now orders' resp,
           get d "line_items" = Normal (VArr items) ->
           create orders d now = Normal (orders', resp) ->
           get (body resp) "line_items" = Normal (VArr out))
    /\ forall i item r,
        nth_error items i = Some item ->
        carries_id item = false ->
        nth_error out i = Some r ->
        exists s,
          get r "line_item_id" = Normal (VStr s)
          /\ (forall li, In li (stored_line_items orders) ->
                         get li "line_item_id" <> Normal (VStr s))
          /\ (forall j item' r',
                 j <> i ->
                 nth_error items j = Some item' ->
                 carries_id item' = false ->
                 nth_error out j = Some r' ->
                 get r' "line_item_id" <> Normal (VStr s)).
Proof.
  intros Hc Hnn Hbound.
  pose proof (global_max_nonneg orders) as HM.
  set (M := global_max_line_item_number orders) in *.
  assert (Hmax : max_line_item_id orders = Normal (Fin M)).
  { unfold max_line_item_id, M, global_max_line_item_number.
    rewrite (max_line_item_id_fold orders 0 (Z.le_refl 0) Hc).
    rewrite fold_max_maximum; [reflexivity|].
    apply Forall_forall. intros x Hx. apply in_map_iff in Hx.
    destruct Hx as (li & <- & _). apply spec_item_number_nonneg. }
  destruct (new_line_items_spec items Hnn M HM Hbound)
    as (out & Hout & _ & Hpos).
  assert (Hcount : forall n, 0 <= count_unlabelled (firstn n items)
                             <= Z.of_nat (List.length items)).
  { intros n. split; [apply count_unlabelled_nonneg|].
    apply count_unlabelled_prefix_le. }
  exists out. split; [exact Hmax|]. split; [exact Hout|]. split.
  - intros d now orders' resp Hd Hcr. apply create_normal in Hcr.
    destruct Hcr as (id & total & its & sa & cn & ce & _ & _
                     & (counter & l & Hcounter & Hl & Hnew) & _ & _ & _ & Hb & _).
    rewrite Hmax in Hcounter. injection Hcounter as <-.
    rewrite Hd in Hl. injection Hl as <-.
    rewrite Hout in Hnew. injection Hnew as <-.
    rewrite Hb. reflexivity.
  - intros i item r Hi Hitem Hr.
    destruct (Hpos i item Hi) as (r0 & Hr0 & _ & Hlab).
    rewrite Hr in Hr0. injection Hr0 as <-.
    eexists. split; [exact (Hlab Hitem)|]. split.
    + intros li Hli. apply (label_above_maximum_unused orders); auto.
      pose proof (count_prefix_pos items i item Hi Hitem).
      pose proof (Hcount (S i)). fold M. lia.
    + intros j item' r' Hji Hj Hitem' Hr' Heq.
      destruct (Hpos j item' Hj) as (r0 & Hr0 & _ & Hlab').
      rewrite Hr' in Hr0. injection Hr0 as <-.
      rewrite (Hlab' Hitem') in Heq.
      apply label_inj in Heq.
      pose proof (Hcount (S i)). pose proof (Hcount (S j)).
      unfold max_safe_integer in Hbound.
      apply num_to_string_inj in Heq; try lia.
      destruct (Nat.lt_trichotomy i j) as [Hlt|[->|Hgt]]; [|congruence|].
      * pose proof (count_prefix_lt items i j item' Hlt Hj Hitem'). lia.
      * pose proof (count_prefix_lt items j i item Hgt Hi Hitem). lia.
Qed.

Lemma assigned_line_item_ids_are_fresh_witness :
  exists out,
    max_line_item_id sample_store
    = Normal (Fin (global_max_line_item_number sample_store))
    /\ new_line_items (Fin (global_max_line_item_number sample_store)) mixed_items
       = Normal out
    /\ exists r,
        nth_error out 2 = Some r
        /\ get r "line_item_id" = Normal (VStr "LI-5").
Proof.
  destruct (assigned_line_item_ids_are_fresh sample_store mixed_items)
    as (out & Hmax & Hout & _ & Hfresh).
  - reflexivity.
  - repeat constructor.
  - vm_compute. discriminate.
  - exists out. split; [exact Hmax|]. split; [exact Hout|].
    vm_compute in Hout. injection Hout as <-.
    eexists. split; reflexivity.
Defined.

(** ** Identifiers that are not numbers *)

(** X10.  When [parseInt] finds no number in the [order_id] of some stored
    order, POST /orders gives the new order the identifier "NaN", and keeps
    doing so: the collection that the next request loads makes the next new
    identifier "NaN" again, so the orders created afterwards share it. *)
Theorem non_numeric_order_id_gives_NaN (orders : list value) :
  forallb id_readable orders = true ->
  Exists id_reads_NaN orders ->
  new_order_id orders = Normal "NaN"
  /\ forall d now orders' resp,
      create orders d now = Normal (orders', resp) ->
      get (body resp) "order_id" = Normal (VStr "NaN")
      /\ (reloaded orders = orders ->
          new_order_id (reloaded orders') = Normal "NaN").
Proof.
  intros Hr He.
  assert (E : new_order_id orders = Normal "NaN").
  { unfold new_order_id, max_order_id.
    rewrite (max_order_id_NaN orders (Fin 0) Hr He). reflexivity. }
  split; [exact E|].
  intros d now orders' resp Hc. apply create_normal in Hc.
  destruct Hc as (id & total & items & sa & cn & ce & Hid & _ & _ & _ & _ & _
                  & Hb & _ & ->).
  rewrite E in Hid. injection Hid as <-.
  assert (Hg : get (body resp) "order_id" = Normal (VStr "NaN"))
    by (rewrite Hb; reflexivity).
  split; [exact Hg|]. intros Hl.
  apply get_json_string in Hg.
  unfold reloaded in *. rewrite map_app, Hl. cbn [map].
  unfold new_order_id, max_order_id. rewrite max_order_id_NaN; [reflexivity| |].
  - rewrite forallb_app, Hr. cbn [forallb andb]. unfold id_readable.
    rewrite Hg. reflexivity.
  - apply Exists_app. left. exact He.
Qed.

Lemma non_numeric_order_id_gives_NaN_witness :
  new_order_id [sample_order "1" []; sample_order "A-17" []; sample_order "2" []]
  = Normal "NaN".
Proof.
  apply (non_numeric_order_id_gives_NaN
           [sample_order "1" []; sample_order "A-17" []; sample_order "2" []]).
  - reflexivity.
  - apply Exists_cons_tl, Exists_cons_hd. reflexivity.
Defined.

(** X11.  The identifier of a new order is a number above every number read
    in a stored identifier, and at least 1, also when stored identifiers are
    negative. *)
Theorem new_order_id_exceeds_stored_ids (orders : list value) :
  Forall numeric_id orders ->
  safe_ids orders ->
  exists n,
    new_order_id orders = Normal (num_to_string (Fin n))
    /\ 1 <= n
    /\ forall o m, In o orders -> id_number o = Some m -> m < n.
Proof.
  intros Hnum Hsafe.
  destruct (numeric_ids_numbers orders Hnum) as [ns Hns].
  exists (fold_left Z.max ns 0 + 1).
  split; [apply new_order_id_fold; [exact Hns|];
          apply (safe_ids_numbers orders); assumption|].
  destruct (fold_max_le ns 0) as [H0 Hall].
  split; [lia|].
  intros o m Ho Hm.
  assert (Hin : In (Some m) (map Some ns)).
  { rewrite <- Hns, <- Hm. apply in_map, Ho. }
  apply in_map_iff in Hin. destruct Hin as (m' & [= ->] & Hin).
  rewrite Forall_forall in Hall. specialize (Hall m Hin). lia.
Qed.

Lemma new_order_id_exceeds_stored_ids_witness :
  exists n,
    new_order_id [sample_order "-4" []; sample_order "-9" []]
    = Normal (num_to_string (Fin n))
    /\ 1 <= n
    /\ forall o m,
        In o [sample_order "-4" []; sample_order "-9" []] ->
        id_number o = Some m -> m < n.
Proof.
  apply (new_order_id_exceeds_stored_ids
           [sample_order "-4" []; sample_order "-9" []]).
  - repeat constructor.
    + exists "-4", (-4). split; reflexivity.
    + exists "-9", (-9). split; reflexivity.
  - repeat constructor; intros n H; vm_compute in H; injection H as <-;
      vm_compute; discriminate.
Defined.

Lemma new_line_items_from_NaN (items : list value) :
  Forall (fun item => nullish item = false) items ->
  exists out,
    new_line_items NaN items = Normal out
    /\ forall i item r,
        nth_error items i = Some item ->
        nth_error out i = Some r ->
        (carries_id item = true -> r = item)
        /\ (carries_id item = false ->
            get r "line_item_id" = Normal (VStr "LI-NaN")).
Proof.
  induction 1 as [|item items Hitem _ (out & Hout & Hpos)].
  - exists []. split; [reflexivity|]. intros [|i] item r H; discriminate.
  - destruct (carries_id_get item Hitem) as (v & Hv & Hc).
    cbn [new_line_items]. rewrite Hv. cbn [bind]. rewrite <- Hc.
    destruct (carries_id item) eqn:Ec; cbn [num_add]; rewrite Hout; cbn [bind];
      eexists; (split; [reflexivity|]); intros [|i] it r Hi Hr; simpl in Hi, Hr;
      try (apply (Hpos i it r Hi Hr)).
    + injection Hi as <-. injection Hr as <-. split; [auto | congruence].
    + injection Hi as <-. injection Hr as <-. split; [congruence|].
      intros _. apply get_labelled.
Qed.

(** X12.  When some stored line item has an id in which, once the first
    "LI-" is removed, [parseInt] finds no number, the global maximum that
    POST /orders computes is [NaN], and every payload item without an id is
    given the id "LI-NaN". *)
Theorem non_numeric_line_item_id_gives_NaN
  (orders : list value) (items : list value) :
  forallb numbered_order orders = true ->
  Exists reads_NaN (stored_line_items orders) ->
  Forall (fun item => nullish item = false) items ->
  max_line_item_id orders = Normal NaN
  /\ exists out,
      new_line_items NaN items = Normal out
      /\ (forall d now orders' resp,
             get d "line_items" = Normal (VArr items) ->
             create orders d now = Normal (orders', resp) ->
             get (body resp) "line_items" = Normal (VArr out))
      /\ forall i item r,
          nth_error items i = Some item ->
          carries_id item = false ->
          nth_error out i = Some r ->
          get r "line_item_id" = Normal (VStr "LI-NaN").
Proof.
  intros Hn He Hitems.
  assert (Hmax : max_line_item_id orders = Normal NaN).
  { unfold max_line_item_id.
    destruct (max_line_item_id_total orders (Fin 0) Hn) as (m' & Hm' & _ & HNaN).
    rewrite Hm', (HNaN He). reflexivity. }
  split; [exact Hmax|].
  destruct (new_line_items_from_NaN items Hitems) as (out & Hout & Hpos).
  exists out. split; [exact Hout|]. split.
  - intros d now orders' resp Hd Hcr. apply create_normal in Hcr.
    destruct Hcr as (id & total & its & sa & cn & ce & _ & _
                     & (counter & l & Hcounter & Hl & Hnew) & _ & _ & _ & Hb & _).
    rewrite Hmax in Hcounter. injection Hcounter as <-.
    rewrite Hd in Hl. injection Hl as <-.
    rewrite Hout in Hnew. injection Hnew as <-.
    rewrite Hb. reflexivity.
  - intros i item r Hi Hc Hr. apply (Hpos i item r Hi Hr), Hc.
Qed.

Lemma non_numeric_line_item_id_gives_NaN_witness :
  max_line_item_id
    [sample_order "1" [VObj [("line_item_id", VStr "LI-2")];
                       VObj [("line_item_id", VStr "item-7")]]]
  = Normal NaN.
Proof.
  apply (non_numeric_line_item_id_gives_NaN
           [sample_order "1" [VObj [("line_item_id", VStr "LI-2")];
                              VObj [("line_item_id", VStr "item-7")]]]
           mixed_items).
  - reflexivity.
  - apply Exists_cons_tl, Exists_cons_hd. exists "item-7".
    split; [reflexivity|]. split; [discriminate | reflexivity].
  - repeat constructor.
Defined.

(** ** A price that is a string *)

Lemma string_append_assoc (a b c : string) : ((a ++ b) ++ c = a ++ (b ++ c))%string.
Proof. induction a as [|x a IH]; simpl; [reflexivity | f_equal; exact IH]. Qed.

Lemma price_text_added (t : string) (item : value) :
  summable_item item = true ->
  (p <- get item "price" ;; js_add (VStr t) (js_or p (VNum (Fin 0))))
  = Normal (VStr (t ++ price_text item)).
Proof.
  unfold summable_item, price_text.
  destruct (get item "price") as [p|]; [|discriminate]. cbn [bind].
  rewrite <- convertible_js_or. intros Hq.
  unfold js_add. cbn [to_primitive bind].
  destruct (to_primitive_convertible _ Hq) as (pq & -> & Hpq). cbn [bind].
  destruct (to_string_primitive pq Hpq) as [sq Hsq].
  cbn [to_string]. rewrite Hsq. reflexivity.
Qed.

(** Once the total is text, every later price is appended to it as text. *)
Lemma string_total_stays (l : list value) :
  forallb summable_item l = true ->
  forall t,
    reduce (fun total item =>
              p <- get item "price" ;;
              js_add total (js_or p (VNum (Fin 0))))
           l (VStr t) = Normal (VStr (t ++ price_texts l)).
Proof.
  induction l as [|x l IH]; simpl; intros H t.
  - f_equal. f_equal.
    clear. induction t as [|c t IHt]; simpl; [reflexivity | f_equal; exact IHt].
  - apply andb_true_iff in H. destruct H as [Hx Hl].
    rewrite (price_text_added t x Hx). cbn [bind].
    rewrite (IH Hl), string_append_assoc. reflexivity.
Qed.

(** X13.  [order_total] is not always a number: when the prices before a
    line item are numbers (or missing) and that item's price is a non-empty
    string, the total becomes text, namely the text of the sum so far (its
    decimal numeral when the prices so far are integers whose absolute values
    add up to a safe integer) followed by the string and by the text of every
    later price. *)
Theorem string_price_turns_total_into_text
  (d : value) (pre : list value) (item : value) (post : list value) (s : string) :
  get d "line_items" = Normal (VArr (pre ++ item :: post)) ->
  forallb priced pre = true ->
  get item "price" = Normal (VStr s) ->
  s <> EmptyString ->
  forallb summable_item post = true ->
  order_total d
  = Normal (VStr (num_to_string (added_in_sequence (map price_number pre))
                  ++ s ++ price_texts post))
  /\ (Forall (fun x => exists z, price_number x = Fin z) pre ->
      sum (map (fun x => Z.abs (price_of x)) pre) <= max_safe_integer ->
      order_total d
      = Normal (VStr (decimal (sum (map price_of pre)) ++ s ++ price_texts post))).
Proof.
  intros Hd Hpre Hprice Hs Hpost.
  assert (E : order_total d
              = Normal (VStr (num_to_string
                                (added_in_sequence (map price_number pre))
                              ++ s ++ price_texts post))).
  { unfold order_total. rewrite Hd. cbn [bind as_array].
    rewrite reduce_app, (order_total_fold pre (Fin 0) Hpre). cbn [bind reduce].
    rewrite Hprice. cbn [bind].
    assert (Ht : truthy (VStr s) = true).
    { simpl. apply negb_true_iff, String.eqb_neq. exact Hs. }
    unfold js_or at 1. rewrite Ht.
    fold (added_in_sequence (map price_number pre)).
    assert (Hadd : forall t,
               js_add (VNum t) (VStr s) = Normal (VStr (num_to_string t ++ s)))
      by reflexivity.
    rewrite Hadd. cbn [bind].
    rewrite (string_total_stays post Hpost), string_append_assoc.
    reflexivity. }
  split; [exact E|]. intros Hint Hb. rewrite E. unfold added_in_sequence.
  rewrite (integers_added_exactly pre 0 Hint) by (simpl; lia).
  rewrite num_to_string_safe; [reflexivity|].
  assert (Hle : Z.abs (sum (map price_of pre))
                <= sum (map (fun x => Z.abs (price_of x)) pre)).
  { clear. induction pre as [|x l IH]; simpl; lia. }
  unfold max_safe_integer in Hb. simpl. lia.
Qed.

Lemma string_price_turns_total_into_text_witness :
  order_total
    (VObj [("line_items",
            VArr [ VObj [("price", VNum (Fin 10))];
                   VObj [("price", VStr "5")];
                   VObj [("price", VNum (Fin 2))] ])])
  = Normal (VStr "1052").
Proof.
  destruct (string_price_turns_total_into_text
              (VObj [("line_items",
                      VArr [ VObj [("price", VNum (Fin 10))];
                             VObj [("price", VStr "5")];
                             VObj [("price", VNum (Fin 2))] ])])
              [VObj [("price", VNum (Fin 10))]]
              (VObj [("price", VStr "5")])
              [VObj [("price", VNum (Fin 2))]]
              "5") as [H _].
  - reflexivity.
  - reflexivity.
  - reflexivity.
  - discriminate.
  - reflexivity.
  - exact H.
Defined.

(** ** The quantities of the picking list *)

Lemma sum_without (f : string -> Z) (x : string) (ks : list string) :
  NoDup ks ->
  sum (map f ks)
  = sum (map f (filter (fun y => negb (String.eqb y x)) ks))
    + (if in_dec string_dec x ks then f x else 0).
Proof.
  induction 1 as [|k ks Hk Hnd IH]; simpl; [reflexivity|].
  unfold sum in *. simpl. rewrite IH.
  destruct (string_dec k x) as [->|Hne].
  - rewrite String.eqb_refl. simpl.
    destruct (in_dec string_dec x ks); [contradiction | lia].
  - assert (E : String.eqb k x = false) by (apply String.eqb_neq; exact Hne).
    rewrite E. simpl. destruct (in_dec string_dec x ks); lia.
Qed.

Lemma sum_occurrences (l : list string) :
  sum (map (fun k => occurrences k l) (first_occurrences l))
  = Z.of_nat (List.length l).
Proof.
  induction l as [|x l IH]; [reflexivity|].
  cbn [first_occurrences map List.length].
  assert (Hrest : map (fun k => occurrences k (x :: l))
                      (filter (fun y => negb (String.eqb y x)) (first_occurrences l))
                  = map (fun k => occurrences k l)
                        (filter (fun y => negb (String.eqb y x)) (first_occurrences l))).
  { apply map_ext_in. intros k Hk. apply filter_In in Hk. destruct Hk as [_ Hk].
    apply negb_true_iff, String.eqb_neq in Hk.
    unfold occurrences. cbn [count_occ]. destruct (string_dec x k); congruence. }
  change (sum (?a :: ?r)) with (a + sum r). rewrite Hrest.
  rewrite (sum_without (fun k => occurrences k l) x _ (first_occurrences_NoDup l))
    in IH.
  assert (Hx : occurrences x (x :: l) = 1 + occurrences x l).
  { unfold occurrences. cbn [count_occ].
    destruct (string_dec x x); [rewrite Nat2Z.inj_succ; lia | congruence]. }
  rewrite Hx.
  destruct (in_dec string_dec x (first_occurrences l)) as [Hin|Hnin].
  - lia.
  - assert (H0 : occurrences x l = 0).
    { unfold occurrences.
      rewrite (proj1 (count_occ_not_In string_dec l x)); [reflexivity|].
      intros Hin. apply Hnin, first_occurrences_In, Hin. }
    lia.
Qed.

(** X14.  The quantities of the picking list add up to the number of
    physical products in the decompositions of all line items of all orders:
    no occurrence is lost or counted twice. *)
Theorem picking_quantities_add_up
  (product_mapping : list (string * value)) (orders : list value) :
  pickable_mapping product_mapping = true ->
  forallb pickable_order orders = true ->
  forallb plain_name (picked_names product_mapping orders) = true ->
  Z.of_nat (List.length (picked_names product_mapping orders)) <= max_safe_integer ->
  exists aggregated,
    picking product_mapping orders
    = Normal {| status := 200; body := VArr (map picking_entry aggregated) |}
    /\ listed_total aggregated
       = Z.of_nat (List.length (picked_names product_mapping orders)).
Proof.
  intros Hpm Ho Hplain Hb.
  exists (tally (picked_names product_mapping orders)). split.
  - apply picking_tally; assumption.
  - unfold listed_total, tally. rewrite map_map. simpl.
    apply sum_occurrences.
Qed.

Lemma picking_quantities_add_up_witness :
  exists aggregated,
    picking sample_mapping sample_store
    = Normal {| status := 200; body := VArr (map picking_entry aggregated) |}
    /\ listed_total aggregated = 3.
Proof.
  apply (picking_quantities_add_up sample_mapping sample_store);
    try reflexivity.
  vm_compute. discriminate.
Defined.

(** ** When the views throw *)

Lemma map_c_result {A B : Type} (f : A -> completion B) (ok : A -> bool)
  (l : list A) :
  (forall x, (ok x = true -> exists y, f x = Normal y)
             /\ (ok x = false -> f x = TypeError)) ->
  (forallb ok l = true ->
   exists out, map_c f l = Normal out /\ List.length out = List.length l)
  /\ (forallb ok l = false -> map_c f l = TypeError).
Proof.
  intros Hf. induction l as [|x l [IH1 IH2]]; simpl.
  - split; [intros _; exists []; auto | discriminate].
  - destruct (Hf x) as [Hx1 Hx2]. destruct (ok x); simpl.
    + destruct (Hx1 eq_refl) as [y ->]. cbn [bind]. split.
      * intros H. destruct (IH1 H) as (out & -> & Hlen). cbn [bind].
        exists (y :: out). simpl. auto.
      * intros H. rewrite (IH2 H). reflexivity.
    + split; [discriminate|]. intros _. rewrite (Hx2 eq_refl). reflexivity.
Qed.

Lemma reduce_result {S A : Type} (f : S -> A -> completion S) (ok : A -> bool)
  (Inv : S -> Prop) (l : list A) :
  (forall s x, Inv s ->
               (ok x = true -> exists s', f s x = Normal s' /\ Inv s')
               /\ (ok x = false -> f s x = TypeError)) ->
  forall s, Inv s ->
    (forallb ok l = true -> exists s', reduce f l s = Normal s' /\ Inv s')
    /\ (forallb ok l = false -> reduce f l s = TypeError).
Proof.
  intros Hf. induction l as [|x l IH]; intros s Hs; simpl.
  - split; [intros _; exists s; auto | discriminate].
  - destruct (Hf s x Hs) as [Hx1 Hx2]. destruct (ok x); simpl.
    + destruct (Hx1 eq_refl) as (s' & -> & Hs'). cbn [bind]. apply IH, Hs'.
    + split; [discriminate|]. intros _. rewrite (Hx2 eq_refl). reflexivity.
Qed.

Lemma truthy_not_nullish (v : value) : truthy v = true -> nullish v = false.
Proof. destruct v; simpl; congruence. Qed.

Lemma product_key_result (li : value) :
  match product_key li with
  | Some key => exists pid, get li "product_id" = Normal pid
                            /\ to_string pid = Normal key
  | None => (pid <- get li "product_id" ;; to_string pid) = TypeError
  end.
Proof.
  unfold product_key.
  destruct (get li "product_id") as [pid|]; cbn [bind]; [|reflexivity].
  destruct (to_string pid) as [key|] eqn:E; [|reflexivity].
  exists pid. auto.
Qed.

Lemma detail_line_item_result (pm : list (string * value)) (li : value) :
  (pickable_item li = true -> exists r, detail_line_item pm li = Normal r)
  /\ (pickable_item li = false -> detail_line_item pm li = TypeError).
Proof.
  unfold pickable_item, detail_line_item.
  pose proof (product_key_result li) as Hk.
  destruct (product_key li) as [key|].
  - destruct Hk as (pid & -> & Hkey). cbn [bind]. rewrite Hkey. cbn [bind].
    split; [intros _ | discriminate].
    assert (Hm : exists m, get (VObj pm) key = Normal m).
    { apply get_not_nullish. reflexivity. }
    destruct Hm as [m ->]. cbn [bind].
    destruct (truthy m) eqn:Ht.
    + destruct (get_not_nullish m "products" (truthy_not_nullish m Ht)) as [ps ->].
      cbn [bind]. eauto.
    + cbn [bind]. eauto.
  - split; [discriminate | intros _].
    destruct (get li "product_id") as [pid|]; cbn [bind] in *; [|reflexivity].
    rewrite Hk. reflexivity.
Qed.

Lemma order_line_items_result (o : value) :
  match get o "line_items" with
  | Normal (VArr l) =>
      (lis <- get o "line_items" ;; as_array (js_or lis (VArr []))) = Normal l
  | Normal v =>
      if truthy v
      then (lis <- get o "line_items" ;; as_array (js_or lis (VArr [])))
           = TypeError
      else (lis <- get o "line_items" ;; as_array (js_or lis (VArr [])))
           = Normal []
  | TypeError =>
      (lis <- get o "line_items" ;; as_array (js_or lis (VArr []))) = TypeError
  end.
Proof.
  destruct (get o "line_items") as [v|]; cbn [bind]; [|reflexivity].
  destruct v; try reflexivity; unfold js_or;
    match goal with
    | |- context [truthy ?x] => destruct (truthy x) eqn:E
    end; try reflexivity; simpl in E; try discriminate.
Qed.

Lemma detail_order_result (pm : list (string * value)) (o : value) :
  (pickable_order o = true -> exists r, detail_order pm o = Normal r)
  /\ (pickable_order o = false -> detail_order pm o = TypeError).
Proof.
  unfold pickable_order, detail_order.
  pose proof (order_line_items_result o) as Hl.
  assert (Hbind : forall (k : list value -> completion value),
             (lis <- get o "line_items" ;;
              l <- as_array (js_or lis (VArr [])) ;; k l)
             = (l <- (lis <- get o "line_items" ;;
                      as_array (js_or lis (VArr []))) ;; k l)).
  { intros k. destruct (get o "line_items"); reflexivity. }
  rewrite Hbind.
  destruct (get o "line_items") as [v|]; [|rewrite Hl; split; [discriminate|reflexivity]].
  destruct v;
    try (destruct (truthy _) eqn:Ht; rewrite Hl; cbn [bind map_c negb];
         split; try discriminate; eauto).
  rewrite Hl. cbn [bind].
  destruct (map_c_result (detail_line_item pm) pickable_item elems
              (detail_line_item_result pm)) as [H1 H2].
  split.
  - intros H. destruct (H1 H) as (out & -> & _). cbn [bind]. eauto.
  - intros H. rewrite (H2 H). reflexivity.
Qed.

(** X15.  GET /packing throws exactly when the stored collection cannot be
    read: an order or line item is [null], a [line_items] member is neither
    absent nor an array, or a [product_id] cannot be converted to a member
    name.  The product mapping never makes it throw: otherwise it answers 200
    with one entry per stored order. *)
Theorem packing_throws_iff_store_unreadable
  (product_mapping : list (string * value)) (orders : list value) :
  (packing product_mapping orders = TypeError
   <-> forallb pickable_order orders = false)
  /\ (forallb pickable_order orders = true ->
      exists out,
        packing product_mapping orders
        = Normal {| status := 200; body := VArr out |}
        /\ List.length out = List.length orders).
Proof.
  destruct (map_c_result (detail_order product_mapping) pickable_order orders
              (detail_order_result product_mapping)) as [H1 H2].
  assert (Hok : forallb pickable_order orders = true ->
                exists out,
                  packing product_mapping orders
                  = Normal {| status := 200; body := VArr out |}
                  /\ List.length out = List.length orders).
  { intros H. destruct (H1 H) as (out & Hout & Hlen).
    exists out. unfold packing. rewrite Hout. auto. }
  split; [|exact Hok]. split.
  - intros Hp. destruct (forallb pickable_order orders); [|reflexivity].
    destruct (Hok eq_refl) as (out & Hout & _). congruence.
  - intros H. unfold packing. rewrite (H2 H). reflexivity.
Qed.

Lemma js_add_convertible (a b : value) :
  convertible a = true -> convertible b = true ->
  exists r, js_add a b = Normal r /\ is_primitive r = true.
Proof.
  intros Ha Hb. unfold js_add.
  destruct (to_primitive_convertible a Ha) as (pa & -> & Hpa).
  destruct (to_primitive_convertible b Hb) as (pb & -> & Hpb). cbn [bind].
  destruct (to_string_primitive pa Hpa) as [sa Hsa].
  destruct (to_string_primitive pb Hpb) as [sb Hsb].
  destruct pa; try discriminate; destruct pb; try discriminate;
    rewrite ?Hsa, ?Hsb; cbn [bind]; eexists; split; reflexivity.
Qed.

Lemma primitive_convertible (v : value) :
  is_primitive v = true -> convertible v = true.
Proof. destruct v; try discriminate; reflexivity. Qed.

Lemma primitive_values_replace (k : string) (v : value)
  (t : list (string * value)) :
  is_primitive v = true -> primitive_values t ->
  primitive_values (replace_member k v t).
Proof.
  intros Hv. induction 1 as [|[k' w] t Hw Ht IH]; simpl; [constructor|].
  destruct (String.eqb k k'); constructor; auto.
Qed.

Lemma primitive_values_insert (i : Z) (k : string) (v : value)
  (t : list (string * value)) :
  is_primitive v = true -> primitive_values t ->
  primitive_values (insert_index i k v t).
Proof.
  intros Hv. induction 1 as [|[k' w] t Hw Ht IH]; simpl.
  - constructor; [exact Hv | constructor].
  - destruct (array_index k') as [j|]; [destruct (j <? i)|];
      repeat (constructor; auto).
Qed.

Lemma primitive_values_assign (k : string) (v : value)
  (t : list (string * value)) :
  is_primitive v = true -> primitive_values t ->
  primitive_values (assign k v t).
Proof.
  intros Hv Ht. unfold assign. destruct (String.eqb k "__proto__"); [exact Ht|].
  unfold define. destruct (has_key k t).
  - apply primitive_values_replace; assumption.
  - destruct (array_index k).
    + apply primitive_values_insert; assumption.
    + apply Forall_app. split; [exact Ht|]. constructor; [exact Hv | constructor].
Qed.

Lemma count_product_result (agg : list (string * value)) (p : value) :
  primitive_values agg ->
  (product_ok p = true ->
   exists agg', count_product agg p = Normal agg' /\ primitive_values agg')
  /\ (product_ok p = false -> count_product agg p = TypeError).
Proof.
  intros Hagg. unfold product_ok, count_product.
  destruct (get p "product_name") as [name|]; cbn [bind];
    [|split; [discriminate | reflexivity]].
  split.
  - intros Hc. destruct (proj1 (to_string_convertible name) Hc) as [key ->].
    cbn [bind]. unfold count_name.
    assert (Hcur : exists cur, get (VObj agg) key = Normal cur
                               /\ convertible cur = true).
    { unfold get. destruct (lookup key agg) as [w|] eqn:Hl.
      - exists w. split; [reflexivity|]. apply lookup_In in Hl.
        unfold primitive_values in Hagg. rewrite Forall_forall in Hagg.
        apply primitive_convertible, (Hagg (key, w) Hl).
      - destruct (mem_string key object_prototype_names); eexists; split;
          reflexivity. }
    destruct Hcur as (cur & -> & Hcc). cbn [bind].
    assert (Hor : convertible (js_or cur (VNum (Fin 0))) = true)
      by (rewrite convertible_js_or; exact Hcc).
    destruct (js_add_convertible _ (VNum (Fin 1)) Hor eq_refl) as (q & -> & Hq).
    cbn [bind]. eexists. split; [reflexivity|].
    apply primitive_values_assign; assumption.
  - intros Hc. rewrite (proj2 (to_string_convertible name) Hc). reflexivity.
Qed.

Lemma pick_line_item_result (pm agg : list (string * value)) (li : value) :
  primitive_values agg ->
  (line_pickable pm li = true ->
   exists agg', pick_line_item pm agg li = Normal agg' /\ primitive_values agg')
  /\ (line_pickable pm li = false -> pick_line_item pm agg li = TypeError).
Proof.
  intros Hagg. unfold line_pickable, pick_line_item.
  pose proof (product_key_result li) as Hk.
  destruct (product_key li) as [key|].
  - destruct Hk as (pid & -> & Hkey). cbn [bind]. rewrite Hkey. cbn [bind].
    destruct (get_not_nullish (VObj pm) key eq_refl) as [m ->]. cbn [bind].
    unfold entry_pickable. destruct (truthy m) eqn:Ht; cbn [negb orb].
    + destruct (get_not_nullish m "products" (truthy_not_nullish m Ht))
        as [ps ->]. cbn [bind].
      destruct (truthy ps) eqn:Hps; cbn [negb orb].
      * destruct ps; try (split; [discriminate | reflexivity]).
        cbn [as_array bind].
        apply (reduce_result count_product product_ok primitive_values elems);
          [|exact Hagg].
        intros s x Hs. apply count_product_result, Hs.
      * split; [eauto | discriminate].
    + split; [eauto | discriminate].
  - split; [discriminate | intros _].
    destruct (get li "product_id") as [pid|]; cbn [bind] in *; [|reflexivity].
    rewrite Hk. reflexivity.
Qed.

Lemma pick_order_result (pm agg : list (string * value)) (o : value) :
  primitive_values agg ->
  (order_pickable pm o = true ->
   exists agg', pick_order pm agg o = Normal agg' /\ primitive_values agg')
  /\ (order_pickable pm o = false -> pick_order pm agg o = TypeError).
Proof.
  intros Hagg. unfold order_pickable, pick_order.
  pose proof (order_line_items_result o) as Hl.
  assert (Hbind : forall (k : list value -> completion (list (string * value))),
             (lis <- get o "line_items" ;;
              l <- as_array (js_or lis (VArr [])) ;; k l)
             = (l <- (lis <- get o "line_items" ;;
                      as_array (js_or lis (VArr []))) ;; k l)).
  { intros k. destruct (get o "line_items"); reflexivity. }
  rewrite Hbind.
  destruct (get o "line_items") as [v|];
    [|rewrite Hl; split; [discriminate | reflexivity]].
  destruct v;
    try (destruct (truthy _) eqn:Ht; rewrite Hl; cbn [bind reduce negb];
         split; try discriminate; eauto).
  rewrite Hl. cbn [bind].
  apply (reduce_result (pick_line_item pm) (line_pickable pm) primitive_values
                       elems); [|exact Hagg].
  intros s x Hs. apply pick_line_item_result, Hs.
Qed.

(** X16.  GET /picking throws exactly when the stored collection cannot be
    read (a [null] order or line item, a [line_items] member that is neither
    absent nor an array, a [product_id] that cannot be converted) or when the
    mapping entry of some line item has a [products] member that is neither
    absent nor an array of non-null products with a convertible name.
    Otherwise it answers 200 with a list. *)
Theorem picking_throws_iff_unreadable
  (product_mapping : list (string * value)) (orders : list value) :
  (picking product_mapping orders = TypeError
   <-> forallb (order_pickable product_mapping) orders = false)
  /\ (forallb (order_pickable product_mapping) orders = true ->
      exists aggregated,
        picking product_mapping orders
        = Normal {| status := 200; body := VArr (map picking_entry aggregated) |}).
Proof.
  destruct (reduce_result (pick_order product_mapping)
              (order_pickable product_mapping) primitive_values orders
              (fun s x Hs => pick_order_result product_mapping s x Hs)
              [] (Forall_nil _)) as [H1 H2].
  assert (Hok : forallb (order_pickable product_mapping) orders = true ->
                exists aggregated,
                  picking product_mapping orders
                  = Normal {| status := 200;
                              body := VArr (map picking_entry aggregated) |}).
  { intros H. destruct (H1 H) as (agg & Hagg & _).
    exists agg. unfold picking. rewrite Hagg. reflexivity. }
  split; [|exact Hok]. split.
  - intros Hp. destruct (forallb (order_pickable product_mapping) orders);
      [|reflexivity].
    destruct (Hok eq_refl) as (agg & Hagg). congruence.
  - intros H. unfold picking. rewrite (H2 H). reflexivity.
Qed.

(** ** The sequence of the stored orders and the picking list *)

Lemma first_occurrences_permutation (l l' : list string) :
  Permutation l l' -> Permutation (first_occurrences l) (first_occurrences l').
Proof.
  intros H. apply NoDup_Permutation; try apply first_occurrences_NoDup.
  intros k. rewrite !first_occurrences_In.
  split; apply Permutation_in; [exact H | symmetry; exact H].
Qed.

Lemma tally_permutation (l l' : list string) :
  Permutation l l' -> Permutation (tally l) (tally l').
Proof.
  intros H. unfold tally.
  assert (E : map (fun k => (k, VNum (Fin (occurrences k l)))) (first_occurrences l)
              = map (fun k => (k, VNum (Fin (occurrences k l')))) (first_occurrences l)).
  { apply map_ext. intros k. unfold occurrences.
    rewrite (proj1 (Permutation_count_occ string_dec l l') H k). reflexivity. }
  rewrite E. apply Permutation_map, first_occurrences_permutation, H.
Qed.

Lemma forallb_permutation {A : Type} (f : A -> bool) (l l' : list A) :
  Permutation l l' -> forallb f l = true -> forallb f l' = true.
Proof.
  intros H Hl. rewrite forallb_forall in *. intros x Hx. apply Hl.
  eapply Permutation_in; [symmetry; exact H | exact Hx].
Qed.

Lemma picked_names_permutation (pm : list (string * value))
  (orders orders' : list value) :
  Permutation orders orders' ->
  Permutation (picked_names pm orders) (picked_names pm orders').
Proof.
  intros H. unfold picked_names, stored_line_items.
  apply Permutation_flat_map, Permutation_flat_map, H.
Qed.

(** X17.  The sequence of the stored orders matters to GET /picking only for
    the sequence of its list: on a rearranged collection it lists the same
    products with the same quantities. *)
Theorem picking_of_rearranged_orders
  (product_mapping : list (string * value)) (orders orders' : list value) :
  Permutation orders orders' ->
  pickable_mapping product_mapping = true ->
  forallb pickable_order orders = true ->
  forallb plain_name (picked_names product_mapping orders) = true ->
  Z.of_nat (List.length (picked_names product_mapping orders)) <= max_safe_integer ->
  exists aggregated aggregated',
    picking product_mapping orders
    = Normal {| status := 200; body := VArr (map picking_entry aggregated) |}
    /\ picking product_mapping orders'
       = Normal {| status := 200; body := VArr (map picking_entry aggregated') |}
    /\ Permutation aggregated aggregated'.
Proof.
  intros Hperm Hpm Ho Hplain Hb.
  pose proof (picked_names_permutation product_mapping orders orders' Hperm)
    as Hnames.
  exists (tally (picked_names product_mapping orders)),
         (tally (picked_names product_mapping orders')).
  split; [|split].
  - apply picking_tally; assumption.
  - apply picking_tally; auto.
    + eapply forallb_permutation; eassumption.
    + eapply forallb_permutation; eassumption.
    + rewrite <- (Permutation_length Hnames). exact Hb.
  - apply tally_permutation, Hnames.
Qed.

Lemma picking_of_rearranged_orders_witness :
  exists aggregated aggregated',
    picking sample_mapping sample_store
    = Normal {| status := 200; body := VArr (map picking_entry aggregated) |}
    /\ picking sample_mapping (List.rev sample_store)
       = Normal {| status := 200; body := VArr (map picking_entry aggregated') |}
    /\ Permutation aggregated aggregated'.
Proof.
  apply (picking_of_rearranged_orders sample_mapping sample_store (List.rev sample_store)).
  - apply Permutation_rev.
  - reflexivity.
  - reflexivity.
  - reflexivity.
  - vm_compute. discriminate.
Defined.

(** ** Conforming stores stay conforming *)

Lemma all_digits_print (d : uint) : all_digits (NilEmpty.string_of_uint d) = true.
Proof. induction d; simpl; auto. Qed.

Lemma pattern_number_label (z : Z) :
  0 < z <= max_safe_integer ->
  pattern_number ("LI-" ++ num_to_string (Fin z)) = Some z.
Proof.
  unfold max_safe_integer. intros Hz.
  rewrite num_to_string_safe by lia.
  destruct z as [|p|p]; try lia.
  rewrite decimal_pos. unfold pattern_number. simpl strip_prefix.
  cbv beta iota.
  rewrite all_digits_print. unfold parse_digits. rewrite digits_prefix_print.
  pose proof (DecimalPos.Unsigned.to_uint_nonnil p) as Hn.
  pose proof (of_uint_to_uint p) as Hp.
  destruct (Pos.to_uint p); try congruence.
Qed.

Lemma labelled_item_conforming (r : value) (z : Z) :
  get r "line_item_id" = Normal (VStr ("LI-" ++ num_to_string (Fin z))) ->
  0 < z <= max_safe_integer ->
  conforming_item r = true /\ spec_item_number r = z.
Proof.
  intros Hg [Hz Hs]. unfold conforming_item, spec_item_number.
  rewrite Hg, (pattern_number_label z (conj Hz Hs)). split; [|reflexivity].
  apply orb_true_iff. right. apply Z.leb_le. exact Hs.
Qed.

Lemma last_unlabelled (l : list value) :
  count_unlabelled l = 0
  \/ exists i x,
      nth_error l i = Some x /\ carries_id x = false
      /\ count_unlabelled (firstn (S i) l) = count_unlabelled l.
Proof.
  induction l as [|y l [IH|(i & x & Hi & Hx & Hc)]].
  - left. reflexivity.
  - rewrite count_unlabelled_cons, IH. destruct (carries_id y) eqn:Ey.
    + left. reflexivity.
    + right. exists O, y. repeat split; auto.
      change (firstn 1 (y :: l)) with [y].
      rewrite count_unlabelled_cons, Ey. reflexivity.
  - right. exists (S i), x. repeat split; auto.
    change (firstn (S (S i)) (y :: l)) with (y :: firstn (S i) l).
    rewrite !count_unlabelled_cons, Hc. reflexivity.
Qed.

Lemma conforming_item_not_nullish (l : list value) :
  forallb conforming_item l = true -> Forall (fun item => nullish item = false) l.
Proof.
  intros H. apply Forall_forall. intros x Hx. rewrite forallb_forall in H.
  specialize (H x Hx). unfold conforming_item in H.
  destruct x; try reflexivity; discriminate.
Qed.

Lemma max_line_item_id_value (orders : list value) :
  forallb conforming_order orders = true ->
  max_line_item_id orders
  = Normal (Fin (fold_left Z.max (map spec_item_number (stored_line_items orders)) 0))
  /\ fold_left Z.max (map spec_item_number (stored_line_items orders)) 0
     = global_max_line_item_number orders.
Proof.
  intros H. split.
  - unfold max_line_item_id. apply max_line_item_id_fold; [lia | exact H].
  - unfold global_max_line_item_number. apply fold_max_maximum.
    apply Forall_forall. intros x Hx. apply in_map_iff in Hx.
    destruct Hx as (li & <- & _). apply spec_item_number_nonneg.
Qed.

(** X18.  POST /orders keeps a conforming store conforming: when the stored
    line-item ids and the ids supplied in the payload are absent or of the
    form [LI-<digits>], the same holds of the collection after the create,
    and the global maximum read from it has advanced by at least the number
    of ids that were assigned. *)
Theorem create_keeps_store_conforming
  (orders : list value) (d : value) (now : string) (items : list value)
  (orders' : list value) (resp : response) :
  forallb conforming_order orders = true ->
  get d "line_items" = Normal (VArr items) ->
  forallb conforming_item items = true ->
  global_max_line_item_number orders + Z.of_nat (List.length items)
  <= max_safe_integer ->
  create orders d now = Normal (orders', resp) ->
  forallb conforming_order orders' = true
  /\ exists m',
      max_line_item_id orders' = Normal (Fin m')
      /\ global_max_line_item_number orders + count_unlabelled items <= m'.
Proof.
  intros Hc Hd Hitems Hsafe Hcr.
  destruct (max_line_item_id_value orders Hc) as [Hmax HM].
  set (M := global_max_line_item_number orders) in *.
  rewrite HM in Hmax.
  pose proof (conforming_item_not_nullish items Hitems) as Hnn.
  pose proof (global_max_nonneg orders) as HM0. fold M in HM0.
  destruct (new_line_items_spec items Hnn M HM0 Hsafe)
    as (out & Hout & Hlen & Hpos).
  apply create_normal in Hcr.
  destruct Hcr as (id & total & its & sa & cn & ce & _ & _
                   & (counter & l & Hcounter & Hl & Hnew) & _ & _ & _ & Hb & _ & ->).
  rewrite Hmax in Hcounter. injection Hcounter as <-.
  rewrite Hd in Hl. injection Hl as <-.
  rewrite Hout in Hnew. injection Hnew as <-.
  (* every new item conforms, and a labelled one carries its number *)
  assert (Hnew : forall i item r,
             nth_error items i = Some item ->
             nth_error out i = Some r ->
             conforming_item r = true
             /\ (carries_id item = false ->
                 spec_item_number r
                 = M + count_unlabelled (firstn (S i) items))).
  { intros i item r Hi Hr.
    destruct (Hpos i item Hi) as (r0 & Hr0 & Hsame & Hlab).
    rewrite Hr in Hr0. injection Hr0 as <-.
    destruct (carries_id item) eqn:Ec.
    - rewrite (Hsame eq_refl). split; [|discriminate].
      rewrite forallb_forall in Hitems.
      apply Hitems. eapply nth_error_In; exact Hi.
    - pose proof (count_prefix_pos items i item Hi Ec) as H1.
      pose proof (count_unlabelled_prefix_le items (S i)) as H2.
      destruct (labelled_item_conforming r _ (Hlab eq_refl)) as [Hcr Hsr];
        [lia|].
      split; [exact Hcr | intros _; exact Hsr]. }
  assert (Hout_conf : forallb conforming_item out = true).
  { apply forallb_forall. intros r Hr.
    apply In_nth_error in Hr. destruct Hr as [i Hr].
    assert (Hi : exists item, nth_error items i = Some item).
    { destruct (nth_error items i) as [item|] eqn:E; [eauto|].
      apply nth_error_None in E.
      assert (nth_error out i <> None) by congruence.
      apply nth_error_Some in H. lia. }
    destruct Hi as [item Hi]. apply (Hnew i item r Hi Hr). }
  assert (Hconf : forallb conforming_order (orders ++ [body resp]) = true).
  { rewrite forallb_app, Hc, Hb. simpl. unfold conforming_order. simpl.
    rewrite Hout_conf. reflexivity. }
  split; [exact Hconf|].
  destruct (max_line_item_id_value _ Hconf) as [Hmax' _].
  eexists. split; [exact Hmax'|].
  assert (Hstored : stored_line_items (orders ++ [body resp])
                    = (stored_line_items orders ++ out)%list).
  { unfold stored_line_items. rewrite flat_map_app. simpl.
    rewrite app_nil_r, Hb. reflexivity. }
  rewrite Hstored, map_app, fold_left_app, HM.
  destruct (fold_max_le (map spec_item_number out) M) as [Hge Hall].
  destruct (last_unlabelled items) as [H0|(i & x & Hi & Hx & Hcount)].
  - lia.
  - destruct (nth_error out i) as [r|] eqn:Hr.
    + destruct (Hnew i x r Hi Hr) as [_ Hs]. specialize (Hs Hx).
      rewrite Forall_forall in Hall.
      assert (Hin : In (spec_item_number r) (map spec_item_number out))
        by (apply in_map; eapply nth_error_In; exact Hr).
      specialize (Hall _ Hin). lia.
    + apply nth_error_None in Hr.
      assert (nth_error items i <> None) by congruence.
      apply nth_error_Some in H. lia.
Qed.

Lemma create_keeps_store_conforming_witness :
  forallb conforming_order
          (sample_store ++ [created sample_store relabelled_payload "t"])
  = true.
Proof.
  apply (create_keeps_store_conforming
           sample_store relabelled_payload "t"
           [ VObj [("product_id", VStr "Box")];
             VObj [("line_item_id", VStr "LI-40"); ("product_id", VStr "Kit")] ]
           (sample_store ++ [created sample_store relabelled_payload "t"])
           {| status := 201;
              body := created sample_store relabelled_payload "t" |}).
  - reflexivity.
  - reflexivity.
  - reflexivity.
  - vm_compute. discriminate.
  - reflexivity.
Defined.

(** ** Creating and deleting *)

Lemma firstn_skipn_last {A : Type} (l : list A) (x : A) :
  (firstn (List.length l) (l ++ [x]) ++ skipn (S (List.length l)) (l ++ [x]))%list
  = l.
Proof.
  rewrite firstn_app, Nat.sub_diag, firstn_all. simpl firstn.
  rewrite skipn_app, skipn_all2 by lia.
  replace (S (List.length l) - List.length l)%nat with 1%nat by lia.
  simpl. rewrite !app_nil_r. reflexivity.
Qed.

(** X19.  Deleting an order that POST /orders has just created, by the
    identifier it was given, restores the stored collection as it was before
    the create, and answers with that order as its JSON text gave it back
    (which is what POST sent), when the identifiers stored before were
    numeric strings (within the safe integers); the collection is one that
    [loadOrders] returns, so that saving and reloading it gives it back. *)
Theorem delete_undoes_create
  (orders : list value) (d : value) (now : string)
  (orders' : list value) (resp : response) :
  Forall numeric_id orders ->
  safe_ids orders ->
  reloaded orders = orders ->
  create orders d now = Normal (orders', resp) ->
  exists id,
    get (body resp) "order_id" = Normal (VStr id)
    /\ delete (reloaded orders') id
       = Normal (orders, {| status := 200; body := json_element (body resp) |})
    /\ next_store (next_store orders (Create d now)) (Delete id) = orders.
Proof.
  intros Hnum Hsafe Hl Hc. pose proof Hc as Hcr. apply create_normal in Hc.
  destruct Hc as (id & total & items & sa & cn & ce & Hid & _ & _ & _ & _ & _
                  & Hb & Hst & ->).
  destruct (new_order_id_fresh orders id Hnum Hsafe Hid) as [Hfresh _].
  assert (Hg : get (body resp) "order_id" = Normal (VStr id))
    by (rewrite Hb; reflexivity).
  exists id. split; [exact Hg|].
  assert (Hr : reloaded (orders ++ [body resp])
               = (orders ++ [json_element (body resp)])%list).
  { unfold reloaded in *. rewrite map_app, Hl. reflexivity. }
  assert (Hm : first_match id (orders ++ [json_element (body resp)])
                           (List.length orders) (json_element (body resp))).
  { repeat split.
    - rewrite nth_error_app2, Nat.sub_diag by lia. reflexivity.
    - apply get_json_string, Hg.
    - rewrite firstn_app, Nat.sub_diag, firstn_all. simpl. rewrite app_nil_r.
      rewrite <- Hl. apply reloaded_passed_over; assumption. }
  assert (Hdel : delete (reloaded (orders ++ [body resp])) id
                 = Normal (orders, {| status := 200;
                                      body := json_element (body resp) |})).
  { rewrite Hr. destruct (first_match_found id _ _ _ Hm) as [Hi _].
    unfold delete. rewrite Hi. cbn [bind].
    rewrite remove_nth_firstn_skipn, firstn_skipn_last.
    rewrite (nth_error_nth _ _ VUndef (proj1 Hm)). reflexivity. }
  split; [exact Hdel|].
  unfold next_store at 2. cbn [handle]. rewrite Hcr, Hst. cbn [Nat.eqb].
  unfold next_store. cbn [handle]. rewrite Hdel. cbn [status Nat.eqb].
  exact Hl.
Qed.

Lemma delete_undoes_create_witness :
  exists id,
    get (created two_orders priced_payload "t3") "order_id" = Normal (VStr id)
    /\ delete (reloaded (two_orders ++ [created two_orders priced_payload "t3"])) id
       = Normal (two_orders,
                 {| status := 200;
                    body := json_element (created two_orders priced_payload "t3") |})
    /\ next_store (next_store two_orders (Create priced_payload "t3")) (Delete id)
       = two_orders.
Proof.
  apply (delete_undoes_create
           two_orders priced_payload "t3"
           (two_orders ++ [created two_orders priced_payload "t3"])
           {| status := 201; body := created two_orders priced_payload "t3" |}).
  - repeat constructor.
    + exists "1", 1. split; reflexivity.
    + exists "2", 2. split; reflexivity.
  - repeat constructor; intros n H; vm_compute in H; injection H as <-;
      vm_compute; discriminate.
  - reflexivity.
  - reflexivity.
Defined.
